(** * SentinelRAG: the continuous-learning core, embedded in Rocq

    A shallow embedding of
      - [src/core/embedding_manager.py]  (hardware tier detection),
      - [src/agents/reflector.py]        (the write path of the rule store),
      - [src/core/guidelines_manager.py] (the read cache and the migrator),
    followed by the properties of the specification that were checked
    against it.

    Conventions of the embedding.
      - A Python [str] is a [string]; one character stands for one code
        point.
      - A Python [float] is a rational number ([Q]): sums, products and
        [round] are taken exactly.  The floats that the modelled code
        compares are confidences, scores, quotients of two small integers
        and multiples of 1/4.
      - A rule (a Python [dict]) is a record whose fields are the keys the
        code reads; a field is [None] when the key is absent.
      - The file system is a finite map from paths to file contents.
      - Exceptions are values: an operation that can raise returns a
        [result]. *)

From Stdlib Require Import ZArith QArith Qround Qabs Lqa Lia List Bool Ascii String.
From stdpp Require Import gmap strings list fin_maps sorting.

Local Open Scope string_scope.
Set Warnings "-register-all".

(* ===================================================================== *)
(** * Python built-ins on strings *)
(* ===================================================================== *)

Module Py.

(** [c.lower()] for one character: the 26 capital letters move down
    (the characters beyond the first 128 are left as they are). *)
Definition lower_char (c : ascii) : ascii :=
  let n := nat_of_ascii c in
  if (65 <=? n)%nat && (n <=? 90)%nat then ascii_of_nat (n + 32) else c.

(** [s.lower()] *)
Fixpoint lower (s : string) : string :=
  match s with
  | EmptyString => EmptyString
  | String c s' => String (lower_char c) (lower s')
  end.

(** [s.startswith(m)] *)
Fixpoint startswith (m s : string) : bool :=
  match m, s with
  | EmptyString, _ => true
  | String _ _, EmptyString => false
  | String a m', String b s' => if Ascii.eqb a b then startswith m' s' else false
  end.

(** [m in s] for two strings: [m] occurs in [s] as a substring. *)
Fixpoint contains (m s : string) : bool :=
  startswith m s ||
  match s with
  | EmptyString => false
  | String _ s' => contains m s'
  end.

(** What [str.isspace] accepts among the first 128 code points. *)
Definition is_space (c : ascii) : bool :=
  let n := nat_of_ascii c in
  ((9 <=? n)%nat && (n <=? 13)%nat) || ((28 <=? n)%nat && (n <=? 32)%nat).

(** [s.split()]: the maximal runs of non-blank characters, in order.
    [cur] is the run being read, kept reversed. *)
Fixpoint rev_string (acc s : string) : string :=
  match s with
  | EmptyString => acc
  | String c s' => rev_string (String c acc) s'
  end.

Definition flush (cur : string) (out : list string) : list string :=
  match cur with
  | EmptyString => out
  | _ => rev_string EmptyString cur :: out
  end.

Fixpoint split_go (s cur : string) : list string :=
  match s with
  | EmptyString => flush cur []
  | String c s' =>
      if is_space c then flush cur (split_go s' EmptyString)
      else split_go s' (String c cur)
  end.

Definition split (s : string) : list string := split_go s EmptyString.

(** [s.strip()] *)
Fixpoint lstrip (s : string) : string :=
  match s with
  | EmptyString => EmptyString
  | String c s' => if is_space c then lstrip s' else s
  end.

Definition strip (s : string) : string :=
  rev_string EmptyString (lstrip (rev_string EmptyString (lstrip s))).

End Py.

(* ===================================================================== *)
(** * [src/core/embedding_manager.py] *)
(* ===================================================================== *)

Module EmbeddingManager.

Definition small_markers : list string :=
  ["4b"; "3b"; "2b"; "1b"; "0.5b"; "0.5"; "_4b"; "_3b"; "_2b"].

Definition large_markers : list string :=
  ["8b"; "7b"; "6b"; "9b"; "_8b"; "_7b"; "_6b"].

(** [for m in markers: if m in lower: return ...] reaches its [return]
    exactly when some marker occurs. *)
Definition any_marker (markers : list string) (lower : string) : bool :=
  existsb (fun m => Py.contains m lower) markers.

Definition detect_model_size (model_name : string) : string :=
  let lower := Py.lower model_name in
  if any_marker small_markers lower then "4B"
  else if any_marker large_markers lower then "8B"
  else "8B".

(** The embedding service, as the learning loop sees it:
    [is_ready], [encode] (which answers [None] instead of raising) and
    [cosine_similarity]. *)
Definition embedding := list Q.

Record EmbeddingManager := {
  is_ready : bool;
  encode : string -> option embedding;
  cosine_similarity : embedding -> embedding -> Q;
}.

(** The method [EmbeddingManager.cosine_similarity]: the dot product of
    the two vectors, clamped to [-1, 1]; [np.dot] raises on vectors of
    different lengths, and the method then answers [0.0]. *)
Definition np_dot (a b : embedding) : Q :=
  fold_right Qplus 0%Q (zip_with Qmult a b).

Definition py_max (a b : Q) : Q := if Qle_bool b a then a else b.

Definition py_min1 (a b : Q) : Q := if Qle_bool a b then a else b.

Definition cosine_similarity_method (vec_a vec_b : embedding) : Q :=
  if (length vec_a =? length vec_b)%nat
  then py_max (-1) (py_min1 1 (np_dot vec_a vec_b))
  else 0%Q.

End EmbeddingManager.

(* ===================================================================== *)
(** * Exceptions, files and the store's data model *)
(* ===================================================================== *)

Module Store.

(** The exception classes the modelled code raises or catches. *)
Inductive exn :=
| FileNotFoundError
| JSONDecodeError
| OSError
| TypeError
| AttributeError
| ValueError
| AssertionError.

Inductive result (A : Type) :=
| Ok (a : A)
| Raise (e : exn).
Arguments Ok {A} a.
Arguments Raise {A} e.

(** A stored time stamp is an ISO-8601 string.  [datetime.fromisoformat]
    either reads it as an instant (microseconds since the epoch, a stamp
    without zone being taken as UTC) or raises [ValueError]. *)
Inductive timestamp :=
| Instant (us : Z)
| Malformed (s : string).

(** One rule of [system_guidelines.json].  The learning loop reads the id
    by subscript ([rule["id"]]), every other key through [rule.get]. *)
Record Rule := {
  r_id : string;
  r_user_id : option string;
  r_rule : option string;
  r_embedding : option (list Q);
  r_confidence : option Q;
  r_trigger_count : option Z;
  r_query_types : option (list string);
  r_language_hint : option string;
  r_created_at : option timestamp;
  r_last_triggered : option timestamp;
  r_status : option string;
  r_source_summary : option string;
  r_model_generated_by : option string;
}.

(** [d.get(key, default)] on a field that may be absent. *)
Definition get {A : Type} (field : option A) (default : A) : A :=
  match field with
  | Some v => v
  | None => default
  end.

(** [r.get("status") == "active"] *)
Definition is_active (r : Rule) : bool :=
  match r_status r with
  | Some s => String.eqb s "active"
  | None => false
  end.

(** [r.get("status") == "retired"] *)
Definition is_retired (r : Rule) : bool :=
  match r_status r with
  | Some s => String.eqb s "retired"
  | None => false
  end.

(** [rule["status"] = "retired"] *)
Definition retire (r : Rule) : Rule :=
  {| r_id := r_id r; r_user_id := r_user_id r; r_rule := r_rule r;
     r_embedding := r_embedding r; r_confidence := r_confidence r;
     r_trigger_count := r_trigger_count r; r_query_types := r_query_types r;
     r_language_hint := r_language_hint r; r_created_at := r_created_at r;
     r_last_triggered := r_last_triggered r; r_status := Some "retired";
     r_source_summary := r_source_summary r;
     r_model_generated_by := r_model_generated_by r |}.

(** The store document [{schema_version, last_updated, rules, ...}];
    [d_other] holds whatever further keys the file carries. *)
Record Document := {
  d_schema_version : option string;
  d_last_updated : option timestamp;
  d_rules : option (list Rule);
  d_other : list (string * string);
}.

(** What a path holds: text that [json.load] reads as [a], or bytes that
    make it raise [JSONDecodeError]. *)
Inductive file (A : Type) :=
| Parsed (a : A)
| NotJson (raw : string).
Arguments Parsed {A} a.
Arguments NotJson {A} raw.

(** What an attempt to write a file does: all of it, nothing (the file
    could not be opened), or a part (the bytes left behind do not parse). *)
Inductive write_outcome :=
| Written
| Refused
| Torn (raw : string).

(** [sorted(l, key=...)] and [l.sort(key=...)] are stable: insertion of
    each element before the first one that does not have to precede it.
    [before x y] says that [x] may stand before a later [y]. *)
Fixpoint insert_sorted {A : Type} (before : A -> A -> bool) (x : A) (l : list A) : list A :=
  match l with
  | [] => [x]
  | y :: l' => if before x y then x :: y :: l' else y :: insert_sorted before x l'
  end.

Fixpoint stable_sort {A : Type} (before : A -> A -> bool) (l : list A) : list A :=
  match l with
  | [] => []
  | x :: l' => insert_sorted before x (stable_sort before l')
  end.

(** [round(x, 3)]: to the nearest thousandth, ties to the even one. *)
Definition round_half_even (q : Q) : Z :=
  let f := Qfloor q in
  match ((q - inject_Z f) ?= (1 # 2))%Q with
  | Lt => f
  | Gt => (f + 1)%Z
  | Eq => if Z.even f then f else (f + 1)%Z
  end.

Definition round3 (q : Q) : Q := Qmake (round_half_even (q * 1000)%Q) 1000.

(** [min(a, b)] on floats: [b] only when it is strictly smaller. *)
Definition py_min (a b : Q) : Q := if Qle_bool a b then a else b.

(** ** Code that changes a world [W] and may raise *)

Definition M (W A : Type) : Type := W -> result A * W.

Definition ret {W A : Type} (a : A) : M W A := fun w => (Ok a, w).

Definition raise {W A : Type} (e : exn) : M W A := fun w => (Raise e, w).

Definition bind {W A B : Type} (m : M W A) (k : A -> M W B) : M W B :=
  fun w =>
    match m w with
    | (Ok a, w') => k a w'
    | (Raise e, w') => (Raise e, w')
    end.

(** [try: m  except Exception as e: handler e] *)
Definition try_except {W A : Type} (m : M W A) (handler : exn -> M W A) : M W A :=
  fun w =>
    match m w with
    | (Ok a, w') => (Ok a, w')
    | (Raise e, w') => handler e w'
    end.

(** [try: m  except Exception: pass] *)
Definition try_pass {W : Type} (m : M W unit) : M W unit :=
  try_except m (fun _ => ret tt).

(** A computation that does not touch the world. *)
Definition lift {W A : Type} (r : result A) : M W A := fun w => (r, w).

(** ** The file system

    [disk] is what the paths hold now; [history] lists every state the
    disk went through before, the latest first: what some reader may have
    seen. *)

Section FileSystem.
Context {A : Type}.

Record world := {
  disk : gmap string (file A);
  history : list (gmap string (file A));
}.

Definition change (f : gmap string (file A) -> gmap string (file A)) : M world unit :=
  fun w => (Ok tt, {| disk := f (disk w); history := disk w :: history w |}).

(** [os.path.exists(path)] *)
Definition os_path_exists (path : string) : M world bool :=
  fun w => (Ok (bool_decide (is_Some (disk w !! path))), w).

(** [with open(path, "r") as f: json.load(f)] *)
Definition read_json (path : string) : M world A :=
  fun w =>
    match disk w !! path with
    | None => (Raise FileNotFoundError, w)
    | Some (NotJson _) => (Raise JSONDecodeError, w)
    | Some (Parsed a) => (Ok a, w)
    end.

(** [with open(path, "w") as f: f.write(text)], the directory being made
    first where the code does so. *)
Definition write_file (outcome : write_outcome) (path : string) (text : file A) : M world unit :=
  match outcome with
  | Written => change (fun d => <[path := text]> d)
  | Refused => raise OSError
  | Torn raw => bind (change (fun d => <[path := NotJson raw]> d)) (fun _ => raise OSError)
  end.

(** [os.replace(src, dst)]: one step, or none at all. *)
Definition os_replace (fails : bool) (src dst : string) : M world unit :=
  if fails then raise OSError
  else fun w =>
    match disk w !! src with
    | Some c => change (fun d => <[dst := c]> (delete src d)) w
    | None => (Raise FileNotFoundError, w)
    end.

(** [os.remove(path)] *)
Definition os_remove (fails : bool) (path : string) : M world unit :=
  if fails then raise OSError
  else fun w =>
    match disk w !! path with
    | Some _ => change (fun d => delete path d) w
    | None => (Raise FileNotFoundError, w)
    end.

(** [shutil.copy2(src, dst)] *)
Definition shutil_copy2 (outcome : write_outcome) (src dst : string) : M world unit :=
  fun w =>
    match disk w !! src with
    | Some c => write_file outcome dst c w
    | None => (Raise FileNotFoundError, w)
    end.

(** [json.dumps(data)]: the text that parses back to [data]. *)
Definition json_dumps (fails : bool) (data : A) : M world (file A) :=
  if fails then raise TypeError else ret (Parsed data).

(** [json.loads(text)] *)
Definition json_loads (fails : bool) (text : file A) : M world A :=
  if fails then raise ValueError
  else match text with
       | Parsed a => ret a
       | NotJson _ => raise JSONDecodeError
       end.

(** [m] leaves alone every path outside [S]. *)
Definition confined (S : string -> Prop) {B : Type} (m : M world B) : Prop :=
  forall w p, ~ S p -> disk (snd (m w)) !! p = disk w !! p.

End FileSystem.
Arguments world A : clear implicits.

End Store.

Notation "'let!' x ':=' m 'in' k" := (Store.bind m (fun x => k))
  (at level 10, x name, m at level 100, k at level 200).
Notation "'run!' m 'in' k" := (Store.bind m (fun _ => k))
  (at level 10, m at level 100, k at level 200).

(* ===================================================================== *)
(** * [src/agents/reflector.py]: the write path *)
(* ===================================================================== *)

Module Reflector.
Import Store EmbeddingManager.

(** The values of [Config.learning] that the write path reads.  The class
    [Config] lives in [src/core/config.py]; its values are inputs here. *)
Record LearningConfig := {
  PRIMARY_OLLAMA_MODEL : string;
  GUIDELINES_PATH : string;
  EMBEDDING_SIMILARITY_THRESHOLD : Q;
  REFLECTION_MIN_QUERY_LEN : nat;
  REFLECTION_MIN_RESPONSE_LEN : nat;
  REFLECTION_MIN_CONFIDENCE : Q;
}.

(** [app_state]: [getattr(app_state, "embedding_manager", None)]. *)
Record AppState := {
  embedding_manager : option EmbeddingManager;
}.

(** The validated answer of the completion service. *)
Record GeneratedRule := {
  rule : string;
  query_type : string;
  language_hint : string;
  source_summary : string;
  confidence_in_rule : Q;
}.

(** A feedback event, after the [.get(...)] defaults of [_process]. *)
Record Feedback := {
  query : string;
  response : string;
  feedback_type : string;
}.

(** ** Deduplication *)

Definition STOPWORDS : gset string :=
  list_to_set
    ["a"; "an"; "the"; "is"; "are"; "was"; "were"; "be"; "been"; "being";
     "have"; "has"; "had"; "do"; "does"; "did"; "will"; "would"; "could";
     "should"; "may"; "might"; "must"; "can"; "to"; "of"; "in"; "for";
     "on"; "with"; "at"; "by"; "from"; "as"; "it"; "its"; "that"; "this";
     "and"; "or"; "but"; "not"; "no"; "so"; "if"; "when"; "then"; "than"].

(** [set(text.lower().split()) - STOPWORDS] *)
Definition tokens (text : string) : gset string :=
  list_to_set (Py.split (Py.lower text)) ∖ STOPWORDS.

(** [len(intersection) / len(union) if union else 0] *)
Definition overlap (new_tokens existing_tokens : gset string) : Q :=
  let intersection := new_tokens ∩ existing_tokens in
  let union := new_tokens ∪ existing_tokens in
  if decide (union = ∅) then 0%Q
  else inject_Z (Z.of_nat (size intersection)) / inject_Z (Z.of_nat (size union)).

(** One turn of the loop of [_keyword_dedup]: does it reach [return]? *)
Definition keyword_match (new_tokens : gset string) (r : Rule) : bool :=
  let existing_tokens := tokens (get (r_rule r) "") in
  if decide (new_tokens = ∅) then false
  else if decide (existing_tokens = ∅) then false
  else Qle_bool 0.55 (overlap new_tokens existing_tokens).

Fixpoint keyword_scan (new_tokens : gset string) (active_rules : list Rule) : option string :=
  match active_rules with
  | [] => None
  | r :: rest =>
      if keyword_match new_tokens r then Some (r_id r)
      else keyword_scan new_tokens rest
  end.

Definition _keyword_dedup (new_text : string) (active_rules : list Rule) : option string :=
  keyword_scan (tokens new_text) active_rules.

(** One turn of the embedding loop of [_find_duplicate]. *)
Definition embedding_match (em : EmbeddingManager) (threshold : Q)
    (new_embedding : embedding) (r : Rule) : bool :=
  let stored_emb := get (r_embedding r) [] in
  if (length stored_emb =? 384)%nat
  then Qle_bool threshold (cosine_similarity em new_embedding stored_emb)
  else false.

Fixpoint embedding_scan (em : EmbeddingManager) (threshold : Q)
    (new_embedding : embedding) (active_rules : list Rule) : option string :=
  match active_rules with
  | [] => None
  | r :: rest =>
      if embedding_match em threshold new_embedding r then Some (r_id r)
      else embedding_scan em threshold new_embedding rest
  end.

Definition _find_duplicate (cfg : LearningConfig) (app_state : AppState)
    (new_rule_text : string) (existing_rules : list Rule) : option string :=
  let active_rules := List.filter is_active existing_rules in
  match active_rules with
  | [] => None
  | _ :: _ =>
      let fallback := _keyword_dedup new_rule_text active_rules in
      match embedding_manager app_state with
      | Some em =>
          if is_ready em then
            match encode em new_rule_text with
            | Some new_embedding =>
                embedding_scan em (EMBEDDING_SIMILARITY_THRESHOLD cfg)
                  new_embedding active_rules
            | None => fallback
            end
          else fallback
      | None => fallback
      end
  end.

(** The candidate's embedding, when the service is there, ready, and
    answers: the condition under which [_find_duplicate] stays on the
    embedding path. *)
Definition encoded (app_state : AppState) (text : string)
    : option (EmbeddingManager * embedding) :=
  match embedding_manager app_state with
  | Some em =>
      if is_ready em then
        match encode em text with
        | Some e => Some (em, e)
        | None => None
        end
      else None
  | None => None
  end.

(** Rule [r] counts as a duplicate on the embedding path: it has a stored
    embedding of 384 coordinates whose similarity to the candidate's
    embedding reaches the threshold. *)
Definition embedding_duplicate (em : EmbeddingManager) (threshold : Q)
    (e : embedding) (r : Rule) : Prop :=
  exists stored,
    r_embedding r = Some stored /\ length stored = 384%nat
    /\ (threshold <= cosine_similarity em e stored)%Q.

(** Rule [r] counts as a duplicate on the lexical path: both token sets
    are non-empty and their Jaccard overlap is at least 0.55 = 11/20. *)
Definition lexical_duplicate (text : string) (r : Rule) : Prop :=
  tokens text <> ∅ /\ tokens (get (r_rule r) "") <> ∅
  /\ (11 * size (tokens text ∪ tokens (get (r_rule r) ""))
      <= 20 * size (tokens text ∩ tokens (get (r_rule r) "")))%nat.

(** [id] is the id of the first rule of [l] that satisfies [P]. *)
Definition first_such (P : Rule -> Prop) (l : list Rule) (id : string) : Prop :=
  exists pre r post,
    l = (pre ++ r :: post)%list /\ P r /\ Forall (fun x => ~ P x) pre /\ r_id r = id.

(** ** Reinforcement and creation *)

Definition reinforce (now : Z) (r : Rule) : Rule :=
  let old_conf := get (r_confidence r) 0.5%Q in
  {| r_id := r_id r; r_user_id := r_user_id r; r_rule := r_rule r;
     r_embedding := r_embedding r;
     r_confidence := Some (round3 (py_min 1 (old_conf + 0.08)));
     r_trigger_count := Some (get (r_trigger_count r) 1 + 1)%Z;
     r_query_types := r_query_types r;
     r_language_hint := r_language_hint r; r_created_at := r_created_at r;
     r_last_triggered := Some (Instant now); r_status := r_status r;
     r_source_summary := r_source_summary r;
     r_model_generated_by := r_model_generated_by r |}.

(** The loop stops ([break]) at the first record that carries the id. *)
Fixpoint _reinforce_rule (now : Z) (rules : list Rule) (rule_id : string) : list Rule :=
  match rules with
  | [] => []
  | r :: rest =>
      if String.eqb (r_id r) rule_id then reinforce now r :: rest
      else r :: _reinforce_rule now rest rule_id
  end.

Definition _create_rule_entry (cfg : LearningConfig) (app_state : AppState)
    (uuid4 : string) (now : Z) (generated : GeneratedRule) : Rule :=
  let embedding :=
    match embedding_manager app_state with
    | Some em =>
        if is_ready em then
          match encode em (rule generated) with
          | Some result => result
          | None => []
          end
        else []
    | None => []
    end in
  {| r_id := uuid4;
     r_user_id := Some "default";
     r_rule := Some (rule generated);
     r_embedding := Some embedding;
     r_confidence := Some (round3 (confidence_in_rule generated * 0.6));
     r_trigger_count := Some 1%Z;
     r_query_types := Some [query_type generated];
     r_language_hint := Some (language_hint generated);
     r_created_at := Some (Instant now);
     r_last_triggered := Some (Instant now);
     r_status := Some "active";
     r_source_summary := Some (source_summary generated);
     r_model_generated_by := Some (PRIMARY_OLLAMA_MODEL cfg) |}.

(** Step 5 and the branch after it in [_process]: [if duplicate_id:] takes
    the creation branch for [None] and for the empty string. *)
Definition merge_or_create (cfg : LearningConfig) (app_state : AppState)
    (uuid4 : string) (now : Z) (generated : GeneratedRule)
    (rules : list Rule) : list Rule :=
  match _find_duplicate cfg app_state (rule generated) rules with
  | Some (String c s) => _reinforce_rule now rules (String c s)
  | Some EmptyString | None =>
      rules ++ [_create_rule_entry cfg app_state uuid4 now generated]
  end.

(** ** Lifecycle *)

Definition thirty_days : Z := (30 * 24 * 3600 * 1000000)%Z.

(** The test of the retirement loop; a stamp that does not parse raises
    [ValueError], which the loop passes over. *)
Definition stale (now : Z) (r : Rule) : bool :=
  let last_triggered_str :=
    get (r_last_triggered r) (get (r_created_at r) (Malformed "")) in
  match last_triggered_str with
  | Instant last_triggered =>
      (last_triggered <? now - thirty_days)%Z
      && (get (r_trigger_count r) 1 <? 3)%Z
  | Malformed _ => false
  end.

Definition retirement_check (now : Z) (r : Rule) : Rule :=
  if is_active r then (if stale now r then retire r else r) else r.

Definition cap (cfg : LearningConfig) : nat :=
  if String.eqb (detect_model_size (PRIMARY_OLLAMA_MODEL cfg)) "4B" then 30 else 50.

(** [active_rules = [r for r in rules if ...]] holds the very dictionaries
    of [rules]; they are named here by their positions in [rules]. *)
Fixpoint active_positions (i : nat) (rules : list Rule) : list nat :=
  match rules with
  | [] => []
  | r :: rest =>
      if is_active r then i :: active_positions (S i) rest
      else active_positions (S i) rest
  end.

(** [r.get("confidence", 0)] for the record at position [i]. *)
Definition confidence_at (rules : list Rule) (i : nat) : Q :=
  match rules !! i with
  | Some r => get (r_confidence r) 0%Q
  | None => 0%Q
  end.

Definition retire_positions (positions : list nat) (rules : list Rule) : list Rule :=
  foldl (fun rs i => alter retire i rs) rules positions.

Definition enforce_cap (cap : nat) (rules : list Rule) : list Rule :=
  let active_rules := active_positions 0 rules in
  if (cap <? length active_rules)%nat then
    let sorted :=
      stable_sort
        (fun i j => Qle_bool (confidence_at rules i) (confidence_at rules j))
        active_rules in
    let to_retire := (length active_rules - cap)%nat in
    retire_positions (take to_retire sorted) rules
  else rules.

(** The positions that the cap retires: the first [n - cap] of the active
    ones in the order of their confidence. *)
Definition capped (cap : nat) (rules : list Rule) : list nat :=
  take (length (active_positions 0 rules) - cap)
    (stable_sort
       (fun i j => Qle_bool (confidence_at rules i) (confidence_at rules j))
       (active_positions 0 rules)).

Definition _run_lifecycle (cfg : LearningConfig) (now : Z) (rules : list Rule) : list Rule :=
  enforce_cap (cap cfg) (map (retirement_check now) rules).

(** [len([r for r in rules if r.get("status") == "active"])] *)
Definition active_count (rules : list Rule) : nat :=
  length (List.filter is_active rules).

(** What the audit trail asks of a step from [before] to [after]: every
    record is still at its place with its id, a retired record is still
    retired, and a record that was not active has not become active. *)
Definition preserved (before after : list Rule) : Prop :=
  forall i r,
    before !! i = Some r ->
    exists r',
      after !! i = Some r' /\ r_id r' = r_id r
      /\ (is_retired r = true -> is_retired r' = true)
      /\ (is_active r = false -> is_active r' = false).

(** ** Persistence *)

(** Which calls of [_atomic_write] fail, and how. *)
Record io_faults := {
  dumps_raises : bool;
  loads_raises : bool;
  temp_write : write_outcome;
  replace_raises : bool;
  remove_raises : bool;
}.

(** What the surroundings hand to one run of [_process]: the fresh id, the
    readings of the clock and the behaviour of the disk. *)
Record Env := {
  uuid4 : string;
  now_merge : Z;
  now_lifecycle : Z;
  now_write : Z;
  io : io_faults;
}.

Definition temp_path_of (path : string) : string := path +:+ ".temp".

(** The [try] block of [_atomic_write]. *)
Definition write_and_rename (cfg : LearningConfig) (env : Env)
    (original_data : Document) (updated_rules : list Rule) : M (world Document) bool :=
  let path := GUIDELINES_PATH cfg in
  let temp_path := temp_path_of path in
  let updated_data :=
    {| d_schema_version := Some "2.0";
       d_last_updated := Some (Instant (now_write env));
       d_rules := Some updated_rules;
       d_other := d_other original_data |} in
  let! json_str := json_dumps (dumps_raises (io env)) updated_data in
  let! test_parse := json_loads (loads_raises (io env)) json_str in
  run! (match d_rules test_parse with
        | None => raise ValueError
        | Some _ => ret tt
        end) in
  run! write_file (temp_write (io env)) temp_path json_str in
  run! os_replace (replace_raises (io env)) temp_path path in
  ret true.

(** Its [except Exception] clause. *)
Definition clean_up (env : Env) (temp_path : string) : M (world Document) bool :=
  run! try_pass
         (let! there := os_path_exists temp_path in
          if there then os_remove (remove_raises (io env)) temp_path
          else ret tt) in
  ret false.

Definition _atomic_write (cfg : LearningConfig) (env : Env)
    (original_data : Document) (updated_rules : list Rule) : M (world Document) bool :=
  try_except (write_and_rename cfg env original_data updated_rules)
    (fun _ => clean_up env (temp_path_of (GUIDELINES_PATH cfg))).

(** The failures that come before the rename: in the serialization, in the
    round trip, or in the writing of the temporary file. *)
Definition failed_before_rename (f : io_faults) : Prop :=
  dumps_raises f = true \/ loads_raises f = true \/ temp_write f <> Written.

Definition empty_v2 : Document :=
  {| d_schema_version := Some "2.0"; d_last_updated := None;
     d_rules := Some []; d_other := [] |}.

Definition _read_guidelines_raw (cfg : LearningConfig) : M (world Document) Document :=
  try_except (read_json (GUIDELINES_PATH cfg)) (fun _ => ret empty_v2).

(** ** The pipeline *)

Definition negative_signals : list string :=
  ["thumbs_down"; "negative"; "dislike"; "bad"; "0"; "false"].

(** Steps 5 to 7 on the rules in memory. *)
Definition update_rules (cfg : LearningConfig) (app_state : AppState) (env : Env)
    (generated : GeneratedRule) (rules : list Rule) : list Rule :=
  _run_lifecycle cfg (now_lifecycle env)
    (merge_or_create cfg app_state (uuid4 env) (now_merge env) generated rules).

(** [_process]; [generated_rule] is what [_generate_rule] came back with.
    The answer says whether [force_reload] was called. *)
Definition _process (cfg : LearningConfig) (app_state : AppState) (env : Env)
    (feedback_data : Feedback) (generated_rule : option GeneratedRule)
    : M (world Document) bool :=
  let query := Py.strip (query feedback_data) in
  let response := Py.strip (response feedback_data) in
  let feedback_type := Py.lower (feedback_type feedback_data) in
  if (String.length query <? REFLECTION_MIN_QUERY_LEN cfg)%nat then ret false
  else if (String.length response <? REFLECTION_MIN_RESPONSE_LEN cfg)%nat then ret false
  else if negb (existsb (String.eqb feedback_type) negative_signals) then ret false
  else
    match generated_rule with
    | None => ret false
    | Some generated =>
        let words := Py.split (rule generated) in
        if negb (Qle_bool (REFLECTION_MIN_CONFIDENCE cfg) (confidence_in_rule generated))
        then ret false
        else if negb ((15 <=? length words)%nat && (length words <=? 150)%nat)
        then ret false
        else if (length (Py.split (source_summary generated)) <? 5)%nat
        then ret false
        else
          let! current_data := _read_guidelines_raw cfg in
          let rules := get (d_rules current_data) [] in
          let rules := update_rules cfg app_state env generated rules in
          _atomic_write cfg env current_data rules
    end.

(** The conditions under which [_process] goes past its quality gate, and
    past its validation of the generated rule. *)
Definition passes_gate (cfg : LearningConfig) (feedback_data : Feedback) : Prop :=
  (REFLECTION_MIN_QUERY_LEN cfg <= String.length (Py.strip (query feedback_data)))%nat
  /\ (REFLECTION_MIN_RESPONSE_LEN cfg
      <= String.length (Py.strip (response feedback_data)))%nat
  /\ In (Py.lower (feedback_type feedback_data)) negative_signals.

Definition passes_validation (cfg : LearningConfig) (generated : GeneratedRule) : Prop :=
  (REFLECTION_MIN_CONFIDENCE cfg <= confidence_in_rule generated)%Q
  /\ (15 <= length (Py.split (rule generated)) <= 150)%nat
  /\ (5 <= length (Py.split (source_summary generated)))%nat.

(** The document that [_atomic_write] builds. *)
Definition updated_data (env : Env) (original_data : Document)
    (updated_rules : list Rule) : Document :=
  {| d_schema_version := Some "2.0";
     d_last_updated := Some (Instant (now_write env));
     d_rules := Some updated_rules;
     d_other := d_other original_data |}.

(** The stored confidence of a record, when it has one, is a weight
    between 0 and 1. *)
Definition confidence_in_range (r : Rule) : Prop :=
  match r_confidence r with
  | Some c => (0 <= c <= 1)%Q
  | None => True
  end.

(** The two paths of the write path. *)
Definition store_paths (cfg : LearningConfig) (p : string) : Prop :=
  p = GUIDELINES_PATH cfg \/ p = temp_path_of (GUIDELINES_PATH cfg).

(** No call of [_atomic_write] fails (the removal is never reached). *)
Definition commits (f : io_faults) : Prop :=
  dumps_raises f = false /\ loads_raises f = false
  /\ temp_write f = Written /\ replace_raises f = false.

(** ** The schema of the generated rule and the reading of the answer *)


Definition valid_query_types : list string :=
  ["factual"; "reasoning"; "multilingual"; "technical"; "creative"; "general"].

(** [GeneratedRule.validate_query_type] *)
Definition validate_query_type (v : string) : string :=
  if existsb (String.eqb (Py.lower v)) valid_query_types then Py.lower v
  else "general".

(** [re.search(r"\{[\s\S]*\}", raw_text)]: the match starts at the first
    opening brace and, the star being greedy, ends at the last closing
    brace of the text. *)
Fixpoint from_first_open (s : string) : option string :=
  match s with
  | EmptyString => None
  | String c s' => if Ascii.eqb c "{" then Some s else from_first_open s'
  end.

Fixpoint upto_last_close (s : string) : option string :=
  match s with
  | EmptyString => None
  | String c s' =>
      match upto_last_close s' with
      | Some p => Some (String c p)
      | None => if Ascii.eqb c "}" then Some (String c EmptyString) else None
      end
  end.

Definition json_match (raw_text : string) : option string :=
  match from_first_open raw_text with
  | Some s => upto_last_close s
  | None => None
  end.

(** The text handed to [json.loads]: the match if there is one, else the
    whole text. *)
Definition json_text (raw_text : string) : string :=
  match json_match raw_text with
  | Some m => m
  | None => raw_text
  end.

End Reflector.

(* ===================================================================== *)
(** * [src/core/guidelines_manager.py]: the read cache *)
(* ===================================================================== *)

Module GuidelinesManager.
Import Store EmbeddingManager.

(** The attributes of a [GuidelinesManager] (the two locks apart). *)
Record GuidelinesManager := {
  _path : string;
  _model_size : string;
  _cache_ttl : Q;
  _rules : list Rule;
  _active_rules : list Rule;
  _last_mtime : Q;
  _last_check_time : Q;
  _loaded : bool;
}.

(** The disk as the manager finds it at one call: for each path that
    exists, its modification time and what it holds.  Other processes
    write to it between calls. *)
Abbreviation snapshot := (gmap string (Q * file Document)).

(** [os.path.getmtime(path)] *)
Definition os_path_getmtime (disk : snapshot) (path : string) : M GuidelinesManager Q :=
  match disk !! path with
  | Some (mtime, _) => ret mtime
  | None => raise FileNotFoundError
  end.

(** [self._rules = []; self._active_rules = []] *)
Definition clear (self : GuidelinesManager) : GuidelinesManager :=
  {| _path := _path self; _model_size := _model_size self;
     _cache_ttl := _cache_ttl self; _rules := []; _active_rules := [];
     _last_mtime := _last_mtime self;
     _last_check_time := _last_check_time self; _loaded := _loaded self |}.

Definition set_loaded (self : GuidelinesManager) : GuidelinesManager :=
  {| _path := _path self; _model_size := _model_size self;
     _cache_ttl := _cache_ttl self; _rules := _rules self;
     _active_rules := _active_rules self; _last_mtime := _last_mtime self;
     _last_check_time := _last_check_time self; _loaded := true |}.

Definition set_last_check_time (now : Q) (self : GuidelinesManager) : GuidelinesManager :=
  {| _path := _path self; _model_size := _model_size self;
     _cache_ttl := _cache_ttl self; _rules := _rules self;
     _active_rules := _active_rules self; _last_mtime := _last_mtime self;
     _last_check_time := now; _loaded := _loaded self |}.

(** The four assignments that end a successful load. *)
Definition install (data : Document) (mtime : Q) (self : GuidelinesManager) : GuidelinesManager :=
  let rules := get (d_rules data) [] in
  {| _path := _path self; _model_size := _model_size self;
     _cache_ttl := _cache_ttl self; _rules := rules;
     _active_rules := List.filter is_active rules; _last_mtime := mtime;
     _last_check_time := _last_check_time self; _loaded := true |}.

(** The [try] block of [_load]. *)
Definition load_body (disk : snapshot) : M GuidelinesManager unit :=
  fun self =>
    match disk !! _path self with
    | None => (Ok tt, set_loaded (clear self))
    | Some (mtime, NotJson _) => (Raise JSONDecodeError, self)
    | Some (mtime, Parsed data) => (Ok tt, install data mtime self)
    end.

(** [_load]: both [except] clauses keep the cache of a manager that has
    loaded before and empty the one of a manager that has not. *)
Definition _load (disk : snapshot) : M GuidelinesManager unit :=
  try_except (load_body disk)
    (fun _ self => (Ok tt, if _loaded self then self else clear self)).

Definition __init__ (guidelines_path model_name : string) (cache_ttl_seconds : Q)
    (disk : snapshot) : GuidelinesManager :=
  let self :=
    {| _path := guidelines_path;
       _model_size := detect_model_size model_name;
       _cache_ttl := cache_ttl_seconds;
       _rules := []; _active_rules := [];
       _last_mtime := 0; _last_check_time := 0; _loaded := false |} in
  snd (_load disk self).

(** The inner function [score] of [get_relevant_rules]. *)
Definition score (query_type : string) (r : Rule) : Q :=
  let conf := get (r_confidence r) 0.5%Q in
  let qtypes := get (r_query_types r) ["general"] in
  if existsb (String.eqb query_type) qtypes then conf * 1.0
  else if existsb (String.eqb "general") qtypes then conf * 0.6
  else conf * 0.3.

Definition max_rules (model_size : string) : nat :=
  if String.eqb model_size "4B" then 5 else 7.

(** [len(rule.get("rule", "")) / 4.0] *)
Definition rule_tokens (r : Rule) : Q :=
  inject_Z (Z.of_nat (String.length (get (r_rule r) ""))) / 4.0.

(** The budget loop: accept, or [break] at the first rule that does not
    fit. *)
Fixpoint enforce_budget (token_budget : Z) (token_count : Q) (scored : list Rule) : list Rule :=
  match scored with
  | [] => []
  | r :: rest =>
      if Qle_bool (token_count + rule_tokens r) (inject_Z token_budget)
      then r :: enforce_budget token_budget (token_count + rule_tokens r) rest
      else []
  end.

(** [sorted(self._active_rules, key=score, reverse=True)] *)
Definition rank (query_type : string) (active_rules : list Rule) : list Rule :=
  stable_sort (fun x y => Qle_bool (score query_type y) (score query_type x)) active_rules.

(** What [get_relevant_rules] does once the cache is settled. *)
Definition select_rules (model_size query_type : string) (token_budget : Z)
    (active_rules : list Rule) : list Rule :=
  match active_rules with
  | [] => []
  | _ :: _ =>
      let scored := rank query_type active_rules in
      let scored := take (max_rules model_size) scored in
      enforce_budget token_budget 0 scored
  end.

(** [try: m  except FileNotFoundError: pass] *)
Definition except_file_not_found {W : Type} (m : M W unit) : M W unit :=
  try_except m
    (fun e => match e with FileNotFoundError => ret tt | _ => raise e end).

(** The cache check under the lock. *)
Definition refresh (disk : snapshot) (now : Q) : M GuidelinesManager unit :=
  fun self =>
    if Qle_bool (_cache_ttl self) (now - _last_check_time self) then
      (run! except_file_not_found
              (let! current_mtime := os_path_getmtime disk (_path self) in
               if negb (Qeq_bool current_mtime (_last_mtime self))
               then _load disk
               else ret tt) in
       fun self' => (Ok tt, set_last_check_time now self')) self
    else (Ok tt, self).

Definition get_relevant_rules (disk : snapshot) (now : Q)
    (query_type : string) (token_budget : Z) : M GuidelinesManager (list Rule) :=
  run! refresh disk now in
  fun self =>
    (Ok (select_rules (_model_size self) query_type token_budget (_active_rules self)),
     self).



Definition force_reload (disk : snapshot) (now : Q) : M GuidelinesManager unit :=
  run! _load disk in
  fun self => (Ok tt, set_last_check_time now self).

(** [get_stats] *)
Record Stats := {
  active_rules : nat;
  retired_rules : nat;
  pending_review : nat;
  total_rules : nat;
  model_size : string;
  guidelines_path : string;
  schema_version : string;
}.

Definition has_status (status : string) (r : Rule) : bool :=
  match r_status r with
  | Some s => String.eqb s status
  | None => false
  end.

Definition get_stats (self : GuidelinesManager) : Stats :=
  {| active_rules := length (List.filter (has_status "active") (_rules self));
     retired_rules := length (List.filter (has_status "retired") (_rules self));
     pending_review := length (List.filter (has_status "pending_review") (_rules self));
     total_rules := length (_rules self);
     model_size := _model_size self;
     guidelines_path := _path self;
     schema_version := "2.0" |}.

(** The cache is coherent when its active rules are the active ones of
    its rules, in their order. *)
Definition coherent (self : GuidelinesManager) : Prop :=
  _active_rules self = List.filter is_active (_rules self).

(** The disk as the manager would find it right after the writer has left
    the world [w], every file carrying the modification time [mtime]. *)
Definition snapshot_of (mtime : Q) (w : world Document) : gmap string (Q * file Document) :=
  (fun f => (mtime, f)) <$> disk w.

End GuidelinesManager.

(* ===================================================================== *)
(** * [src/core/guidelines_manager.py]: the schema migrator *)
(* ===================================================================== *)

Module Migration.
Import Store EmbeddingManager.

(** What [json.load] returns.  A legacy store has any shape, so the
    migrator is modelled on untyped values. *)
Inductive json :=
| JNull
| JBool (b : bool)
| JNum (q : Q)
| JStr (s : string)
| JList (l : list json)
| JDict (kv : list (string * json)).

(** [bool(v)] *)
Definition truthy (v : json) : bool :=
  match v with
  | JNull => false
  | JBool b => b
  | JNum q => negb (Qeq_bool q 0)
  | JStr s => negb (String.eqb s "")
  | JList l => match l with [] => false | _ => true end
  | JDict kv => match kv with [] => false | _ => true end
  end.

Fixpoint lookup_key (kv : list (string * json)) (key : string) : option json :=
  match kv with
  | [] => None
  | (k, v) :: rest => if String.eqb k key then Some v else lookup_key rest key
  end.

(** [d.get(key, default)]; only a dictionary has [get]. *)
Definition py_get (d : json) (key : string) (default : json) : result json :=
  match d with
  | JDict kv => Ok (get (lookup_key kv key) default)
  | _ => Raise AttributeError
  end.

(** [v == "2.0"] *)
Definition is_v2 (v : json) : bool :=
  match v with
  | JStr s => String.eqb s "2.0"
  | _ => false
  end.

(** The values a [for] loop draws from [v]. *)
Fixpoint chars (s : string) : list json :=
  match s with
  | EmptyString => []
  | String c s' => JStr (String c EmptyString) :: chars s'
  end.

Definition py_iter (v : json) : result (list json) :=
  match v with
  | JList l => Ok l
  | JStr s => Ok (chars s)
  | JDict kv => Ok (map (fun p => JStr (fst p)) kv)
  | _ => Raise TypeError
  end.

(** Which calls of the migrator fail, and the values it draws from the
    clock and from [uuid.uuid4]; [n] counts the legacy entries. *)
Record Env := {
  uuid4 : nat -> string;
  utcnow : nat -> string;
  now_created : string;
  now_migrated : string;
  now_fallback : string;
  local_ts : string;
  create_write : write_outcome;
  backup_copy : write_outcome;
  temp_write : write_outcome;
  replace_raises : bool;
  restore_copy : write_outcome;
  remove_raises : bool;
  fallback_write : write_outcome;
}.

Definition empty_v2 (last_updated : string) : json :=
  JDict [("schema_version", JStr "2.0");
         ("last_updated", JStr last_updated);
         ("rules", JList [])].

(** [(raw.get("rule") or raw.get("guideline") or "").strip()] *)
Definition dict_rule_text (kv : list (string * json)) : result string :=
  let a := get (lookup_key kv "rule") JNull in
  let b := get (lookup_key kv "guideline") JNull in
  let v := if truthy a then a else if truthy b then b else JStr "" in
  match v with
  | JStr s => Ok (Py.strip s)
  | _ => Raise AttributeError
  end.

(** [raw.get(key, default) if isinstance(raw, dict) else default] *)
Definition field (raw : json) (key : string) (default : json) : json :=
  match raw with
  | JDict kv => get (lookup_key kv key) default
  | _ => default
  end.

Definition embed (embedding_manager : option EmbeddingManager) (rule_text : string) : json :=
  match embedding_manager with
  | Some em =>
      if is_ready em then
        match encode em rule_text with
        | Some result => JList (map JNum result)
        | None => JList []
        end
      else JList []
  | None => JList []
  end.

(** One turn of the migration loop; [None] stands for [continue]. *)
Definition migrate_one (embedding_manager : option EmbeddingManager) (env : Env)
    (n : nat) (raw : json) : result (option json) :=
  let rule_id := uuid4 env n in
  let now_iso := JStr (utcnow env n) in
  let text :=
    match raw with
    | JStr s => Ok (Some (Py.strip s))
    | JDict kv =>
        match dict_rule_text kv with
        | Ok s => Ok (Some s)
        | Raise e => Raise e
        end
    | _ => Ok None
    end in
  match text with
  | Raise e => Raise e
  | Ok None => Ok None
  | Ok (Some EmptyString) => Ok None
  | Ok (Some rule_text) =>
      Ok (Some (JDict
        [("id", JStr rule_id);
         ("user_id", JStr "default");
         ("rule", JStr rule_text);
         ("embedding", embed embedding_manager rule_text);
         ("confidence", field raw "confidence" (JNum 0.5));
         ("trigger_count", field raw "trigger_count" (JNum 1));
         ("query_types", field raw "query_types" (JList [JStr "general"]));
         ("language_hint", field raw "language_hint" (JStr "auto"));
         ("created_at", field raw "created_at" now_iso);
         ("last_triggered", field raw "last_triggered" now_iso);
         ("status", field raw "status" (JStr "active"));
         ("source_summary",
          field raw "source_summary" (JStr "Migrated from previous version"));
         ("model_generated_by", field raw "model_generated_by" (JStr "unknown"))]))
  end.

Fixpoint migrate_rules (embedding_manager : option EmbeddingManager) (env : Env)
    (n : nat) (old_rules_raw : list json) : result (list json) :=
  match old_rules_raw with
  | [] => Ok []
  | raw :: rest =>
      match migrate_one embedding_manager env n raw with
      | Raise e => Raise e
      | Ok migrated =>
          match migrate_rules embedding_manager env (S n) rest with
          | Raise e => Raise e
          | Ok migrated_rules =>
              Ok (match migrated with
                  | Some r => r :: migrated_rules
                  | None => migrated_rules
                  end)
          end
      end
  end.

(** The assertions on the temporary file. *)
Definition mandatory_keys : list string :=
  ["id"; "user_id"; "rule"; "confidence"; "status"].

Definition has_keys (r : json) : bool :=
  match r with
  | JDict kv => forallb (fun key => bool_decide (is_Some (lookup_key kv key))) mandatory_keys
  | _ => false
  end.

Definition validate (test : json) : result unit :=
  match py_get test "schema_version" JNull with
  | Raise e => Raise e
  | Ok v =>
      if negb (is_v2 v) then Raise AssertionError
      else
        match py_get test "rules" JNull with
        | Ok (JList rules) =>
            if forallb has_keys rules then Ok tt else Raise AssertionError
        | Ok _ => Raise AssertionError
        | Raise e => Raise e
        end
  end.

(** How the first two steps end: with [return], or with [existing]. *)
Inductive flow :=
| Return
| Existing (existing : json).

(** [try: m  except json.JSONDecodeError: handler] *)
Definition except_json_decode_error {W A : Type} (m : M W A) (handler : M W A) : M W A :=
  try_except m
    (fun e => match e with JSONDecodeError => handler | _ => raise e end).

(** Steps 1 and 2. *)
Definition check_and_read (env : Env) (path : string) : M (world json) flow :=
  let! there := os_path_exists path in
  let! existing :=
    (if there then
       except_json_decode_error
         (let! existing := read_json path in
          let! version := lift (py_get existing "schema_version" JNull) in
          if is_v2 version then ret (Some Return) else ret (Some (Existing existing)))
         (ret None)
     else ret None) in
  match existing with
  | Some f => ret f
  | None =>
      let! there := os_path_exists path in
      if negb there then
        run! write_file (create_write env) path (Parsed (empty_v2 (now_created env))) in
        ret Return
      else ret (Existing (JDict [("guidelines", JList [])]))
  end.

(** Steps 3 to 7. *)
Definition migrate (embedding_manager : option EmbeddingManager) (env : Env)
    (path temp_path backup_path : string) (existing : json) : M (world json) unit :=
  run! try_pass (shutil_copy2 (backup_copy env) path backup_path) in
  let! rules_default := lift (py_get existing "rules" (JList [])) in
  let! old_rules_raw := lift (py_get existing "guidelines" rules_default) in
  let! entries := lift (py_iter old_rules_raw) in
  let! migrated_rules := lift (migrate_rules embedding_manager env 0 entries) in
  let new_data :=
    JDict [("schema_version", JStr "2.0");
           ("last_updated", JStr (now_migrated env));
           ("rules", JList migrated_rules)] in
  let! json_str := json_dumps false new_data in
  run! write_file (temp_write env) temp_path json_str in
  let! test := read_json temp_path in
  run! lift (validate test) in
  os_replace (replace_raises env) temp_path path.

(** The [except Exception] clause.  [backup_path] is [Some] when the
    variable had been bound by the time the exception was raised
    (["backup_path" in dir()]). *)
Definition on_failure (env : Env) (guidelines_path : string)
    (backup_path : option string) : M (world json) unit :=
  run! try_pass
         (match backup_path with
          | Some backup_path =>
              let! there := os_path_exists backup_path in
              if there then shutil_copy2 (restore_copy env) backup_path guidelines_path
              else ret tt
          | None => ret tt
          end) in
  run! try_pass
         (let! there := os_path_exists (guidelines_path +:+ ".temp") in
          if there then os_remove (remove_raises env) (guidelines_path +:+ ".temp")
          else ret tt) in
  try_pass (write_file (fallback_write env) guidelines_path
              (Parsed (empty_v2 (now_fallback env)))).

Definition backup_path_of (path ts : string) : string :=
  path +:+ ".backup." +:+ ts +:+ ".json".

Definition run_schema_migration (guidelines_path : string)
    (embedding_manager : option EmbeddingManager) (env : Env) : M (world json) unit :=
  let path := guidelines_path in
  let temp_path := path +:+ ".temp" in
  let! f :=
    try_except (check_and_read env path)
      (fun _ => run! on_failure env guidelines_path None in ret Return) in
  match f with
  | Return => ret tt
  | Existing existing =>
      let backup_path := backup_path_of path (local_ts env) in
      try_except (migrate embedding_manager env path temp_path backup_path existing)
        (fun _ => on_failure env guidelines_path (Some backup_path))
  end.

(** The three paths of the migrator. *)
Definition migration_paths (path ts : string) (p : string) : Prop :=
  p = path \/ p = path +:+ ".temp" \/ p = backup_path_of path ts.

(** The document that a migration writes. *)
Definition new_data (env : Env) (migrated_rules : list json) : json :=
  JDict [("schema_version", JStr "2.0");
         ("last_updated", JStr (now_migrated env));
         ("rules", JList migrated_rules)].

(** The entries that the migration loop runs over, for a store that holds
    the dictionary [kv]. *)
Definition legacy_entries (kv : list (string * json)) : result (list json) :=
  py_iter (get (lookup_key kv "guidelines") (get (lookup_key kv "rules") (JList []))).

(** No call of the migration proper fails. *)
Definition migrates (env : Env) : Prop :=
  backup_copy env = Written /\ temp_write env = Written /\ replace_raises env = false.

(** The path holds a document that the migrator takes for version 2. *)
Definition holds_v2 (d : gmap string (file json)) (path : string) : Prop :=
  exists kv,
    d !! path = Some (Parsed (JDict kv))
    /\ is_v2 (get (lookup_key kv "schema_version") JNull) = true.

End Migration.

(* ===================================================================== *)
(** * Sample data *)
(* ===================================================================== *)

Module Samples.
Import Store EmbeddingManager Reflector.

Definition store_path : string := "data/system_guidelines.json".

(** Modelled from the spec: the similarity threshold of [Config.learning]
    (0.82); the other values are sample values. *)
Definition cfg_small : LearningConfig :=
  {| PRIMARY_OLLAMA_MODEL := "gemma3:4b";
     GUIDELINES_PATH := store_path;
     EMBEDDING_SIMILARITY_THRESHOLD := 0.82;
     REFLECTION_MIN_QUERY_LEN := 10;
     REFLECTION_MIN_RESPONSE_LEN := 10;
     REFLECTION_MIN_CONFIDENCE := 0.6 |}.

Definition day : Z := (24 * 3600 * 1000000)%Z.

Definition sample_rule (id text : string) (confidence : Q) (trigger_count last : Z) : Rule :=
  {| r_id := id; r_user_id := Some "default"; r_rule := Some text;
     r_embedding := Some []; r_confidence := Some confidence;
     r_trigger_count := Some trigger_count;
     r_query_types := Some ["general"]; r_language_hint := Some "auto";
     r_created_at := Some (Instant 0); r_last_triggered := Some (Instant last);
     r_status := Some "active"; r_source_summary := Some "sample";
     r_model_generated_by := Some "gemma3:4b" |}.

(** One record last triggered 31 days before [31 * day], then 32 records
    triggered at that time, with confidences 0.00, 0.01, ..., 0.31. *)
Definition old_rule : Rule := sample_rule "old" "Always cite the page." 0.9 2 0.

Definition fresh_rule (n : nat) : Rule :=
  sample_rule ("fresh-" +:+ String (ascii_of_nat (65 + n)) "")
    "Always answer in the language of the question."
    (Qmake (Z.of_nat n) 100) 1 (31 * day).

Definition crowded : list Rule := old_rule :: map fresh_rule (seq 0 32).

(** A disk on which the write of the temporary file breaks off and the
    file then cannot be removed. *)
Definition stubborn_disk : io_faults :=
  {| dumps_raises := false; loads_raises := false; temp_write := Torn "{";
     replace_raises := false; remove_raises := true |}.

Definition healthy_disk : io_faults :=
  {| dumps_raises := false; loads_raises := false; temp_write := Written;
     replace_raises := false; remove_raises := false |}.

(** A disk that is full: the temporary file is cut short, and removed. *)
Definition full_disk : io_faults :=
  {| dumps_raises := false; loads_raises := false; temp_write := Torn "{";
     replace_raises := false; remove_raises := false |}.

(** A stand-in for the sentence encoder: every text is sent to the same
    unit vector of 384 coordinates; the similarity is the dot product,
    clamped to [-1, 1]. *)
Definition unit_vector : embedding := 1%Q :: repeat 0%Q 383.

Definition dot (a b : embedding) : Q :=
  fold_right Qplus 0%Q (zip_with Qmult a b).

Definition clamped_dot (a b : embedding) : Q :=
  let d := dot a b in
  if Qle_bool d (-1) then (-1)%Q else if Qle_bool 1 d then 1%Q else d.

Definition constant_service : EmbeddingManager :=
  {| is_ready := true;
     encode := fun _ => Some unit_vector;
     cosine_similarity := clamped_dot |}.

Definition with_service : AppState := {| embedding_manager := Some constant_service |}.
Definition without_service : AppState := {| embedding_manager := None |}.

Definition language_rule_text : string :=
  "Always answer in the language of the question and never mix in English phrases unless the user does so first.".

(** An active rule without a stored embedding, as the migrator leaves it
    when the encoder is unavailable. *)
Definition unencoded_rule : Rule :=
  sample_rule "3b9f6c1a-0e2d-4d57-8a43-5c1e7f209b64" language_rule_text 0.5 1 (31 * day).

(** The same rule with a stored embedding. *)
Definition encoded_rule : Rule :=
  {| r_id := "e1a4d2c7-9b3f-4f0a-b6d8-2a7c5e4f1b30"; r_user_id := Some "default";
     r_rule := Some "Prefer short paragraphs."; r_embedding := Some unit_vector;
     r_confidence := Some 0.5%Q; r_trigger_count := Some 1%Z;
     r_query_types := Some ["general"]; r_language_hint := Some "auto";
     r_created_at := Some (Instant 0); r_last_triggered := Some (Instant (31 * day));
     r_status := Some "active"; r_source_summary := Some "sample";
     r_model_generated_by := Some "gemma3:4b" |}.

(** A generated rule of 20 words at confidence 0.9, and one at 0.8333. *)
Definition hindi_rule : GeneratedRule :=
  {| rule := "When the user asks in Hindi, ensure the entire response including technical terms is written in Hindi without English phrases.";
     query_type := "multilingual";
     language_hint := "hi";
     source_summary := "Response was in English when user asked in Hindi";
     confidence_in_rule := 0.9 |}.


Definition fresh_id : string := "7d0c2b1e-58a4-4c0b-9d55-0f3b6a1c9e21".

(** The record that the first feedback event creates. *)
Definition hindi_record : Rule :=
  _create_rule_entry cfg_small without_service fresh_id (31 * day) hindi_rule.

Definition hindi_feedback : Feedback :=
  {| query := "Translate to Hindi"; response := "Hello there";
     feedback_type := "thumbs_down" |}.

(** Three active rules of 160 characters each (40 tokens by the estimate),
    in a store that a small-tier manager has loaded. *)
Definition forty_chars : string := "Always answer in the user's own language".

Definition long_text (tag : string) : string :=
  tag +:+ forty_chars +:+ forty_chars +:+ forty_chars +:+ "Always answer in the user's own tong".

Definition first_long : Rule := sample_rule "long-1" (long_text "1st:") 0.9 1 0.
Definition second_long : Rule := sample_rule "long-2" (long_text "2nd:") 0.8 1 0.
Definition third_long : Rule := sample_rule "long-3" (long_text "3rd:") 0.7 1 0.

Definition long_store : Document :=
  {| d_schema_version := Some "2.0"; d_last_updated := Some (Instant 0);
     d_rules := Some [third_long; first_long; second_long]; d_other := [] |}.

(** The disk that holds [long_store], written at time 1, and the
    small-tier manager that was started on it. *)
Definition long_disk : gmap string (Q * file Document) :=
  {[ store_path := (1%Q, Parsed long_store) ]}.

Definition long_manager : GuidelinesManager.GuidelinesManager :=
  GuidelinesManager.__init__ store_path "gemma3:4b" 60 long_disk.

(** The same path holding bytes that are not JSON, written at time 2. *)
Definition corrupt_disk : gmap string (Q * file Document) :=
  {[ store_path := (2%Q, NotJson "{ rules: [") ]}.

Definition env_with (faults : io_faults) : Env :=
  {| uuid4 := fresh_id;
     now_merge := 31 * day; now_lifecycle := 31 * day; now_write := 31 * day;
     io := faults |}.

Definition one_rule_store : Document :=
  {| d_schema_version := Some "2.0"; d_last_updated := Some (Instant 0);
     d_rules := Some [old_rule]; d_other := [] |}.

Definition world_with (d : Document) : world Document :=
  {| disk := {[ store_path := Parsed d ]}; history := [] |}.

Definition empty_world : world Document := {| disk := ∅; history := [] |}.

(** A store that was cut short while some other program wrote it. *)
Definition corrupt_world : world Document :=
  {| disk := {[ store_path := NotJson "{ rules: [" ]}; history := [] |}.

(** The trigger counts and confidences of the rules in the store. *)
Definition stored (w : world Document) : list (Z * Q) :=
  match disk w !! store_path with
  | Some (Parsed d) =>
      map (fun r => (get (r_trigger_count r) 0%Z, get (r_confidence r) 0%Q))
        (get (d_rules d) [])
  | _ => []
  end.

(** A legacy store whose single entry has a number where the rule text
    should be, and surroundings in which every call of the migrator
    succeeds. *)
Definition legacy_store : Migration.json :=
  Migration.JDict
    [("rules", Migration.JList [Migration.JDict [("rule", Migration.JNum 42)]])].

Definition legacy_world : world Migration.json :=
  {| disk := {[ store_path := Parsed legacy_store ]}; history := [] |}.

Definition calm : Migration.Env :=
  {| Migration.uuid4 := fun n => "rule-" +:+ String (ascii_of_nat (48 + n)) "";
     Migration.utcnow := fun _ => "2026-01-05T10:00:00+00:00";
     Migration.now_created := "2026-01-05T10:00:00+00:00";
     Migration.now_migrated := "2026-01-05T10:00:01+00:00";
     Migration.now_fallback := "2026-01-05T10:00:02+00:00";
     Migration.local_ts := "20260105_100000";
     Migration.create_write := Written;
     Migration.backup_copy := Written;
     Migration.temp_write := Written;
     Migration.replace_raises := false;
     Migration.restore_copy := Written;
     Migration.remove_raises := false;
     Migration.fallback_write := Written |}.

(** A legacy store of two plain strings. *)
Definition plain_store : Migration.json :=
  Migration.JDict
    [("guidelines",
      Migration.JList [Migration.JStr "Always cite the page number.";
                       Migration.JStr "  Prefer short answers.  "])].

Definition plain_world : world Migration.json :=
  {| disk := {[ store_path := Parsed plain_store ]}; history := [] |}.

(** A legacy store that is a bare list of rule texts. *)
Definition list_store : Migration.json :=
  Migration.JList [Migration.JStr "Always cite the page number."].

Definition list_world : world Migration.json :=
  {| disk := {[ store_path := Parsed list_store ]}; history := [] |}.

Definition absent_world : world Migration.json := {| disk := ∅; history := [] |}.

End Samples.

(* ===================================================================== *)
(** * Properties *)
(* ===================================================================== *)

Import Store.

(** ** Hardware tier detection *)

Section DetectModelSize.
Import Py EmbeddingManager.

Lemma append_cons (c : ascii) (s t : string) : String c s +:+ t = String c (s +:+ t).
Proof. reflexivity. Qed.

Lemma startswith_spec (m s : string) :
  startswith m s = true <-> exists post, s = m +:+ post.
Proof.
  revert s. induction m as [|a m IH]; intros s; simpl.
  - split; [intros _; exists s; reflexivity | reflexivity].
  - destruct s as [|b s].
    + split; [discriminate | intros [post H]; discriminate].
    + destruct (Ascii.eqb_spec a b) as [->|Hne].
      * rewrite IH. split; intros [post H]; exists post.
        -- rewrite append_cons. by rewrite H.
        -- rewrite append_cons in H. by injection H.
      * split; [discriminate | intros [post H]].
        rewrite append_cons in H. congruence.
Qed.

(** [contains] is the substring test. *)
Lemma contains_spec (m s : string) :
  contains m s = true <-> exists pre post, s = pre +:+ m +:+ post.
Proof.
  induction s as [|c s IH].
  - simpl. rewrite orb_false_r, startswith_spec. split.
    + intros [post H]. exists "", post. exact H.
    + intros [pre [post H]]. destruct pre; [by exists post | discriminate].
  - simpl. rewrite orb_true_iff, startswith_spec, IH. split.
    + intros [[post H] | [pre [post H]]].
      * exists "", post. exact H.
      * exists (String c pre), post. rewrite append_cons. by rewrite H.
    + intros [pre [post H]]. destruct pre as [|c' pre].
      * left. by exists post.
      * right. rewrite append_cons in H. injection H as _ H. by exists pre, post.
Qed.

Lemma any_marker_true (markers : list string) (lower : string) :
  any_marker markers lower = true <->
  exists m, In m markers /\ contains m lower = true.
Proof. unfold any_marker. apply existsb_exists. Qed.

Lemma any_marker_false (markers : list string) (lower : string) :
  (forall m, In m markers -> contains m lower = false) ->
  any_marker markers lower = false.
Proof.
  intros H. destruct (any_marker markers lower) eqn:E; [|reflexivity].
  apply any_marker_true in E as [m [Hin Hc]]. rewrite (H m Hin) in Hc. discriminate.
Qed.

(** C10.  The small markers are tried first: a name whose lower-case form
    contains one of them is of size "4B" whatever else it contains (so
    "llama2:13b", which contains "3b", is "4B"); a name that contains no
    marker of either list is of size "8B". *)
Theorem detect_model_size_small_markers_first :
  (forall model_name m,
      In m small_markers ->
      contains m (lower model_name) = true ->
      detect_model_size model_name = "4B")
  /\ (contains "3b" (lower "llama2:13b") = true
      /\ detect_model_size "llama2:13b" = "4B")
  /\ (forall model_name,
         (forall m, In m (small_markers ++ large_markers) ->
                    contains m (lower model_name) = false) ->
         detect_model_size model_name = "8B").
Proof.
  split; [|split].
  - intros model_name m Hin Hc. unfold detect_model_size.
    assert (any_marker small_markers (lower model_name) = true) as ->; [|reflexivity].
    apply any_marker_true. by exists m.
  - split; reflexivity.
  - intros model_name H. unfold detect_model_size.
    rewrite any_marker_false.
    + by destruct (any_marker large_markers (lower model_name)).
    + intros m Hm. apply H. apply in_or_app. by left.
Qed.

Lemma detect_model_size_small_markers_first_witness :
  detect_model_size "Qwen3_4B-8b" = "4B" /\ detect_model_size "mistral:latest" = "8B".
Proof.
  destruct detect_model_size_small_markers_first as [Hsmall [_ Hnone]].
  split.
  - apply (Hsmall "Qwen3_4B-8b" "4b"); [simpl; tauto | reflexivity].
  - apply (Hnone "mistral:latest").
    intros m Hm. simpl in Hm.
    repeat (destruct Hm as [<-|Hm]; [reflexivity|]). destruct Hm.
Defined.

End DetectModelSize.

(** ** The stable sort *)

Section StableSort.
Context {A : Type} (before : A -> A -> bool).

Lemma insert_sorted_perm (x : A) (l : list A) :
  insert_sorted before x l ≡ₚ x :: l.
Proof.
  induction l as [|y l IH]; simpl; [done|].
  destruct (before x y); [done|].
  rewrite IH. apply Permutation_swap.
Qed.

Lemma stable_sort_perm (l : list A) : stable_sort before l ≡ₚ l.
Proof.
  induction l as [|x l IH]; simpl; [done|].
  by rewrite insert_sorted_perm, IH.
Qed.

Lemma stable_sort_length (l : list A) : length (stable_sort before l) = length l.
Proof. by rewrite stable_sort_perm. Qed.

Hypothesis before_total : forall x y, before x y = false -> before y x = true.
Hypothesis before_trans :
  forall x y z, before x y = true -> before y z = true -> before x z = true.

Let R (x y : A) : Prop := before x y = true.

Lemma insert_sorted_sorted (x : A) (l : list A) :
  StronglySorted R l -> StronglySorted R (insert_sorted before x l).
Proof.
  induction l as [|y l IH]; simpl; intros Hs.
  - repeat constructor.
  - apply StronglySorted_inv in Hs as [Hl Hy].
    destruct (before x y) eqn:E.
    + constructor; [by constructor|].
      constructor; [exact E|].
      eapply Forall_impl; [exact Hy|]. intros z Hz. by eapply before_trans.
    + constructor; [by apply IH|].
      rewrite insert_sorted_perm. constructor; [by apply before_total | exact Hy].
Qed.

Lemma stable_sort_sorted (l : list A) : StronglySorted R (stable_sort before l).
Proof.
  induction l as [|x l IH]; simpl; [constructor | by apply insert_sorted_sorted].
Qed.

End StableSort.

(** ** Lifecycle maintenance *)

Section Lifecycle.
Import Reflector.

Lemma retire_not_active (r : Rule) : is_active (retire r) = false.
Proof. reflexivity. Qed.

Lemma retire_is_retired (r : Rule) : is_retired (retire r) = true.
Proof. reflexivity. Qed.

Lemma retire_idem (r : Rule) : retire (retire r) = retire r.
Proof. reflexivity. Qed.

Lemma active_positions_spec (rules : list Rule) (i p : nat) :
  p ∈ active_positions i rules <->
  (i <= p)%nat /\ exists r, rules !! (p - i)%nat = Some r /\ is_active r = true.
Proof.
  revert i. induction rules as [|r rest IH]; intros i; simpl.
  - split; [intros H; by apply elem_of_nil in H | intros [_ [r [H _]]]; done].
  - assert (forall q, (S i <= q)%nat -> (q - i)%nat = S (q - S i)) as Hsub by lia.
    destruct (is_active r) eqn:E; rewrite ?elem_of_cons, IH; split.
    + intros [->|[Hle [r' [Hl Ha]]]].
      * split; [lia|]. exists r. by rewrite Nat.sub_diag.
      * split; [lia|]. exists r'. by rewrite (Hsub p Hle).
    + intros [Hle [r' [Hl Ha]]]. destruct (decide (p = i)) as [->|Hne]; [by left|].
      right. split; [lia|]. exists r'. rewrite Hsub in Hl by lia. done.
    + intros [Hle [r' [Hl Ha]]]. split; [lia|]. exists r'. by rewrite (Hsub p Hle).
    + intros [Hle [r' [Hl Ha]]]. destruct (decide (p = i)) as [->|Hne].
      * rewrite Nat.sub_diag in Hl. simpl in Hl. congruence.
      * split; [lia|]. exists r'. rewrite Hsub in Hl by lia. done.
Qed.

Lemma active_positions_NoDup (rules : list Rule) (i : nat) :
  NoDup (active_positions i rules).
Proof.
  revert i. induction rules as [|r rest IH]; intros i; simpl; [constructor|].
  destruct (is_active r); [|apply IH].
  constructor; [|apply IH].
  rewrite active_positions_spec. lia.
Qed.

Lemma active_positions_length (rules : list Rule) (i : nat) :
  length (active_positions i rules) = active_count rules.
Proof.
  revert i. unfold active_count.
  induction rules as [|r rest IH]; intros i; simpl; [done|].
  destruct (is_active r); simpl; by rewrite IH.
Qed.

Lemma retire_positions_lookup (positions : list nat) (rules : list Rule) (i : nat) :
  retire_positions positions rules !! i =
  (if decide (i ∈ positions) then retire else fun r => r) <$> rules !! i.
Proof.
  unfold retire_positions. revert rules.
  induction positions as [|p ps IH]; intros rules; cbn [foldl].
  - case_decide as Hin; [by apply elem_of_nil in Hin|]. by destruct (rules !! i).
  - rewrite IH. destruct (decide (i = p)) as [->|Hne].
    + rewrite list_lookup_alter_eq, (decide_True _ _ (list_elem_of_here p ps)).
      destruct (rules !! p); simpl; [|done].
      by destruct (decide (p ∈ ps)).
    + rewrite list_lookup_alter_ne by done.
      destruct (decide (i ∈ ps)) as [Hin|Hnin].
      * by rewrite decide_True by (by apply list_elem_of_further).
      * rewrite decide_False; [done|]. rewrite elem_of_cons. tauto.
Qed.

Lemma retire_positions_length (positions : list nat) (rules : list Rule) :
  length (retire_positions positions rules) = length rules.
Proof.
  unfold retire_positions. revert rules.
  induction positions as [|p ps IH]; intros rules; simpl; [done|].
  by rewrite IH, length_alter.
Qed.

Lemma active_count_alter_retire (rules : list Rule) (p : nat) (r : Rule) :
  rules !! p = Some r -> is_active r = true ->
  (active_count (alter retire p rules) + 1)%nat = active_count rules.
Proof.
  unfold active_count. revert p.
  induction rules as [|x rest IH]; intros p Hl Ha; [done|].
  destruct p as [|p]; simpl in *.
  - injection Hl as ->. rewrite Ha. simpl. lia.
  - specialize (IH p Hl Ha). unfold alter in IH.
    destruct (is_active x); simpl; lia.
Qed.

Lemma retire_positions_count (positions : list nat) (rules : list Rule) :
  NoDup positions ->
  (forall p, p ∈ positions -> exists r, rules !! p = Some r /\ is_active r = true) ->
  (active_count (retire_positions positions rules) + length positions)%nat
  = active_count rules.
Proof.
  unfold retire_positions. revert rules.
  induction positions as [|p ps IH]; intros rules Hnd Hact; simpl; [lia|].
  apply NoDup_cons in Hnd as [Hp Hnd].
  destruct (Hact p) as [r [Hl Ha]]; [apply list_elem_of_here|].
  rewrite <- (active_count_alter_retire rules p r Hl Ha).
  rewrite <- (IH (alter retire p rules) Hnd); [lia|].
  intros q Hq. rewrite list_lookup_alter_ne by (intros ->; done).
  apply Hact. by apply list_elem_of_further.
Qed.

Lemma lookup_map {A B : Type} (f : A -> B) (l : list A) (i : nat) :
  map f l !! i = f <$> l !! i.
Proof. revert i. induction l as [|x l IH]; intros [|i]; simpl; auto. Qed.

Lemma confidence_order_total (rules : list Rule) (i j : nat) :
  Qle_bool (confidence_at rules i) (confidence_at rules j) = false ->
  Qle_bool (confidence_at rules j) (confidence_at rules i) = true.
Proof.
  intros H. apply Qle_bool_iff.
  destruct (Qlt_le_dec (confidence_at rules i) (confidence_at rules j)) as [Hlt|Hle];
    [|exact Hle].
  apply Qlt_le_weak in Hlt. apply Qle_bool_iff in Hlt. congruence.
Qed.

Lemma confidence_order_trans (rules : list Rule) (i j k : nat) :
  Qle_bool (confidence_at rules i) (confidence_at rules j) = true ->
  Qle_bool (confidence_at rules j) (confidence_at rules k) = true ->
  Qle_bool (confidence_at rules i) (confidence_at rules k) = true.
Proof. rewrite !Qle_bool_iff. apply Qle_trans. Qed.

Lemma enforce_cap_unfold (cap : nat) (rules : list Rule) :
  enforce_cap cap rules = retire_positions (capped cap rules) rules.
Proof.
  unfold enforce_cap, capped.
  destruct (cap <? length (active_positions 0 rules))%nat eqn:E; [done|].
  apply Nat.ltb_ge in E.
  replace (length (active_positions 0 rules) - cap)%nat with 0%nat by lia.
  done.
Qed.

Lemma capped_active (cap : nat) (rules : list Rule) (p : nat) :
  p ∈ capped cap rules -> exists r, rules !! p = Some r /\ is_active r = true.
Proof.
  unfold capped. intros Hp.
  apply (fun H => elem_of_sublist _ _ _ H (sublist_take _ _)) in Hp.
  rewrite stable_sort_perm in Hp.
  apply active_positions_spec in Hp as [_ Hp].
  by rewrite Nat.sub_0_r in Hp.
Qed.

Lemma capped_NoDup (cap : nat) (rules : list Rule) : NoDup (capped cap rules).
Proof.
  unfold capped. eapply sublist_NoDup; [|apply sublist_take].
  rewrite stable_sort_perm. apply active_positions_NoDup.
Qed.

Lemma capped_length (cap : nat) (rules : list Rule) :
  length (capped cap rules) = (active_count rules - cap)%nat.
Proof.
  unfold capped.
  rewrite length_take, stable_sort_length, active_positions_length. lia.
Qed.

Lemma enforce_cap_length (cap : nat) (rules : list Rule) :
  length (enforce_cap cap rules) = length rules.
Proof. by rewrite enforce_cap_unfold, retire_positions_length. Qed.

Lemma enforce_cap_count (cap : nat) (rules : list Rule) :
  active_count (enforce_cap cap rules) = Nat.min (active_count rules) cap.
Proof.
  rewrite enforce_cap_unfold.
  pose proof (retire_positions_count (capped cap rules) rules
                (capped_NoDup cap rules) (capped_active cap rules)) as H.
  rewrite capped_length in H. lia.
Qed.

Lemma enforce_cap_lookup (cap : nat) (rules : list Rule) (i : nat) (r : Rule) :
  rules !! i = Some r ->
  ((i ∉ capped cap rules) /\ enforce_cap cap rules !! i = Some r)
  \/ ((i ∈ capped cap rules) /\ is_active r = true
      /\ enforce_cap cap rules !! i = Some (retire r)).
Proof.
  intros Hl. rewrite enforce_cap_unfold, retire_positions_lookup, Hl.
  destruct (decide (i ∈ capped cap rules)) as [Hin|Hnin]; [right|left]; simpl.
  - destruct (capped_active _ _ _ Hin) as [r' [Hl' Ha]].
    rewrite Hl in Hl'. injection Hl' as <-. done.
  - done.
Qed.

Lemma enforce_cap_under (cap : nat) (rules : list Rule) :
  (active_count rules <= cap)%nat -> enforce_cap cap rules = rules.
Proof.
  intros H. unfold enforce_cap. rewrite active_positions_length.
  by rewrite (proj2 (Nat.ltb_ge _ _) H).
Qed.

Lemma enforce_cap_lowest_first (cap : nat) (rules : list Rule) (p q : nat) (rp rq : Rule) :
  rules !! p = Some rp -> rules !! q = Some rq ->
  is_active rq = true ->
  p ∈ capped cap rules -> q ∉ capped cap rules ->
  (get (r_confidence rp) 0 <= get (r_confidence rq) 0)%Q.
Proof.
  intros Hp Hq Haq Hinp Hninq.
  set (before := fun i j => Qle_bool (confidence_at rules i) (confidence_at rules j)).
  set (sorted := stable_sort before (active_positions 0 rules)).
  set (n := (length (active_positions 0 rules) - cap)%nat).
  assert (q ∈ drop n sorted) as Hdrop.
  { assert (q ∈ sorted) as Hs.
    { unfold sorted. rewrite stable_sort_perm. apply active_positions_spec.
      split; [lia|]. exists rq. by rewrite Nat.sub_0_r. }
    rewrite <- (take_drop n sorted) in Hs.
    apply elem_of_app in Hs as [Hs|Hs]; [contradiction | exact Hs]. }
  pose proof (stable_sort_sorted before (confidence_order_total rules)
                (confidence_order_trans rules) (active_positions 0 rules)) as Hsorted.
  fold sorted in Hsorted. rewrite <- (take_drop n sorted) in Hsorted.
  pose proof (StronglySorted_app_1_elem_of _ _ _ _ _ Hsorted Hinp Hdrop) as Hle.
  unfold before, confidence_at in Hle. rewrite Hp, Hq in Hle.
  by apply Qle_bool_iff in Hle.
Qed.

Lemma retirement_check_stale (now : Z) (r : Rule) :
  is_active r = true -> stale now r = true -> retirement_check now r = retire r.
Proof. unfold retirement_check. by intros -> ->. Qed.

Lemma retirement_check_fresh (now : Z) (r : Rule) :
  stale now r = false -> retirement_check now r = r.
Proof. unfold retirement_check. intros ->. by destruct (is_active r). Qed.

(** C4.  Lifecycle maintenance on [rules] at time [now]; [checked] is the
    list after the retirement loop, [result] the list returned.
    (1) An active record last triggered more than 30 days ago with a
        trigger count below 3 is retired.
    (2) An active record with a trigger count of 3 or more, whatever its
        age, is left as it is by the retirement loop, and by the whole
        run when the active count is within the cap.
    (3) The cap is 30 for the small tier and 50 otherwise.
    (4) Afterwards the active count is the smaller of the count after the
        retirement loop and the cap: at or under the cap.
    (5) The cap retires the lowest confidences first: a record it retired
        has a confidence at most that of any record it left active.
    (6) 32 active records under cap 30: exactly 2 are retired, 30 stay. *)
Theorem run_lifecycle_retires_stale_then_caps
    (cfg : LearningConfig) (now : Z) (rules : list Rule) :
  let checked := map (retirement_check now) rules in
  let result := _run_lifecycle cfg now rules in
  (forall i r t,
      rules !! i = Some r -> is_active r = true ->
      r_last_triggered r = Some (Instant t) ->
      (t < now - thirty_days)%Z ->
      (get (r_trigger_count r) 1 < 3)%Z ->
      result !! i = Some (retire r))
  /\ (forall i r,
        rules !! i = Some r -> is_active r = true ->
        (3 <= get (r_trigger_count r) 1)%Z ->
        checked !! i = Some r
        /\ ((active_count checked <= cap cfg)%nat -> result !! i = Some r))
  /\ cap cfg =
       (if String.eqb (EmbeddingManager.detect_model_size (PRIMARY_OLLAMA_MODEL cfg)) "4B"
        then 30%nat else 50%nat)
  /\ active_count result = Nat.min (active_count checked) (cap cfg)
  /\ (forall p q rp rq rp' rq',
        checked !! p = Some rp -> is_active rp = true ->
        checked !! q = Some rq -> is_active rq = true ->
        result !! p = Some rp' -> is_active rp' = false ->
        result !! q = Some rq' -> is_active rq' = true ->
        (get (r_confidence rp) 0 <= get (r_confidence rq) 0)%Q)
  /\ (active_count checked = 32%nat -> cap cfg = 30%nat ->
        active_count result = 30%nat
        /\ active_count checked = (active_count result + 2)%nat).
Proof.
  intros checked result. subst checked result. unfold _run_lifecycle.
  set (checked := map (retirement_check now) rules).
  repeat split.
  - intros i r t Hl Ha Ht Hlt Htc.
    assert (checked !! i = Some (retire r)) as Hc.
    { unfold checked. rewrite lookup_map, Hl. simpl. f_equal.
      apply retirement_check_stale; [done|].
      unfold stale. rewrite Ht. simpl.
      apply andb_true_intro. split; by apply Z.ltb_lt. }
    destruct (enforce_cap_lookup (cap cfg) checked i _ Hc) as [[_ H]|[_ [H _]]];
      [exact H | discriminate].
  - unfold checked. rewrite lookup_map, H. simpl. f_equal.
    apply retirement_check_fresh. unfold stale.
    destruct (get (r_last_triggered r) (get (r_created_at r) (Malformed "")));
      [|done].
    apply andb_false_intro2. by apply Z.ltb_ge.
  - intros Hcap. rewrite enforce_cap_under by done.
    unfold checked. rewrite lookup_map, H. simpl. f_equal.
    apply retirement_check_fresh. unfold stale.
    destruct (get (r_last_triggered r) (get (r_created_at r) (Malformed "")));
      [|done].
    apply andb_false_intro2. by apply Z.ltb_ge.
  - apply enforce_cap_count.
  - intros p q rp rq rp' rq' Hp Hap Hq Haq Hp' Hap' Hq' Haq'.
    destruct (enforce_cap_lookup (cap cfg) checked p _ Hp) as [[_ H]|[Hin _]].
    { rewrite H in Hp'. injection Hp' as <-. congruence. }
    destruct (enforce_cap_lookup (cap cfg) checked q _ Hq) as [[Hnin _]|[_ [_ H]]].
    2:{ rewrite H in Hq'. injection Hq' as <-. discriminate. }
    by eapply enforce_cap_lowest_first.
  - rewrite enforce_cap_count. lia.
  - rewrite enforce_cap_count. lia.
Qed.

Lemma run_lifecycle_retires_stale_then_caps_witness :
  _run_lifecycle Samples.cfg_small (31 * Samples.day) Samples.crowded !! 0%nat
  = Some (retire Samples.old_rule)
  /\ active_count (_run_lifecycle Samples.cfg_small (31 * Samples.day) Samples.crowded)
     = 30%nat.
Proof.
  destruct (run_lifecycle_retires_stale_then_caps
              Samples.cfg_small (31 * Samples.day) Samples.crowded)
    as (Hstale & _ & _ & _ & _ & Hcap).
  split.
  - apply (Hstale 0%nat Samples.old_rule 0%Z); reflexivity.
  - apply Hcap; reflexivity.
Defined.

End Lifecycle.

(** ** Atomic persistence *)

Section AtomicWrite.
Import Reflector.

Lemma length_append (s t : string) :
  String.length (s +:+ t) = (String.length s + String.length t)%nat.
Proof. induction s as [|c s IH]; [done|]. rewrite append_cons. simpl. by rewrite IH. Qed.

Lemma temp_path_ne (path : string) : temp_path_of path <> path.
Proof.
  unfold temp_path_of. intros H. apply (f_equal String.length) in H.
  rewrite length_append in H. simpl in H. lia.
Qed.

(** The clean-up of the [except] clause never touches a path other than
    the temporary one, and answers [False]. *)
Lemma clean_up_spec (env : Env) (temp_path : string) (w : world Document) :
  exists w',
    clean_up env temp_path w = (Ok false, w')
    /\ (forall p, p <> temp_path -> disk w' !! p = disk w !! p)
    /\ (remove_raises (io env) = false -> disk w' !! temp_path = None)
    /\ ((disk w' = disk w /\ history w' = history w)
        \/ (history w' = disk w :: history w)).
Proof.
  unfold clean_up, bind, try_pass, try_except, os_path_exists, os_remove, ret.
  destruct (disk w !! temp_path) as [c|] eqn:E.
  - rewrite bool_decide_true by done.
    destruct (remove_raises (io env)).
    + exists w. unfold raise. repeat split; auto. intros; congruence.
    + rewrite E. unfold change. eexists. split; [reflexivity|]. simpl.
      repeat split; auto.
      * intros p Hp. by rewrite lookup_delete_ne.
      * intros _. by rewrite lookup_delete_eq.
  - rewrite bool_decide_false by (intros [? ?]; congruence).
    exists w. repeat split; auto.
Qed.

(** A failure before the rename leaves the [try] block with an exception
    and with a disk that differs at most at the temporary path. *)
Lemma write_and_rename_fails (cfg : LearningConfig) (env : Env)
    (original_data : Document) (updated_rules : list Rule) (w : world Document) :
  failed_before_rename (io env) ->
  exists e w1,
    write_and_rename cfg env original_data updated_rules w = (Raise e, w1)
    /\ (forall p, p <> temp_path_of (GUIDELINES_PATH cfg) -> disk w1 !! p = disk w !! p)
    /\ ((disk w1 = disk w /\ history w1 = history w)
        \/ (history w1 = disk w :: history w)).
Proof.
  intros Hfail.
  unfold write_and_rename, bind, json_dumps, json_loads, write_file, raise, ret, change.
  destruct (dumps_raises (io env)) eqn:Ed.
  { exists TypeError, w. auto. }
  destruct (loads_raises (io env)) eqn:El.
  { exists ValueError, w. auto. }
  simpl.
  destruct (temp_write (io env)) as [| |raw] eqn:Ew.
  - destruct Hfail as [H|[H|H]]; congruence.
  - exists OSError, w. auto.
  - eexists OSError, _. split; [reflexivity|]. simpl. split; [|by right].
    intros p Hp. by rewrite lookup_insert_ne.
Qed.

(** A failure before the rename ends in the answer [False] with the store
    path as it was. *)
Lemma atomic_write_fails_keeps_store (cfg : LearningConfig) (env : Env)
    (original_data : Document) (updated_rules : list Rule) (w : world Document) :
  failed_before_rename (io env) ->
  let out := _atomic_write cfg env original_data updated_rules w in
  fst out = Ok false
  /\ disk (snd out) !! GUIDELINES_PATH cfg = disk w !! GUIDELINES_PATH cfg.
Proof.
  intros Hfail out. subst out. unfold _atomic_write, try_except.
  destruct (write_and_rename_fails cfg env original_data updated_rules w Hfail)
    as (e & w1 & -> & Hkeep1 & _).
  destruct (clean_up_spec env (temp_path_of (GUIDELINES_PATH cfg)) w1)
    as (w2 & -> & Hkeep2 & _).
  pose proof (temp_path_ne (GUIDELINES_PATH cfg)) as Hne.
  cbn [fst snd]. split; [done|]. rewrite Hkeep2, Hkeep1; auto.
Qed.

(** C1, as the code has it.  When [_atomic_write] fails before the rename
    (in the serialization, in the round trip or in the writing of the
    temporary file), it answers [False] and raises nothing; the store
    path holds what it held before, in the final state of the disk and in
    every state the disk went through on the way, so that no reader sees
    a partial document there; and the temporary file is gone at the end
    when the call that removes it does not fail itself (that call's own
    failure is passed over). *)
Theorem atomic_write_failure_is_contained (cfg : LearningConfig) (env : Env)
    (original_data : Document) (updated_rules : list Rule) (w : world Document) :
  failed_before_rename (io env) ->
  let path := GUIDELINES_PATH cfg in
  let out := _atomic_write cfg env original_data updated_rules w in
  fst out = Ok false
  /\ (exists states,
        history (snd out) = (states ++ history w)%list
        /\ Forall (fun d => d !! path = disk w !! path) (disk (snd out) :: states))
  /\ (remove_raises (io env) = false -> disk (snd out) !! temp_path_of path = None).
Proof.
  intros Hfail path out. subst out. unfold _atomic_write, try_except.
  destruct (write_and_rename_fails cfg env original_data updated_rules w Hfail)
    as (e & w1 & -> & Hkeep1 & Hhist1).
  fold path in Hkeep1 |- *.
  destruct (clean_up_spec env (temp_path_of path) w1)
    as (w2 & -> & Hkeep2 & Hgone & Hhist2).
  simpl. split; [done|]. split; [|exact Hgone].
  pose proof (temp_path_ne path) as Hne.
  assert (disk w1 !! path = disk w !! path) as H1 by (apply Hkeep1; auto).
  assert (disk w2 !! path = disk w !! path) as H2 by (rewrite Hkeep2; auto).
  destruct Hhist1 as [[Hd1 Hh1]|Hh1], Hhist2 as [[Hd2 Hh2]|Hh2].
  - exists []. split; [simpl; congruence|]. by repeat constructor.
  - exists [disk w1]. split; [simpl; congruence|]. by repeat constructor.
  - exists [disk w]. split; [simpl; congruence|]. by repeat constructor.
  - exists [disk w1; disk w]. split; [simpl; congruence|]. by repeat constructor.
Qed.


Lemma atomic_write_failure_is_contained_witness :
  let out := _atomic_write Samples.cfg_small (Samples.env_with Samples.full_disk)
               Samples.one_rule_store [] (Samples.world_with Samples.one_rule_store) in
  fst out = Ok false
  /\ disk (snd out) !! Samples.store_path = Some (Parsed Samples.one_rule_store)
  /\ disk (snd out) !! temp_path_of Samples.store_path = None.
Proof.
  destruct (atomic_write_failure_is_contained
              Samples.cfg_small (Samples.env_with Samples.full_disk)
              Samples.one_rule_store [] (Samples.world_with Samples.one_rule_store))
    as (Hres & (states & _ & Hall) & Hgone).
  { right. right. discriminate. }
  split; [exact Hres|]. split.
  - apply Forall_cons in Hall as [Hnow _]. exact Hnow.
  - apply Hgone. reflexivity.
Defined.

(** C1, as the specification has it, fails: with a temporary file that is
    cut short and then cannot be removed, the file is still there after
    the failed commit. *)
Lemma atomic_write_may_leave_temp_file :
  ~ (forall cfg env original_data updated_rules w,
        failed_before_rename (io env) ->
        disk (snd (_atomic_write cfg env original_data updated_rules w))
          !! temp_path_of (GUIDELINES_PATH cfg) = None).
Proof.
  intros H.
  specialize (H Samples.cfg_small (Samples.env_with Samples.stubborn_disk)
                Samples.one_rule_store [] (Samples.world_with Samples.one_rule_store)).
  assert (failed_before_rename (io (Samples.env_with Samples.stubborn_disk))) as Hf.
  { right. right. discriminate. }
  specialize (H Hf). vm_compute in H. discriminate.
Qed.

End AtomicWrite.

(** ** Deduplication *)

Section Deduplication.
Import Reflector EmbeddingManager.

Lemma find_first {A : Type} (p : A -> bool) (l : list A) (r : A) :
  List.find p l = Some r <->
  exists pre post,
    l = (pre ++ r :: post)%list /\ p r = true /\ Forall (fun x => p x = false) pre.
Proof.
  induction l as [|x l IH]; simpl.
  - split; [discriminate | intros (pre & post & H & _)]. by destruct pre.
  - destruct (p x) eqn:E; split.
    + intros [= ->]. exists [], l. by repeat split.
    + intros (pre & post & H & Hr & Hpre). destruct pre as [|y pre]; simpl in H.
      * by injection H as ->.
      * injection H as -> _. apply Forall_cons in Hpre as [Hy _]. congruence.
    + intros (pre & post & -> & Hr & Hpre)%IH.
      exists (x :: pre), post. repeat split; [done|]. by constructor.
    + intros (pre & post & H & Hr & Hpre). destruct pre as [|y pre]; simpl in H.
      * injection H as -> _. congruence.
      * injection H as -> ->. apply Forall_cons in Hpre as [_ Hpre].
        apply IH. by exists pre, post.
Qed.

Lemma find_nothing {A : Type} (p : A -> bool) (l : list A) :
  List.find p l = None <-> Forall (fun x => p x = false) l.
Proof.
  induction l as [|x l IH]; simpl; [by split|].
  destruct (p x) eqn:E; split.
  - discriminate.
  - intros [H _]%Forall_cons. congruence.
  - intros H%IH. by constructor.
  - intros [_ H]%Forall_cons. by apply IH.
Qed.

Lemma embedding_scan_find (em : EmbeddingManager) (threshold : Q)
    (e : embedding) (l : list Rule) :
  embedding_scan em threshold e l = r_id <$> List.find (embedding_match em threshold e) l.
Proof.
  induction l as [|r l IH]; simpl; [done|].
  by destruct (embedding_match em threshold e r).
Qed.

Lemma keyword_scan_find (new_tokens : gset string) (l : list Rule) :
  keyword_scan new_tokens l = r_id <$> List.find (keyword_match new_tokens) l.
Proof.
  induction l as [|r l IH]; simpl; [done|].
  by destruct (keyword_match new_tokens r).
Qed.

(** The test [overlap >= 0.55] in whole numbers. *)
Lemma overlap_threshold (i u : nat) :
  (0 < u)%nat ->
  (0.55 <= inject_Z (Z.of_nat i) / inject_Z (Z.of_nat u))%Q <-> (11 * u <= 20 * i)%nat.
Proof.
  intros Hu.
  assert (0 < inject_Z (Z.of_nat u))%Q as Hpos.
  { unfold Qlt. simpl. lia. }
  rewrite <- (Qmult_le_r _ _ _ Hpos).
  assert (inject_Z (Z.of_nat i) / inject_Z (Z.of_nat u) * inject_Z (Z.of_nat u)
          == inject_Z (Z.of_nat i))%Q as ->.
  { rewrite Qmult_comm. apply Qmult_div_r. intros H. rewrite H in Hpos.
    by apply Qlt_irrefl in Hpos. }
  unfold Qle. simpl. lia.
Qed.

Lemma keyword_match_spec (new_tokens : gset string) (r : Rule) :
  keyword_match new_tokens r = true <->
  new_tokens <> ∅ /\ tokens (get (r_rule r) "") <> ∅
  /\ (11 * size (new_tokens ∪ tokens (get (r_rule r) ""))
      <= 20 * size (new_tokens ∩ tokens (get (r_rule r) "")))%nat.
Proof.
  unfold keyword_match, overlap.
  set (et := tokens (get (r_rule r) "")).
  destruct (decide (new_tokens = ∅)) as [->|Hn]; [split; [discriminate | tauto]|].
  destruct (decide (et = ∅)) as [He|He]; [split; [discriminate | tauto]|].
  assert (new_tokens ∪ et <> ∅) as Hu by set_solver.
  rewrite decide_False by done.
  rewrite Qle_bool_iff, overlap_threshold; [tauto|].
  assert (size (new_tokens ∪ et) <> 0)%nat; [|lia].
  apply size_non_empty_iff. by intros ?%leibniz_equiv.
Qed.

Lemma embedding_match_spec (em : EmbeddingManager) (threshold : Q)
    (e : embedding) (r : Rule) :
  embedding_match em threshold e r = true <->
  exists stored,
    r_embedding r = Some stored /\ length stored = 384%nat
    /\ (threshold <= cosine_similarity em e stored)%Q.
Proof.
  unfold embedding_match. destruct (r_embedding r) as [stored|]; simpl.
  - destruct (Nat.eqb_spec (length stored) 384) as [Hlen|Hlen].
    + rewrite Qle_bool_iff. split; [by exists stored | by intros (? & [= <-] & _ & ?)].
    + split; [discriminate | intros (? & [= <-] & ? & _); done].
  - split; [discriminate | intros (? & ? & _); done].
Qed.

Lemma find_first_such (p : Rule -> bool) (P : Rule -> Prop) (l : list Rule) (id : string) :
  (forall r, p r = true <-> P r) ->
  r_id <$> List.find p l = Some id <-> first_such P l id.
Proof.
  intros Hp. unfold first_such. split.
  - destruct (List.find p l) as [r|] eqn:E; [|discriminate].
    intros [= <-]. apply find_first in E as (pre & post & -> & Hr & Hpre).
    exists pre, r, post. split; [done|]. split; [by apply Hp|]. split; [|done].
    eapply Forall_impl; [exact Hpre|]. intros x Hx HP. apply Hp in HP. congruence.
  - intros (pre & r & post & -> & Hr & Hpre & <-).
    assert (List.find p (pre ++ r :: post) = Some r) as ->; [|done].
    apply find_first. exists pre, post. split; [done|]. split; [by apply Hp|].
    eapply Forall_impl; [exact Hpre|]. intros x Hx.
    destruct (p x) eqn:E; [|done]. apply Hp in E. contradiction.
Qed.

(** C3, as the code has it.  Among the active rules, in their order:
    when the embedding service is there, ready, and encodes the candidate,
    the duplicate is the first rule that has a stored embedding of 384
    coordinates with a similarity at or above the threshold of the
    configuration (rules without such an embedding are passed over);
    otherwise it is the first rule whose stop-word-filtered lower-case
    token set has a Jaccard overlap of at least 0.55 with the candidate's
    (both sets being non-empty). *)
Theorem find_duplicate_paths (cfg : LearningConfig) (app_state : AppState)
    (text : string) (rules : list Rule) :
  let active := List.filter is_active rules in
  (forall em e id,
      encoded app_state text = Some (em, e) ->
      _find_duplicate cfg app_state text rules = Some id <->
      first_such (embedding_duplicate em (EMBEDDING_SIMILARITY_THRESHOLD cfg) e) active id)
  /\ (forall id,
        encoded app_state text = None ->
        _find_duplicate cfg app_state text rules = Some id <->
        first_such (lexical_duplicate text) active id).
Proof.
  intros active.
  assert (forall P id, ~ first_such P [] id) as Hnil.
  { intros P id (pre & r & post & H & _). by destruct pre. }
  split.
  - intros em e id Henc. unfold _find_duplicate, encoded in *. fold active.
    destruct (embedding_manager app_state) as [em'|]; [|discriminate].
    destruct (is_ready em'); [|discriminate].
    destruct (encode em' text) as [e'|]; [|discriminate].
    injection Henc as -> ->.
    destruct active as [|r0 rest] eqn:Ea.
    { split; [discriminate | intros H; by apply Hnil in H]. }
    rewrite embedding_scan_find.
    apply find_first_such. intros r. apply embedding_match_spec.
  - intros id Henc. unfold _find_duplicate, encoded in *. fold active.
    assert (_keyword_dedup text active = Some id
            <-> first_such (lexical_duplicate text) active id) as Hkw.
    { unfold _keyword_dedup. rewrite keyword_scan_find.
      apply find_first_such. intros r. apply keyword_match_spec. }
    destruct active as [|r0 rest] eqn:Ea.
    { split; [discriminate | intros H; by apply Hnil in H]. }
    destruct (embedding_manager app_state) as [em'|]; [|exact Hkw].
    destruct (is_ready em'); [|exact Hkw].
    destruct (encode em' text) as [e'|]; [discriminate | exact Hkw].
Qed.

Lemma find_duplicate_paths_witness :
  first_such
    (embedding_duplicate Samples.constant_service 0.82 Samples.unit_vector)
    [Samples.unencoded_rule; Samples.encoded_rule]
    (r_id Samples.encoded_rule)
  /\ first_such (lexical_duplicate Samples.language_rule_text)
       [Samples.unencoded_rule] (r_id Samples.unencoded_rule).
Proof.
  split.
  - destruct (find_duplicate_paths Samples.cfg_small Samples.with_service
                Samples.language_rule_text
                [Samples.unencoded_rule; Samples.encoded_rule]) as [Hemb _].
    assert (_find_duplicate Samples.cfg_small Samples.with_service
              Samples.language_rule_text
              [Samples.unencoded_rule; Samples.encoded_rule]
            = Some (r_id Samples.encoded_rule)) as Hrun by (vm_compute; reflexivity).
    exact (proj1 (Hemb Samples.constant_service Samples.unit_vector
                    (r_id Samples.encoded_rule) eq_refl) Hrun).
  - destruct (find_duplicate_paths Samples.cfg_small Samples.without_service
                Samples.language_rule_text [Samples.unencoded_rule]) as [_ Hlex].
    assert (_find_duplicate Samples.cfg_small Samples.without_service
              Samples.language_rule_text [Samples.unencoded_rule]
            = Some (r_id Samples.unencoded_rule)) as Hrun by (vm_compute; reflexivity).
    exact (proj1 (Hlex (r_id Samples.unencoded_rule) eq_refl) Hrun).
Defined.

(** C3, as the specification has it, fails: with the service available, an
    active rule without a stored embedding is not compared by its words,
    however much they overlap with the candidate's. *)
Lemma unencoded_rule_is_not_compared :
  ~ (forall cfg app_state text r,
        is_active r = true ->
        get (r_embedding r) [] = [] ->
        keyword_match (tokens text) r = true ->
        _find_duplicate cfg app_state text [r] = Some (r_id r)).
Proof.
  intros H.
  assert (is_active Samples.unencoded_rule = true) as Ha by reflexivity.
  assert (get (r_embedding Samples.unencoded_rule) [] = []) as Hb by reflexivity.
  assert (keyword_match (tokens Samples.language_rule_text) Samples.unencoded_rule = true)
    as Hk by (vm_compute; reflexivity).
  pose proof (H Samples.cfg_small Samples.with_service Samples.language_rule_text
                Samples.unencoded_rule Ha Hb Hk) as Hrun.
  vm_compute in Hrun. discriminate.
Qed.

End Deduplication.

(** ** Rounding *)

Section Rounding.


Lemma Qmake_thousandths (z : Z) : (Qmake z 1000 == inject_Z z * (1 # 1000))%Q.
Proof. unfold Qeq. simpl. lia. Qed.


End Rounding.

(** ** Merge or create *)

Section MergeOrCreate.
Import Reflector EmbeddingManager.

Lemma reinforce_rule_split (now : Z) (rules : list Rule) (id : string) :
  (Forall (fun x => r_id x <> id) rules /\ _reinforce_rule now rules id = rules)
  \/ (exists pre r post,
        rules = (pre ++ r :: post)%list
        /\ Forall (fun x => r_id x <> id) pre /\ r_id r = id
        /\ _reinforce_rule now rules id = (pre ++ reinforce now r :: post)%list).
Proof.
  induction rules as [|x rest IH]; simpl.
  - left. by split.
  - destruct (String.eqb_spec (r_id x) id) as [Heq|Hne].
    + right. exists [], x, rest. by repeat split.
    + destruct IH as [[Hall Hsame]|(pre & r & post & -> & Hpre & Hr & Hrun)].
      * left. split; [by constructor | by rewrite Hsame].
      * right. exists (x :: pre), r, post. rewrite Hrun.
        split; [done|]. split; [by constructor|]. by split.
Qed.

Lemma scan_result_is_active (p : Rule -> bool) (rules : list Rule) (id : string) :
  r_id <$> List.find p (List.filter is_active rules) = Some id ->
  exists r, r ∈ rules /\ is_active r = true /\ r_id r = id.
Proof.
  destruct (List.find p (List.filter is_active rules)) as [r|] eqn:E; [|discriminate].
  intros [= <-]. apply find_some in E as [Hin _].
  apply filter_In in Hin as [Hin Ha]. exists r. by rewrite list_elem_of_In.
Qed.

Lemma find_duplicate_is_active (cfg : LearningConfig) (app_state : AppState)
    (text : string) (rules : list Rule) (id : string) :
  _find_duplicate cfg app_state text rules = Some id ->
  exists r, r ∈ rules /\ is_active r = true /\ r_id r = id.
Proof.
  unfold _find_duplicate, _keyword_dedup.
  rewrite keyword_scan_find.
  destruct (List.filter is_active rules) as [|r0 rest] eqn:Ea; [discriminate|].
  rewrite <- Ea.
  destruct (embedding_manager app_state) as [em|]; [|apply scan_result_is_active].
  destruct (is_ready em); [|apply scan_result_is_active].
  destruct (encode em text) as [e|]; [|apply scan_result_is_active].
  rewrite embedding_scan_find. apply scan_result_is_active.
Qed.





(** The scenario of the specification, run on the model: a first
    thumbs-down with a generated rule at confidence 0.9 leaves one record
    at 0.54 with count 1; a second, identical one leaves the same record
    at 0.62 with count 2. *)
Example two_feedback_events :
  let run := _process Samples.cfg_small Samples.without_service
               (Samples.env_with Samples.healthy_disk) Samples.hindi_feedback
               (Some Samples.hindi_rule) in
  let first := snd (run Samples.empty_world) in
  let second := snd (run first) in
  Samples.stored first = [(1%Z, 0.540%Q)]
  /\ Samples.stored second = [(2%Z, 0.620%Q)].
Proof. split; by vm_compute. Qed.

End MergeOrCreate.

(** ** The audit trail *)

Section AuditTrail.
Import Reflector EmbeddingManager.

Lemma preserved_refl (rules : list Rule) : preserved rules rules.
Proof. intros i r Hl. exists r. by repeat split. Qed.

Lemma preserved_trans (a b c : list Rule) :
  preserved a b -> preserved b c -> preserved a c.
Proof.
  intros Hab Hbc i r Hl.
  destruct (Hab i r Hl) as (r1 & Hl1 & Hid1 & Hret1 & Hact1).
  destruct (Hbc i r1 Hl1) as (r2 & Hl2 & Hid2 & Hret2 & Hact2).
  exists r2. repeat split; [done | congruence | auto | auto].
Qed.

Lemma reinforce_rule_preserved (now : Z) (rules : list Rule) (id : string) :
  preserved rules (_reinforce_rule now rules id).
Proof.
  induction rules as [|x rest IH]; intros i r Hl; [done|].
  simpl. destruct (String.eqb (r_id x) id).
  - destruct i as [|i]; simpl in *.
    + injection Hl as <-. exists (reinforce now x). by repeat split.
    + exists r. by repeat split.
  - destruct i as [|i]; simpl in *.
    + exists r. by repeat split.
    + by apply IH.
Qed.

Lemma retire_preserves (r : Rule) :
  is_active r = true ->
  r_id (retire r) = r_id r
  /\ (is_retired r = true -> is_retired (retire r) = true)
  /\ (is_active r = false -> is_active (retire r) = false).
Proof. intros Ha. split; [done|]. split; [done|]. congruence. Qed.

Lemma retirement_loop_preserved (now : Z) (rules : list Rule) :
  preserved rules (map (retirement_check now) rules).
Proof.
  intros i r Hl. rewrite lookup_map, Hl. simpl.
  exists (retirement_check now r). split; [done|].
  unfold retirement_check.
  destruct (is_active r) eqn:Ea; [|by repeat split].
  destruct (stale now r); [|by repeat split].
  split; [done|]. split; [done | discriminate].
Qed.

Lemma enforce_cap_preserved (cap : nat) (rules : list Rule) :
  preserved rules (enforce_cap cap rules).
Proof.
  intros i r Hl.
  destruct (enforce_cap_lookup cap rules i r Hl) as [[_ H]|(_ & Ha & H)].
  - exists r. by repeat split.
  - exists (retire r). split; [done|]. by apply retire_preserves.
Qed.

Lemma run_lifecycle_preserved (cfg : LearningConfig) (now : Z) (rules : list Rule) :
  preserved rules (_run_lifecycle cfg now rules).
Proof.
  eapply preserved_trans; [apply retirement_loop_preserved | apply enforce_cap_preserved].
Qed.

Lemma append_preserved (rules : list Rule) (x : Rule) :
  preserved rules (rules ++ [x]).
Proof.
  intros i r Hl. exists r. split; [|by repeat split].
  by apply lookup_app_l_Some.
Qed.

Lemma merge_or_create_preserved (cfg : LearningConfig) (app_state : AppState)
    (uuid4 : string) (now : Z) (generated : GeneratedRule) (rules : list Rule) :
  preserved rules (merge_or_create cfg app_state uuid4 now generated rules).
Proof.
  unfold merge_or_create.
  destruct (_find_duplicate cfg app_state (rule generated) rules) as [[|c id]|].
  - apply append_preserved.
  - apply reinforce_rule_preserved.
  - apply append_preserved.
Qed.

Lemma update_rules_preserved (cfg : LearningConfig) (app_state : AppState)
    (env : Env) (generated : GeneratedRule) (rules : list Rule) :
  preserved rules (update_rules cfg app_state env generated rules).
Proof.
  eapply preserved_trans; [apply merge_or_create_preserved | apply run_lifecycle_preserved].
Qed.

(** A commit either answers [True], the store then holding the rules it
    was given, or answers [False], the store then holding what it held. *)
Lemma atomic_write_outcome (cfg : LearningConfig) (env : Env)
    (original_data : Document) (updated_rules : list Rule) (w : world Document) :
  let path := GUIDELINES_PATH cfg in
  let out := _atomic_write cfg env original_data updated_rules w in
  (fst out = Ok true
   /\ exists d, disk (snd out) !! path = Some (Parsed d) /\ d_rules d = Some updated_rules)
  \/ (fst out = Ok false /\ disk (snd out) !! path = disk w !! path).
Proof.
  intros path out.
  destruct (dumps_raises (io env)) eqn:Ed;
    [|destruct (loads_raises (io env)) eqn:El;
      [|destruct (temp_write (io env)) as [| |raw] eqn:Ew]].
  1,2,4,5: right;
    apply atomic_write_fails_keeps_store;
    unfold failed_before_rename; rewrite ?Ed, ?El, ?Ew;
    first [by left | by right; left | right; right; discriminate].
  subst out. unfold _atomic_write, try_except, write_and_rename, bind,
    json_dumps, json_loads, write_file, os_replace, change, ret, raise.
  rewrite Ed, El, Ew. simpl.
  pose proof (temp_path_ne path) as Hne.
  destruct (replace_raises (io env)).
  - right.
    match goal with |- context [clean_up env ?t ?w1] =>
      destruct (clean_up_spec env t w1) as (w2 & -> & Hkeep & _)
    end.
    simpl. split; [done|]. rewrite Hkeep by auto. simpl.
    by rewrite lookup_insert_ne.
  - left. cbn [disk history]. rewrite lookup_insert_eq. cbn [fst snd disk].
    split; [done|]. eexists. rewrite lookup_insert_eq. by split.
Qed.

Lemma process_keeps_store (cfg : LearningConfig) (app_state : AppState) (env : Env)
    (feedback_data : Feedback) (generated_rule : option GeneratedRule)
    (w : world Document) (d : Document) :
  disk w !! GUIDELINES_PATH cfg = Some (Parsed d) ->
  let out := _process cfg app_state env feedback_data generated_rule w in
  exists reloaded d',
    fst out = Ok reloaded
    /\ disk (snd out) !! GUIDELINES_PATH cfg = Some (Parsed d')
    /\ preserved (get (d_rules d) []) (get (d_rules d') []).
Proof.
  intros Hdisk out. subst out. unfold _process.
  assert (exists reloaded d',
             fst (ret (W := world Document) false w) = Ok reloaded
             /\ disk (snd (ret (W := world Document) false w)) !! GUIDELINES_PATH cfg
                = Some (Parsed d')
             /\ preserved (get (d_rules d) []) (get (d_rules d') [])) as Hskip.
  { exists false, d. split; [done|]. split; [done | apply preserved_refl]. }
  repeat match goal with
         | |- context [if ?b then ret false else _] => destruct b; [exact Hskip|]
         end.
  destruct generated_rule as [generated|]; [|exact Hskip].
  repeat match goal with
         | |- context [if ?b then ret false else _] => destruct b; [exact Hskip|]
         end.
  unfold bind, _read_guidelines_raw, try_except, read_json.
  rewrite Hdisk.
  set (rules' := update_rules cfg app_state env generated (get (d_rules d) [])).
  destruct (atomic_write_outcome cfg env d rules' w)
    as [[Hres (d' & Hstore & Hrules)]|[Hres Hstore]].
  - exists true, d'. split; [done|]. split; [done|].
    rewrite Hrules. apply update_rules_preserved.
  - exists false, d. split; [done|]. split; [by rewrite Hstore|].
    apply preserved_refl.
Qed.

(** C9.  Each operation of the write path keeps the audit trail: after
    reinforcement, after lifecycle maintenance, and after both together
    with the merge-or-create step, every record is still at its place
    with its id, a retired record is still retired and no record that was
    not active has become active; a commit stores exactly the rules it
    was given or leaves the store as it was; so one whole run of the
    pipeline over a store leaves a store whose rules keep the trail of
    the rules it found. *)
Theorem write_path_keeps_audit_trail (cfg : LearningConfig) (app_state : AppState)
    (env : Env) (now : Z) (id : string) (generated : GeneratedRule)
    (feedback_data : Feedback) (generated_rule : option GeneratedRule)
    (rules : list Rule) (w : world Document) (d : Document) :
  preserved rules (_reinforce_rule now rules id)
  /\ preserved rules (_run_lifecycle cfg now rules)
  /\ preserved rules (update_rules cfg app_state env generated rules)
  /\ (let out := _atomic_write cfg env d rules w in
      (fst out = Ok true
       /\ exists d', disk (snd out) !! GUIDELINES_PATH cfg = Some (Parsed d')
                     /\ d_rules d' = Some rules)
      \/ (fst out = Ok false
          /\ disk (snd out) !! GUIDELINES_PATH cfg = disk w !! GUIDELINES_PATH cfg))
  /\ (disk w !! GUIDELINES_PATH cfg = Some (Parsed d) ->
      let out := _process cfg app_state env feedback_data generated_rule w in
      exists reloaded d',
        fst out = Ok reloaded
        /\ disk (snd out) !! GUIDELINES_PATH cfg = Some (Parsed d')
        /\ preserved (get (d_rules d) []) (get (d_rules d') [])).
Proof.
  split; [apply reinforce_rule_preserved|].
  split; [apply run_lifecycle_preserved|].
  split; [apply update_rules_preserved|].
  split; [apply atomic_write_outcome | apply process_keeps_store].
Qed.

Lemma write_path_keeps_audit_trail_witness :
  let out := _process Samples.cfg_small Samples.without_service
               (Samples.env_with Samples.healthy_disk) Samples.hindi_feedback
               (Some Samples.hindi_rule) (Samples.world_with Samples.one_rule_store) in
  exists reloaded d',
    fst out = Ok reloaded
    /\ disk (snd out) !! Samples.store_path = Some (Parsed d')
    /\ preserved [Samples.old_rule] (get (d_rules d') []).
Proof.
  destruct (write_path_keeps_audit_trail Samples.cfg_small Samples.without_service
              (Samples.env_with Samples.healthy_disk) 0%Z "" Samples.hindi_rule
              Samples.hindi_feedback (Some Samples.hindi_rule) []
              (Samples.world_with Samples.one_rule_store) Samples.one_rule_store)
    as (_ & _ & _ & _ & Hrun).
  apply Hrun. reflexivity.
Defined.

End AuditTrail.

(** ** Rule selection *)

Section Selection.
Import GuidelinesManager.







(** The cache check never raises; it leaves the tier and the path alone;
    a missing file leaves the cache as it is, a corrupt one leaves it as
    it is on a manager that has loaded before and empties it on one that
    has not. *)
Lemma refresh_spec (disk : snapshot) (now : Q) (self : GuidelinesManager) :
  exists self',
    refresh disk now self = (Ok tt, self')
    /\ _model_size self' = _model_size self
    /\ _path self' = _path self
    /\ (disk !! _path self = None ->
        _active_rules self' = _active_rules self /\ _rules self' = _rules self)
    /\ (forall mtime raw,
          disk !! _path self = Some (mtime, NotJson raw) ->
          (_active_rules self' = _active_rules self /\ _rules self' = _rules self)
          \/ (_loaded self = false /\ _active_rules self' = [] /\ _rules self' = [])).
Proof.
  unfold refresh.
  destruct (Qle_bool (_cache_ttl self) (now - _last_check_time self)).
  2:{ exists self. repeat split; auto. }
  unfold bind, except_file_not_found, try_except, os_path_getmtime, ret, raise.
  destruct (disk !! _path self) as [[mtime f]|] eqn:Hdisk.
  2:{ eexists. split; [reflexivity|]. repeat split; intros; try discriminate; auto. }
  destruct (negb (Qeq_bool mtime (_last_mtime self))).
  2:{ eexists. split; [reflexivity|]. repeat split; intros; try discriminate; auto. }
  unfold _load, try_except, load_body. rewrite Hdisk.
  destruct f as [data|raw].
  - eexists. split; [reflexivity|]. repeat split; intros; discriminate.
  - destruct (_loaded self) eqn:Hloaded.
    + eexists. split; [reflexivity|]. repeat split; intros; try discriminate; auto.
    + eexists. split; [reflexivity|]. repeat split; intros; try discriminate.
      right. by repeat split.
Qed.

Lemma get_relevant_rules_run (disk : snapshot) (now : Q) (query_type : string)
    (token_budget : Z) (self : GuidelinesManager) :
  exists self',
    refresh disk now self = (Ok tt, self')
    /\ get_relevant_rules disk now query_type token_budget self
       = (Ok (select_rules (_model_size self) query_type token_budget
                (_active_rules self')), self').
Proof.
  destruct (refresh_spec disk now self) as (self' & Hrun & Hsize & _).
  exists self'. split; [done|].
  unfold get_relevant_rules, bind. by rewrite Hrun, Hsize.
Qed.



End Selection.

(** ** A missing or corrupt store *)

Section BadStore.
Import GuidelinesManager.

Lemma select_rules_nil (model_size query_type : string) (token_budget : Z) :
  select_rules model_size query_type token_budget [] = [].
Proof. reflexivity. Qed.

Lemma init_on_bad_store (guidelines_path model_name : string) (ttl : Q)
    (disk : snapshot) :
  (disk !! guidelines_path = None
   \/ exists mtime raw, disk !! guidelines_path = Some (mtime, NotJson raw)) ->
  _active_rules (__init__ guidelines_path model_name ttl disk) = []
  /\ _rules (__init__ guidelines_path model_name ttl disk) = [].
Proof.
  unfold __init__, _load, try_except, load_body. cbn [_path].
  intros [->|(mtime & raw & ->)]; by split.
Qed.

(** C8, as the code has it.  On a store file that is missing or corrupt,
    [get_relevant_rules] raises nothing and answers from the cache, which
    it leaves as it is (a corrupt file empties the cache of a manager
    that has never loaded).  The answer is the empty list whenever the
    cache holds no active rule, which is so for a manager that was
    started on a missing or corrupt store and stays so, call after call,
    as long as the store stays missing or corrupt. *)
Theorem get_relevant_rules_tolerates_bad_store (disk : snapshot) (now : Q)
    (query_type : string) (token_budget : Z) (self : GuidelinesManager) :
  (disk !! _path self = None
   \/ exists mtime raw, disk !! _path self = Some (mtime, NotJson raw)) ->
  let out := get_relevant_rules disk now query_type token_budget self in
  let self' := snd out in
  fst out = Ok (select_rules (_model_size self) query_type token_budget
                  (_active_rules self'))
  /\ _path self' = _path self
  /\ ((_active_rules self' = _active_rules self /\ _rules self' = _rules self)
      \/ (_loaded self = false /\ _active_rules self' = [] /\ _rules self' = []))
  /\ (_active_rules self = [] -> fst out = Ok [] /\ _active_rules self' = [])
  /\ (forall model_name ttl,
        _active_rules (__init__ (_path self) model_name ttl disk) = []).
Proof.
  intros Hbad out self'. subst self' out.
  destruct (get_relevant_rules_run disk now query_type token_budget self)
    as (self' & Hrefresh & ->).
  destruct (refresh_spec disk now self) as (self2 & Hrefresh2 & _ & Hpath & Hmiss & Hcorrupt).
  rewrite Hrefresh in Hrefresh2. injection Hrefresh2 as <-.
  cbn [fst snd].
  assert ((_active_rules self' = _active_rules self /\ _rules self' = _rules self)
          \/ (_loaded self = false /\ _active_rules self' = [] /\ _rules self' = []))
    as Hcache.
  { destruct Hbad as [Hnone|(mtime & raw & Hraw)]; [left; auto | eauto]. }
  split; [done|]. split; [done|]. split; [exact Hcache|]. split.
  - intros Hempty.
    assert (_active_rules self' = []) as Hempty'.
    { destruct Hcache as [[-> _]|(_ & -> & _)]; done. }
    by rewrite Hempty'.
  - intros model_name ttl. by apply init_on_bad_store.
Qed.

Lemma get_relevant_rules_tolerates_bad_store_witness :
  fst (get_relevant_rules Samples.corrupt_disk 100 "general" 150
         (__init__ Samples.store_path "gemma3:4b" 60 Samples.corrupt_disk))
  = Ok [].
Proof.
  assert (Samples.corrupt_disk !! Samples.store_path
          = Some (2%Q, NotJson "{ rules: [")) as Hdisk by (by vm_compute).
  destruct (get_relevant_rules_tolerates_bad_store Samples.corrupt_disk 100
              "general" 150
              (__init__ Samples.store_path "gemma3:4b" 60 Samples.corrupt_disk))
    as (_ & _ & _ & Hempty & _).
  - right. exists 2%Q, "{ rules: [". exact Hdisk.
  - apply Hempty. reflexivity.
Defined.

(** C8, as the specification has it, fails: a manager that has loaded
    rules goes on serving them when the file disappears. *)
Lemma missing_store_keeps_cache :
  ~ (forall disk now query_type token_budget self,
        disk !! _path self = None ->
        fst (get_relevant_rules disk now query_type token_budget self) = Ok []).
Proof.
  intros H.
  assert ((∅ : snapshot) !! _path Samples.long_manager = None) as Hgone
    by apply lookup_empty.
  pose proof (H ∅ 100%Q "general" 150%Z Samples.long_manager Hgone) as Hrun.
  vm_compute in Hrun. discriminate.
Qed.

End BadStore.

(** ** The schema migrator *)

Section SchemaMigration.
Import Migration.

Lemma try_pass_ok {W : Type} (m : M W unit) (w : W) :
  exists w', try_pass m w = (Ok tt, w').
Proof.
  unfold try_pass, try_except, ret.
  destruct (m w) as [[[]|e] w']; by eexists.
Qed.

Lemma on_failure_ok (env : Env) (guidelines_path : string)
    (backup_path : option string) (w : world json) :
  exists w', on_failure env guidelines_path backup_path w = (Ok tt, w').
Proof.
  unfold on_failure, bind.
  match goal with |- context [try_pass ?m w] =>
    destruct (try_pass_ok m w) as (w1 & ->) end.
  match goal with |- context [try_pass ?m w1] =>
    destruct (try_pass_ok m w1) as (w2 & ->) end.
  apply try_pass_ok.
Qed.

Lemma run_schema_migration_never_raises (guidelines_path : string)
    (embedding_manager : option EmbeddingManager.EmbeddingManager)
    (env : Env) (w : world json) :
  fst (run_schema_migration guidelines_path embedding_manager env w) = Ok tt.
Proof.
  unfold run_schema_migration, bind, try_except, ret.
  destruct (check_and_read env guidelines_path w) as [[[|existing]|e] w1].
  - done.
  - match goal with |- context [migrate ?a ?b ?c ?d ?e ?f w1] =>
      destruct (migrate a b c d e f w1) as [[[]|e'] w2] end; [done|].
    destruct (on_failure_ok env guidelines_path
                (Some (backup_path_of guidelines_path (local_ts env))) w2)
      as (w3 & ->). done.
  - destruct (on_failure_ok env guidelines_path None w1) as (w2 & ->). done.
Qed.

Lemma bind_ok {W A B : Type} (m : M W A) (k : A -> M W B) (w w' : W) (b : B) :
  bind m k w = (Ok b, w') ->
  exists a w1, m w = (Ok a, w1) /\ k a w1 = (Ok b, w').
Proof.
  unfold bind. destruct (m w) as [[a|e] w1]; [|discriminate].
  intros H. by exists a, w1.
Qed.

Lemma lift_ok {W A : Type} (r : result A) (w w' : W) (a : A) :
  lift r w = (Ok a, w') -> r = Ok a /\ w' = w.
Proof. unfold lift. by intros [= -> ->]. Qed.

Lemma validate_v2 (test : json) :
  validate test = Ok tt ->
  exists kv, test = JDict kv
             /\ is_v2 (get (lookup_key kv "schema_version") JNull) = true.
Proof.
  unfold validate, py_get. destruct test as [| | | | |kv]; try discriminate.
  destruct (is_v2 (get (lookup_key kv "schema_version") JNull)) eqn:E;
    [|discriminate].
  intros _. by exists kv.
Qed.

(** A store of version 2 is left alone. *)
Lemma migration_skips_v2 (guidelines_path : string)
    (embedding_manager : option EmbeddingManager.EmbeddingManager)
    (env : Env) (w : world json) :
  holds_v2 (disk w) guidelines_path ->
  run_schema_migration guidelines_path embedding_manager env w = (Ok tt, w).
Proof.
  intros (kv & Hdisk & Hv2).
  assert (os_path_exists guidelines_path w = (Ok true, w)) as Hex.
  { unfold os_path_exists. by rewrite bool_decide_true by (by rewrite Hdisk). }
  assert (read_json guidelines_path w = (Ok (JDict kv), w)) as Hrd.
  { unfold read_json. by rewrite Hdisk. }
  unfold run_schema_migration, check_and_read.
  unfold bind at 1. unfold try_except at 1. unfold bind at 1.
  rewrite Hex. cbv beta iota.
  unfold bind at 1. unfold except_json_decode_error, try_except at 1.
  unfold bind at 1. rewrite Hrd. cbv beta iota.
  unfold bind at 1. unfold lift, py_get. cbv beta iota. rewrite Hv2.
  reflexivity.
Qed.

(** The last-resort write, when it succeeds, leaves a store of version 2. *)
Lemma on_failure_v2 (env : Env) (guidelines_path : string)
    (backup_path : option string) (w : world json) :
  fallback_write env = Written ->
  holds_v2 (disk (snd (on_failure env guidelines_path backup_path w))) guidelines_path.
Proof.
  intros Hw. unfold on_failure, bind.
  match goal with |- context [try_pass ?m w] =>
    destruct (try_pass_ok m w) as (w1 & ->) end.
  match goal with |- context [try_pass ?m w1] =>
    destruct (try_pass_ok m w1) as (w2 & ->) end.
  rewrite Hw. unfold try_pass, try_except, write_file, change. cbn [snd disk].
  eexists. rewrite lookup_insert_eq. split; reflexivity.
Qed.

Lemma check_and_read_return (env : Env) (path : string) (w w' : world json) :
  check_and_read env path w = (Ok Return, w') -> holds_v2 (disk w') path.
Proof.
  unfold check_and_read.
  destruct (disk w !! path) as [[existing|raw]|] eqn:Hdisk.
  - assert (os_path_exists path w = (Ok true, w)) as Hex.
    { unfold os_path_exists. by rewrite bool_decide_true by (by rewrite Hdisk). }
    assert (read_json path w = (Ok existing, w)) as Hrd.
    { unfold read_json. by rewrite Hdisk. }
    unfold bind at 1. rewrite Hex. cbv beta iota.
    unfold bind at 1. unfold except_json_decode_error, try_except at 1.
    unfold bind at 1. rewrite Hrd. cbv beta iota.
    unfold bind at 1. unfold lift, py_get.
    destruct existing as [| | | | |kv]; try discriminate.
    destruct (is_v2 (get (lookup_key kv "schema_version") JNull)) eqn:Hv2;
      [|discriminate].
    intros [= <-]. by exists kv.
  - assert (os_path_exists path w = (Ok true, w)) as Hex.
    { unfold os_path_exists. by rewrite bool_decide_true by (by rewrite Hdisk). }
    assert (read_json path w = (Raise JSONDecodeError, w)) as Hrd.
    { unfold read_json. by rewrite Hdisk. }
    unfold bind at 1. rewrite Hex. cbv beta iota.
    unfold bind at 1. unfold except_json_decode_error, try_except at 1.
    unfold bind at 1. rewrite Hrd. cbv beta iota.
    unfold ret at 1. cbv beta iota.
    unfold bind at 1. rewrite Hex. cbv beta iota. discriminate.
  - assert (os_path_exists path w = (Ok false, w)) as Hex.
    { unfold os_path_exists.
      by rewrite bool_decide_false by (rewrite Hdisk; intros [? ?]; congruence). }
    unfold bind at 1. rewrite Hex. cbv beta iota.
    unfold bind at 1. unfold ret at 1. cbv beta iota.
    unfold bind at 1. rewrite Hex. cbv beta iota.
    unfold bind, write_file, change, raise, ret.
    destruct (create_write env); try discriminate.
    intros [= <-]. cbn [disk]. eexists. rewrite lookup_insert_eq.
    split; reflexivity.
Qed.

Lemma migrate_ok (embedding_manager : option EmbeddingManager.EmbeddingManager)
    (env : Env) (path temp_path backup_path : string) (existing : json)
    (w w' : world json) :
  migrate embedding_manager env path temp_path backup_path existing w = (Ok tt, w') ->
  holds_v2 (disk w') path.
Proof.
  unfold migrate. intros H.
  apply bind_ok in H as (_ & w1 & _ & H).
  apply bind_ok in H as (rules_default & w2 & _ & H).
  apply bind_ok in H as (old_rules_raw & w3 & _ & H).
  apply bind_ok in H as (entries & w4 & _ & H).
  apply bind_ok in H as (migrated_rules & w5 & _ & H).
  apply bind_ok in H as (json_str & w6 & _ & H).
  apply bind_ok in H as (_ & w7 & _ & H).
  apply bind_ok in H as (test & w8 & Hread & H).
  apply bind_ok in H as ([] & w9 & Hvalid & H).
  unfold read_json in Hread.
  destruct (disk w7 !! temp_path) as [[a|raw]|] eqn:Htemp; try discriminate.
  injection Hread as Ha Hw. subst a w8.
  apply lift_ok in Hvalid as [Hvalid Hw]. subst w9.
  apply validate_v2 in Hvalid as (kv & Htest & Hv2). subst test.
  unfold os_replace in H. destruct (replace_raises env); [discriminate|].
  rewrite Htemp in H. unfold change in H. injection H as <-. cbn [disk].
  exists kv. by rewrite lookup_insert_eq.
Qed.

(** Whatever the store held, a run whose last-resort write would succeed
    ends with a store of version 2. *)
Lemma migration_leaves_v2 (guidelines_path : string)
    (embedding_manager : option EmbeddingManager.EmbeddingManager)
    (env : Env) (w : world json) :
  fallback_write env = Written ->
  holds_v2 (disk (snd (run_schema_migration guidelines_path embedding_manager env w)))
    guidelines_path.
Proof.
  intros Hw. unfold run_schema_migration, bind, try_except, ret.
  destruct (check_and_read env guidelines_path w) as [[[|existing]|e] w1] eqn:Hcheck.
  - cbn [snd]. by eapply check_and_read_return.
  - match goal with |- context [migrate ?a ?b ?c ?d ?e ?f w1] =>
      destruct (migrate a b c d e f w1) as [[[]|e'] w2] eqn:Hmig end.
    + cbn [snd]. by eapply migrate_ok.
    + by apply on_failure_v2.
  - pose proof (on_failure_v2 env guidelines_path None w1 Hw) as Hv2.
    destruct (on_failure env guidelines_path None w1) as [[[]|e'] w2]; exact Hv2.
Qed.

(** C7.  A store that is present with schema version "2.0" stops the
    migrator at once: the run returns normally and changes nothing on
    the disk.  So a second run after a first one that left such a store
    (as every run does whose last-resort write, if it comes to that,
    succeeds) finds the disk as the first run left it and leaves it so. *)
Theorem schema_migration_idempotent (guidelines_path : string)
    (embedding_manager : option EmbeddingManager.EmbeddingManager)
    (env env' : Env) (w : world json) :
  (holds_v2 (disk w) guidelines_path ->
   run_schema_migration guidelines_path embedding_manager env w = (Ok tt, w))
  /\ (fallback_write env = Written ->
      let first := snd (run_schema_migration guidelines_path embedding_manager env w) in
      holds_v2 (disk first) guidelines_path
      /\ run_schema_migration guidelines_path embedding_manager env' first
         = (Ok tt, first)).
Proof.
  split; [apply migration_skips_v2|].
  intros Hw first.
  assert (holds_v2 (disk first) guidelines_path) as Hv2
    by (by apply migration_leaves_v2).
  split; [exact Hv2 | by apply migration_skips_v2].
Qed.

Lemma schema_migration_idempotent_witness :
  let first := snd (run_schema_migration Samples.store_path None Samples.calm
                      Samples.plain_world) in
  run_schema_migration Samples.store_path None Samples.calm first = (Ok tt, first).
Proof.
  destruct (schema_migration_idempotent Samples.store_path None Samples.calm
              Samples.calm Samples.plain_world) as [_ Htwice].
  destruct (Htwice eq_refl) as [_ Hsecond]. exact Hsecond.
Defined.

(** C6, on the code.  The migrator never raises.  But after a migration
    that fails and a restoration from the backup that succeeds, the
    last-resort write still takes place: on a legacy store whose entry
    has a number for its rule text, the backup is written, the store is
    restored from it, and the store is then overwritten with an empty
    document of version 2. *)
Theorem failed_migration_overwrites_restored_backup :
  (forall guidelines_path embedding_manager env w,
      fst (run_schema_migration guidelines_path embedding_manager env w) = Ok tt)
  /\ (let out := run_schema_migration Samples.store_path None Samples.calm
                   Samples.legacy_world in
      let backup := backup_path_of Samples.store_path (local_ts Samples.calm) in
      disk (snd out) !! backup = Some (Parsed Samples.legacy_store)
      /\ (exists restored,
            head (history (snd out)) = Some restored
            /\ restored !! Samples.store_path = Some (Parsed Samples.legacy_store))
      /\ disk (snd out) !! Samples.store_path
         = Some (Parsed (empty_v2 (now_fallback Samples.calm)))
      /\ disk (snd out) !! Samples.store_path <> Some (Parsed Samples.legacy_store)).
Proof.
  split; [apply run_schema_migration_never_raises|].
  split; [by vm_compute|]. split; [|split].
  - eexists. split; [by vm_compute|]. by vm_compute.
  - by vm_compute.
  - vm_compute. discriminate.
Qed.

End SchemaMigration.

(* ===================================================================== *)
(** * Further properties of the modelled code *)
(* ===================================================================== *)

(** ** Which paths an operation can touch *)

Section Confinement.
Context {A : Type}.
Implicit Types (S : string -> Prop) (w : world A).

Lemma confined_ret S {B : Type} (b : B) : confined (A := A) S (ret b).
Proof. by intros w p _. Qed.

Lemma confined_raise S {B : Type} (e : exn) : confined (A := A) S (raise (A := B) e).
Proof. by intros w p _. Qed.

Lemma confined_lift S {B : Type} (r : result B) : confined (A := A) S (lift r).
Proof. by intros w p _. Qed.

Lemma confined_bind S {B C : Type} (m : M (world A) B) (k : B -> M (world A) C) :
  confined S m -> (forall b, confined S (k b)) -> confined S (bind m k).
Proof.
  intros Hm Hk w p Hp. unfold bind.
  specialize (Hm w p Hp). destruct (m w) as [[b|e] w1]; simpl in *; [|done].
  by rewrite (Hk b w1 p Hp).
Qed.

Lemma confined_try_except S {B : Type} (m : M (world A) B) (h : exn -> M (world A) B) :
  confined S m -> (forall e, confined S (h e)) -> confined S (try_except m h).
Proof.
  intros Hm Hh w p Hp. unfold try_except.
  specialize (Hm w p Hp). destruct (m w) as [[b|e] w1]; simpl in *; [done|].
  by rewrite (Hh e w1 p Hp).
Qed.

Lemma confined_try_pass S (m : M (world A) unit) :
  confined S m -> confined S (try_pass m).
Proof. intros Hm. apply confined_try_except; [done | intros e; apply confined_ret]. Qed.

Lemma confined_exists S (path : string) : confined (A := A) S (os_path_exists path).
Proof. by intros w p _. Qed.

Lemma confined_read_json S (path : string) : confined (A := A) S (read_json path).
Proof. intros w p _. unfold read_json. by destruct (disk w !! path) as [[a|raw]|]. Qed.

Lemma confined_dumps S (fails : bool) (data : A) : confined S (json_dumps fails data).
Proof. intros w p _. unfold json_dumps. by destruct fails. Qed.

Lemma confined_loads S (fails : bool) (text : file A) : confined S (json_loads fails text).
Proof. intros w p _. unfold json_loads. by destruct fails, text. Qed.

Lemma confined_write_file S (outcome : write_outcome) (path : string) (text : file A) :
  S path -> confined S (write_file outcome path text).
Proof.
  intros HS w p Hp. unfold write_file, change, bind, raise.
  destruct outcome as [| |raw]; simpl; [|done|];
    apply lookup_insert_ne; by intros ->.
Qed.

Lemma confined_replace S (fails : bool) (src dst : string) :
  S src -> S dst -> confined (A := A) S (os_replace fails src dst).
Proof.
  intros Hsrc Hdst w p Hp. unfold os_replace, change, raise.
  destruct fails; [done|]. destruct (disk w !! src); [|done]. simpl.
  rewrite lookup_insert_ne by (by intros ->).
  apply lookup_delete_ne. by intros ->.
Qed.

Lemma confined_remove S (fails : bool) (path : string) :
  S path -> confined (A := A) S (os_remove fails path).
Proof.
  intros HS w p Hp. unfold os_remove, change, raise.
  destruct fails; [done|]. destruct (disk w !! path); [|done]. simpl.
  apply lookup_delete_ne. by intros ->.
Qed.

Lemma confined_copy2 S (outcome : write_outcome) (src dst : string) :
  S dst -> confined (A := A) S (shutil_copy2 outcome src dst).
Proof.
  intros HS w p Hp. unfold shutil_copy2.
  destruct (disk w !! src) as [c|]; [|done].
  by apply (confined_write_file S outcome dst c HS w p).
Qed.

End Confinement.

(** ** The write path: gate, commit and store *)

Section WritePath.
Import Reflector EmbeddingManager.

Lemma existsb_eqb_In (x : string) (l : list string) :
  existsb (String.eqb x) l = true <-> In x l.
Proof.
  rewrite existsb_exists. split.
  - by intros (y & Hin & ->%String.eqb_eq).
  - intros Hin. exists x. split; [done | apply String.eqb_refl].
Qed.

(** X1.  A feedback event that is stopped by the quality gate, for which no
    rule could be generated, or whose generated rule fails the validation,
    ends the run at once: nothing is raised, [force_reload] is not
    called, and the disk is neither written nor even read. *)
Theorem process_rejects_quietly (cfg : LearningConfig) (app_state : AppState)
    (env : Env) (feedback_data : Feedback) (generated_rule : option GeneratedRule)
    (w : world Document) :
  (~ passes_gate cfg feedback_data
   \/ generated_rule = None
   \/ exists generated,
        generated_rule = Some generated /\ ~ passes_validation cfg generated) ->
  _process cfg app_state env feedback_data generated_rule w = (Ok false, w).
Proof.
  intros Hrej. unfold _process.
  destruct (String.length (Py.strip (query feedback_data))
            <? REFLECTION_MIN_QUERY_LEN cfg)%nat eqn:Eq; [done|].
  destruct (String.length (Py.strip (response feedback_data))
            <? REFLECTION_MIN_RESPONSE_LEN cfg)%nat eqn:Er; [done|].
  destruct (existsb (String.eqb (Py.lower (feedback_type feedback_data)))
              negative_signals) eqn:Et; [|done].
  apply Nat.ltb_ge in Eq, Er. apply existsb_eqb_In in Et. simpl negb. cbv iota.
  destruct Hrej as [Hgate|[->|(generated & -> & Hval)]]; [|done|].
  { exfalso. apply Hgate. by repeat split. }
  destruct (Qle_bool (REFLECTION_MIN_CONFIDENCE cfg) (confidence_in_rule generated))
    eqn:Ec; [|done].
  destruct ((15 <=? length (Py.split (rule generated)))%nat
            && (length (Py.split (rule generated)) <=? 150)%nat) eqn:Ew; [|done].
  destruct (length (Py.split (source_summary generated)) <? 5)%nat eqn:Es; [done|].
  exfalso. apply Hval.
  apply Qle_bool_iff in Ec. apply andb_prop in Ew as [E1 E2].
  apply Nat.leb_le in E1, E2. apply Nat.ltb_ge in Es. by repeat split.
Qed.

Lemma process_rejects_quietly_witness :
  _process Samples.cfg_small Samples.without_service
    (Samples.env_with Samples.healthy_disk)
    {| query := "  Hi  "; response := "Hello there, how are you?";
       feedback_type := "thumbs_down" |}
    (Some Samples.hindi_rule) (Samples.world_with Samples.one_rule_store)
  = (Ok false, Samples.world_with Samples.one_rule_store).
Proof.
  apply process_rejects_quietly. left. intros (Hq & _). vm_compute in Hq. lia.
Defined.

(** Past the gate and the validation, the run is the read of the store
    followed by the commit of the updated rules. *)
Lemma process_accepted (cfg : LearningConfig) (app_state : AppState)
    (env : Env) (feedback_data : Feedback) (generated : GeneratedRule)
    (w : world Document) :
  passes_gate cfg feedback_data -> passes_validation cfg generated ->
  _process cfg app_state env feedback_data (Some generated) w
  = (let! current_data := _read_guidelines_raw cfg in
     _atomic_write cfg env current_data
       (update_rules cfg app_state env generated (get (d_rules current_data) []))) w.
Proof.
  intros (Hq & Hr & Ht) (Hc & [Hw1 Hw2] & Hs). unfold _process.
  rewrite (proj2 (Nat.ltb_ge _ _) Hq), (proj2 (Nat.ltb_ge _ _) Hr).
  rewrite (proj2 (existsb_eqb_In _ _) Ht). simpl negb. cbv iota.
  rewrite (proj2 (Qle_bool_iff _ _) Hc).
  rewrite (proj2 (Nat.leb_le _ _) Hw1), (proj2 (Nat.leb_le _ _) Hw2).
  rewrite (proj2 (Nat.ltb_ge _ _) Hs). reflexivity.
Qed.

(** [_read_guidelines_raw] raises nothing and changes nothing; it answers
    with the document of the store, and with an empty document of
    version 2 when the file is missing or is not JSON. *)
Lemma read_guidelines_raw_total (cfg : LearningConfig) (w : world Document) :
  _read_guidelines_raw cfg w
  = (Ok (match disk w !! GUIDELINES_PATH cfg with
         | Some (Parsed d) => d
         | _ => Reflector.empty_v2
         end), w).
Proof.
  unfold _read_guidelines_raw, try_except, read_json, ret.
  by destruct (disk w !! GUIDELINES_PATH cfg) as [[d|raw]|].
Qed.

End WritePath.

(** ** The commit: what a reader of the store can see *)

Section Commit.
Import Reflector EmbeddingManager.

(** X2.  The write path touches two paths at most, whatever fails and whatever
    the feedback is: the store and its temporary file.  Every other file
    of the disk is after [_atomic_write], and after [_process], what it
    was before. *)
Theorem write_path_is_confined (cfg : LearningConfig) (app_state : AppState)
    (env : Env) (original_data : Document) (updated_rules : list Rule)
    (feedback_data : Feedback) (generated_rule : option GeneratedRule) :
  confined (store_paths cfg) (_atomic_write cfg env original_data updated_rules)
  /\ confined (store_paths cfg)
       (_process cfg app_state env feedback_data generated_rule).
Proof.
  assert (forall d rules, confined (store_paths cfg) (_atomic_write cfg env d rules))
    as Hwrite.
  { intros d rules. unfold _atomic_write, write_and_rename, clean_up.
    apply confined_try_except.
    - apply confined_bind; [apply confined_dumps|]. intros json_str.
      apply confined_bind; [apply confined_loads|]. intros test_parse.
      apply confined_bind.
      { destruct (d_rules test_parse); [apply confined_ret | apply confined_raise]. }
      intros _. apply confined_bind; [apply confined_write_file; by right|].
      intros _. apply confined_bind; [apply confined_replace; [by right | by left]|].
      intros _. apply confined_ret.
    - intros e. apply confined_bind; [|intros; apply confined_ret].
      apply confined_try_pass, confined_bind; [apply confined_exists|].
      intros [|]; [apply confined_remove; by right | apply confined_ret]. }
  split; [apply Hwrite|].
  unfold _process.
  repeat match goal with
         | |- context [if ?b then ret false else _] =>
             destruct b; [apply confined_ret|]
         end.
  destruct generated_rule as [generated|]; [|apply confined_ret].
  repeat match goal with
         | |- context [if ?b then ret false else _] =>
             destruct b; [apply confined_ret|]
         end.
  apply confined_bind; [|intros current_data; apply Hwrite].
  unfold _read_guidelines_raw.
  apply confined_try_except; [apply confined_read_json | intros; apply confined_ret].
Qed.

(** X3.  When no step of the commit fails, [_atomic_write] answers [True]; the
    store then holds the new document, which carries version 2.0, the time
    of the write, the rules it was given and every other top-level key of
    the document it was given; the temporary file is gone; and reading the
    store back with [_read_guidelines_raw] gives that document. *)
Theorem atomic_write_commits (cfg : LearningConfig) (env : Env)
    (original_data : Document) (updated_rules : list Rule) (w : world Document) :
  commits (io env) ->
  let path := GUIDELINES_PATH cfg in
  let new := updated_data env original_data updated_rules in
  let out := _atomic_write cfg env original_data updated_rules w in
  fst out = Ok true
  /\ disk (snd out) = <[path := Parsed new]> (delete (temp_path_of path) (disk w))
  /\ fst (_read_guidelines_raw cfg (snd out)) = Ok new.
Proof.
  intros (Hd & Hl & Hw & Hr) path new out.
  assert (out = (Ok true,
                 {| disk := <[path := Parsed new]> (delete (temp_path_of path) (disk w));
                    history := <[temp_path_of path := Parsed new]> (disk w)
                               :: disk w :: history w |})) as ->.
  { subst out. unfold _atomic_write, try_except, write_and_rename, bind,
      json_dumps, json_loads, write_file, os_replace, change, ret, raise.
    rewrite Hd, Hl, Hw, Hr. simpl. fold path. fold (updated_data env original_data updated_rules).
    fold new. rewrite lookup_insert_eq. simpl. by rewrite delete_insert_eq. }
  split; [done|]. split; [done|].
  rewrite read_guidelines_raw_total. simpl. fold path. by rewrite lookup_insert_eq.
Qed.

Lemma atomic_write_commits_witness :
  let out := _atomic_write Samples.cfg_small (Samples.env_with Samples.healthy_disk)
               Samples.one_rule_store [] (Samples.world_with Samples.one_rule_store) in
  fst out = Ok true
  /\ fst (_read_guidelines_raw Samples.cfg_small (snd out))
     = Ok (updated_data (Samples.env_with Samples.healthy_disk) Samples.one_rule_store []).
Proof.
  destruct (atomic_write_commits Samples.cfg_small (Samples.env_with Samples.healthy_disk)
              Samples.one_rule_store [] (Samples.world_with Samples.one_rule_store))
    as (Hres & _ & Hread).
  { by repeat split. }
  by split.
Defined.

(** X4.  Whatever fails, a reader of the store path sees one change at most,
    and a complete one: in every state the disk goes through during
    [_atomic_write] the store holds what it held before, and in the state
    it ends in the store holds either that or the whole new document. *)
Theorem atomic_write_is_one_step (cfg : LearningConfig) (env : Env)
    (original_data : Document) (updated_rules : list Rule) (w : world Document) :
  let path := GUIDELINES_PATH cfg in
  let out := _atomic_write cfg env original_data updated_rules w in
  (exists states,
      history (snd out) = (states ++ history w)%list
      /\ Forall (fun d => d !! path = disk w !! path) states)
  /\ (disk (snd out) !! path = disk w !! path
      \/ disk (snd out) !! path
         = Some (Parsed (updated_data env original_data updated_rules))).
Proof.
  intros path out.
  pose proof (temp_path_ne path) as Hne.
  destruct (dumps_raises (io env)) eqn:Ed;
    [|destruct (loads_raises (io env)) eqn:El;
      [|destruct (temp_write (io env)) as [| |raw] eqn:Ew]].
  1,2,4,5:
    assert (failed_before_rename (io env)) as Hfail
      by (unfold failed_before_rename; rewrite ?Ed, ?El, ?Ew;
          first [by left | by right; left | right; right; discriminate]);
    subst out; unfold _atomic_write, try_except;
    destruct (write_and_rename_fails cfg env original_data updated_rules w Hfail)
      as (e & w1 & -> & Hkeep1 & Hhist1);
    fold path in Hkeep1 |- *;
    destruct (clean_up_spec env (temp_path_of path) w1)
      as (w2 & -> & Hkeep2 & _ & Hhist2);
    cbn [fst snd];
    assert (disk w1 !! path = disk w !! path) as H1 by (apply Hkeep1; auto);
    (split; [|left; rewrite Hkeep2; auto]);
    destruct Hhist1 as [[Hd1 Hh1]|Hh1], Hhist2 as [[Hd2 Hh2]|Hh2];
    [ exists []
    | exists [disk w1]
    | exists [disk w]
    | exists [disk w1; disk w] ];
    (split; [simpl; congruence | by repeat constructor]).
  subst out. unfold _atomic_write, try_except, write_and_rename, bind,
    json_dumps, json_loads, write_file, os_replace, change, ret, raise.
  rewrite Ed, El, Ew. simpl. fold path.
  fold (updated_data env original_data updated_rules).
  destruct (replace_raises (io env)).
  - match goal with |- context [clean_up env ?t ?w1] =>
      destruct (clean_up_spec env t w1) as (w2 & -> & Hkeep & _ & Hhist)
    end.
    cbn [fst snd disk history] in *. split.
    + destruct Hhist as [[_ Hh] | Hh]; rewrite Hh; simpl.
      * exists [disk w]. split; [done|]. by repeat constructor.
      * eexists [_; disk w]. split; [done|].
        repeat constructor. by rewrite lookup_insert_ne.
    + left. rewrite Hkeep by auto. by rewrite lookup_insert_ne.
  - cbn [disk history]. rewrite lookup_insert_eq. cbn [fst snd disk history]. split.
    + eexists [_; disk w]. split; [done|].
      repeat constructor. by rewrite lookup_insert_ne.
    + right. by rewrite lookup_insert_eq.
Qed.

End Commit.

(** ** Lifecycle maintenance, once more *)

Section LifecycleAgain.
Import Reflector EmbeddingManager.

Lemma retirement_check_idem (now : Z) (r : Rule) :
  retirement_check now (retirement_check now r) = retirement_check now r.
Proof.
  destruct (is_active r) eqn:Ea.
  - destruct (stale now r) eqn:Es.
    + by rewrite (retirement_check_stale now r Ea Es).
    + by rewrite !(retirement_check_fresh now r Es).
  - assert (retirement_check now r = r) as Hr
      by (unfold retirement_check; by rewrite Ea).
    by rewrite !Hr.
Qed.

(** What one record looks like after the lifecycle: as it was, or with its
    status set to retired, which happens to active records only. *)
Lemma run_lifecycle_lookup (cfg : LearningConfig) (now : Z) (rules : list Rule)
    (i : nat) (r : Rule) :
  rules !! i = Some r ->
  _run_lifecycle cfg now rules !! i = Some r
  \/ (is_active r = true /\ _run_lifecycle cfg now rules !! i = Some (retire r)).
Proof.
  intros Hl. unfold _run_lifecycle.
  assert (map (retirement_check now) rules !! i = Some (retirement_check now r)) as Hc.
  { by rewrite lookup_map, Hl. }
  destruct (is_active r) eqn:Ea.
  - destruct (stale now r) eqn:Es.
    + rewrite (retirement_check_stale now r Ea Es) in Hc.
      destruct (enforce_cap_lookup (cap cfg) _ i _ Hc) as [[_ H]|(_ & Ha & _)];
        [by right | discriminate].
    + rewrite (retirement_check_fresh now r Es) in Hc.
      destruct (enforce_cap_lookup (cap cfg) _ i _ Hc) as [[_ H]|(_ & _ & H)];
        [by left | by right].
  - assert (retirement_check now r = r) as Hr
      by (unfold retirement_check; by rewrite Ea).
    rewrite Hr in Hc.
    destruct (enforce_cap_lookup (cap cfg) _ i _ Hc) as [[_ H]|(_ & Ha & _)];
      [by left | congruence].
Qed.

(** X5.  [_run_lifecycle] neither adds, nor removes, nor moves a record, and the
    only thing it ever changes in a record is the status of an active one,
    which it sets to retired: every other field of every record, and every
    record that is not active, comes back as it went in. *)
Theorem run_lifecycle_changes_status_only (cfg : LearningConfig) (now : Z)
    (rules : list Rule) :
  let result := _run_lifecycle cfg now rules in
  length result = length rules
  /\ forall i r,
       rules !! i = Some r ->
       result !! i = Some r
       \/ (is_active r = true /\ result !! i = Some (retire r)).
Proof.
  intros result. split.
  - unfold result, _run_lifecycle. by rewrite enforce_cap_length, length_map.
  - apply run_lifecycle_lookup.
Qed.

(** X6.  Running the lifecycle a second time at the same instant changes
    nothing: what was stale is already retired, and the active count is
    already within the cap. *)
Theorem run_lifecycle_idempotent (cfg : LearningConfig) (now : Z) (rules : list Rule) :
  _run_lifecycle cfg now (_run_lifecycle cfg now rules) = _run_lifecycle cfg now rules.
Proof.
  unfold _run_lifecycle.
  set (checked := map (retirement_check now) rules).
  assert (map (retirement_check now) (enforce_cap (cap cfg) checked)
          = enforce_cap (cap cfg) checked) as ->.
  { apply list_eq. intros i. rewrite lookup_map.
    destruct (checked !! i) as [x|] eqn:Ex.
    - assert (retirement_check now x = x) as Hx.
      { unfold checked in Ex. rewrite lookup_map in Ex.
        destruct (rules !! i) as [r|]; [|discriminate].
        injection Ex as <-. apply retirement_check_idem. }
      destruct (enforce_cap_lookup (cap cfg) checked i x Ex) as [[_ H]|(_ & _ & H)];
        rewrite H; simpl; f_equal; done.
    - assert (enforce_cap (cap cfg) checked !! i = None) as ->; [|done].
      apply lookup_ge_None. rewrite enforce_cap_length. by apply lookup_ge_None. }
  apply enforce_cap_under. rewrite enforce_cap_count. lia.
Qed.

End LifecycleAgain.

(** ** Confidence stays a weight *)

Section Confidence.
Import Reflector EmbeddingManager.

Lemma round_half_even_le (x : Q) (k : Z) :
  (x <= inject_Z k)%Q -> (round_half_even x <= k)%Z.
Proof.
  intros Hx. unfold round_half_even.
  pose proof (Qfloor_le x) as Hlo.
  assert (Qfloor x <= k)%Z as Hf.
  { rewrite <- (Qfloor_Z k). by apply Qfloor_resp_le. }
  assert ((1 # 2 <= x - inject_Z (Qfloor x))%Q -> (Qfloor x + 1 <= k)%Z) as Hup.
  { intros Hhalf. destruct (Z.eq_dec (Qfloor x) k) as [Heq|Hne]; [|lia].
    rewrite Heq in Hhalf. lra. }
  destruct (Qcompare_spec (x - inject_Z (Qfloor x)) (1 # 2)) as [He|Hl|Hg].
  - destruct (Z.even (Qfloor x)); [done|]. apply Hup. lra.
  - done.
  - apply Hup. lra.
Qed.

Lemma round_half_even_ge (x : Q) (k : Z) :
  (inject_Z k <= x)%Q -> (k <= round_half_even x)%Z.
Proof.
  intros Hx. unfold round_half_even.
  assert (k <= Qfloor x)%Z as Hf.
  { rewrite <- (Qfloor_Z k). by apply Qfloor_resp_le. }
  destruct (Qcompare_spec (x - inject_Z (Qfloor x)) (1 # 2)) as [He|Hl|Hg].
  - destruct (Z.even (Qfloor x)); lia.
  - done.
  - lia.
Qed.

(** Rounding to three decimals does not leave an interval of thousandths. *)
Lemma round3_bounds (q : Q) (lo hi : Z) :
  (Qmake lo 1000 <= q <= Qmake hi 1000)%Q ->
  (Qmake lo 1000 <= round3 q <= Qmake hi 1000)%Q.
Proof.
  intros [Hlo Hhi]. unfold round3.
  rewrite (Qmake_thousandths lo) in Hlo. rewrite (Qmake_thousandths hi) in Hhi.
  assert (lo <= round_half_even (q * 1000) <= hi)%Z as [H1 H2].
  { split; [apply round_half_even_ge | apply round_half_even_le]; lra. }
  unfold Qle. simpl. lia.
Qed.

Lemma reinforce_in_range (now : Z) (r : Rule) :
  confidence_in_range r -> confidence_in_range (reinforce now r).
Proof.
  unfold confidence_in_range, reinforce. simpl. intros Hr.
  assert (0 <= get (r_confidence r) 0.5%Q <= 1)%Q as [H0 H1].
  { destruct (r_confidence r); simpl; [done | lra]. }
  assert (0 <= py_min 1 (get (r_confidence r) 0.5%Q + 0.08) <= 1)%Q as [H2 H3].
  { unfold py_min.
    destruct (Qle_bool 1 (get (r_confidence r) 0.5%Q + 0.08)) eqn:E; [lra|].
    assert (~ (1 <= get (r_confidence r) 0.5%Q + 0.08)%Q) as Hn.
    { intros H. apply Qle_bool_iff in H. congruence. }
    lra. }
  destruct (round3_bounds (py_min 1 (get (r_confidence r) 0.5%Q + 0.08)) 0 1000)
    as [H4 H5]; [split; lra|].
  split; lra.
Qed.

Lemma create_rule_entry_in_range (cfg : LearningConfig) (app_state : AppState)
    (uuid4 : string) (now : Z) (generated : GeneratedRule) :
  (0 <= confidence_in_rule generated <= 1)%Q ->
  exists c,
    r_confidence (_create_rule_entry cfg app_state uuid4 now generated) = Some c
    /\ (0 <= c <= 0.6)%Q.
Proof.
  intros [H0 H1]. eexists. split; [reflexivity|].
  destruct (round3_bounds (confidence_in_rule generated * 0.6) 0 600)
    as [H2 H3]; [split; lra|].
  split; lra.
Qed.

Lemma reinforce_rule_in_range (now : Z) (rules : list Rule) (id : string) :
  Forall confidence_in_range rules ->
  Forall confidence_in_range (_reinforce_rule now rules id).
Proof.
  induction 1 as [|x rest Hx Hrest IH]; simpl; [done|].
  destruct (String.eqb (r_id x) id); constructor; auto.
  by apply reinforce_in_range.
Qed.

Lemma run_lifecycle_in_range (cfg : LearningConfig) (now : Z) (rules : list Rule) :
  Forall confidence_in_range rules ->
  Forall confidence_in_range (_run_lifecycle cfg now rules).
Proof.
  intros Hall. apply Forall_lookup. intros i x Hx.
  assert (is_Some (rules !! i)) as [r Hr].
  { apply lookup_lt_is_Some.
    apply lookup_lt_Some in Hx.
    unfold _run_lifecycle in Hx. by rewrite enforce_cap_length, length_map in Hx. }
  pose proof (proj1 (Forall_lookup _ _) Hall i r Hr) as Hok.
  destruct (run_lifecycle_lookup cfg now rules i r Hr) as [H|[_ H]];
    rewrite H in Hx; by injection Hx as <-.
Qed.

(** X7.  The confidence of a stored rule stays a weight.  When the generated
    confidence lies between 0 and 1 (the schema of the generated rule
    asks for 0.1 to 1) and every stored confidence lies between 0 and 1,
    then after the merge-or-create step and the lifecycle every stored
    confidence still does: reinforcement never carries one past 1, the
    rounding never leaves the interval, and a new rule starts at 0.6 at
    most. *)
Theorem update_rules_keeps_confidence_in_range (cfg : LearningConfig)
    (app_state : AppState) (env : Env) (generated : GeneratedRule) (rules : list Rule) :
  (0 <= confidence_in_rule generated <= 1)%Q ->
  Forall confidence_in_range rules ->
  Forall confidence_in_range (update_rules cfg app_state env generated rules)
  /\ exists c,
       r_confidence (_create_rule_entry cfg app_state (uuid4 env) (now_merge env) generated)
       = Some c
       /\ (0 <= c <= 0.6)%Q.
Proof.
  intros Hg Hall.
  destruct (create_rule_entry_in_range cfg app_state (uuid4 env) (now_merge env)
              generated Hg) as (c & Hc & Hrange).
  split; [|by exists c].
  unfold update_rules. apply run_lifecycle_in_range. unfold merge_or_create.
  assert (Forall confidence_in_range
            (rules ++ [_create_rule_entry cfg app_state (uuid4 env) (now_merge env)
                         generated])%list) as Hnew.
  { apply Forall_app. split; [done|]. constructor; [|done].
    unfold confidence_in_range. rewrite Hc. lra. }
  destruct (_find_duplicate cfg app_state (rule generated) rules) as [[|a id]|];
    [done | by apply reinforce_rule_in_range | done].
Qed.

Lemma update_rules_keeps_confidence_in_range_witness :
  Forall confidence_in_range
    (update_rules Samples.cfg_small Samples.without_service
       (Samples.env_with Samples.healthy_disk) Samples.hindi_rule [Samples.hindi_record]).
Proof.
  apply (update_rules_keeps_confidence_in_range Samples.cfg_small Samples.without_service
           (Samples.env_with Samples.healthy_disk) Samples.hindi_rule
           [Samples.hindi_record]).
  - split; vm_compute; discriminate.
  - constructor; [|constructor]. split; vm_compute; discriminate.
Defined.

End Confidence.

(** ** One run of the pipeline over the store *)

Section Pipeline.
Import Reflector EmbeddingManager.

Lemma merge_or_create_length (cfg : LearningConfig) (app_state : AppState)
    (uuid4 : string) (now : Z) (generated : GeneratedRule) (rules : list Rule) :
  let result := merge_or_create cfg app_state uuid4 now generated rules in
  (length rules <= length result <= length rules + 1)%nat.
Proof.
  simpl. unfold merge_or_create.
  destruct (_find_duplicate cfg app_state (rule generated) rules) as [[|a id]|];
    rewrite ?length_app; simpl; try lia.
  destruct (reinforce_rule_split now rules (String a id))
    as [[_ ->]|(pre & r & post & -> & _ & _ & ->)]; rewrite ?length_app; simpl; lia.
Qed.

Lemma update_rules_length (cfg : LearningConfig) (app_state : AppState)
    (env : Env) (generated : GeneratedRule) (rules : list Rule) :
  let result := update_rules cfg app_state env generated rules in
  (length rules <= length result <= length rules + 1)%nat.
Proof.
  simpl. unfold update_rules, _run_lifecycle.
  rewrite enforce_cap_length, length_map. apply merge_or_create_length.
Qed.

(** What the store holds after a commit: the new document and the answer
    [True], or what it held and the answer [False]. *)
Lemma atomic_write_store (cfg : LearningConfig) (env : Env)
    (original_data : Document) (updated_rules : list Rule) (w : world Document) :
  let path := GUIDELINES_PATH cfg in
  let out := _atomic_write cfg env original_data updated_rules w in
  (fst out = Ok true
   /\ disk (snd out) !! path = Some (Parsed (updated_data env original_data updated_rules)))
  \/ (fst out = Ok false /\ disk (snd out) !! path = disk w !! path).
Proof.
  intros path out.
  destruct (dumps_raises (io env)) eqn:Ed;
    [|destruct (loads_raises (io env)) eqn:El;
      [|destruct (temp_write (io env)) as [| |raw] eqn:Ew]].
  1,2,4,5: right;
    apply atomic_write_fails_keeps_store;
    unfold failed_before_rename; rewrite ?Ed, ?El, ?Ew;
    first [by left | by right; left | right; right; discriminate].
  subst out. unfold _atomic_write, try_except, write_and_rename, bind,
    json_dumps, json_loads, write_file, os_replace, change, ret, raise.
  rewrite Ed, El, Ew. simpl.
  pose proof (temp_path_ne path) as Hne.
  destruct (replace_raises (io env)).
  - right.
    match goal with |- context [clean_up env ?t ?w1] =>
      destruct (clean_up_spec env t w1) as (w2 & -> & Hkeep & _)
    end.
    simpl. split; [done|]. rewrite Hkeep by auto. simpl.
    by rewrite lookup_insert_ne.
  - left. cbn [disk history]. rewrite lookup_insert_eq. cbn [fst snd disk].
    split; [done|]. by rewrite lookup_insert_eq.
Qed.

(** X8.  A run of [_process] that answers [True] leaves a store of version 2.0
    that keeps the other top-level keys of the document it read, holds
    every record that was there and at most one more, and has no more
    active rules than the cap of the hardware tier allows. *)
Theorem process_commit_respects_cap (cfg : LearningConfig) (app_state : AppState)
    (env : Env) (feedback_data : Feedback) (generated_rule : option GeneratedRule)
    (w : world Document) (d : Document) :
  disk w !! GUIDELINES_PATH cfg = Some (Parsed d) ->
  let out := _process cfg app_state env feedback_data generated_rule w in
  fst out = Ok true ->
  exists d',
    disk (snd out) !! GUIDELINES_PATH cfg = Some (Parsed d')
    /\ d_schema_version d' = Some "2.0"
    /\ d_other d' = d_other d
    /\ (length (get (d_rules d) []) <= length (get (d_rules d') [])
        <= length (get (d_rules d) []) + 1)%nat
    /\ (active_count (get (d_rules d') []) <= cap cfg)%nat.
Proof.
  intros Hdisk out. subst out. unfold _process.
  repeat match goal with
         | |- context [if ?b then ret false else _] => destruct b; [discriminate|]
         end.
  destruct generated_rule as [generated|]; [|discriminate].
  repeat match goal with
         | |- context [if ?b then ret false else _] => destruct b; [discriminate|]
         end.
  unfold bind. rewrite read_guidelines_raw_total, Hdisk.
  set (rules' := update_rules cfg app_state env generated (get (d_rules d) [])).
  destruct (atomic_write_store cfg env d rules' w) as [[_ Hstore]|[-> _]];
    [|discriminate].
  intros _. eexists. split; [exact Hstore|]. simpl.
  split; [done|]. split; [done|]. split; [apply update_rules_length|].
  unfold rules', update_rules, _run_lifecycle. rewrite enforce_cap_count. lia.
Qed.

Lemma process_commit_respects_cap_witness :
  let out := _process Samples.cfg_small Samples.without_service
               (Samples.env_with Samples.healthy_disk) Samples.hindi_feedback
               (Some Samples.hindi_rule) (Samples.world_with Samples.one_rule_store) in
  exists d',
    disk (snd out) !! Samples.store_path = Some (Parsed d')
    /\ (active_count (get (d_rules d') []) <= 30)%nat.
Proof.
  destruct (process_commit_respects_cap Samples.cfg_small Samples.without_service
              (Samples.env_with Samples.healthy_disk) Samples.hindi_feedback
              (Some Samples.hindi_rule) (Samples.world_with Samples.one_rule_store)
              Samples.one_rule_store)
    as (d' & Hstore & _ & _ & _ & Hcap).
  - reflexivity.
  - vm_compute. reflexivity.
  - exists d'. split; [exact Hstore | exact Hcap].
Defined.

(** X9.  On a store that is missing, or that holds bytes that are not JSON, an
    accepted feedback event whose commit does not fail starts the store
    afresh: it answers [True] and the store then holds a document of
    version 2.0 with one rule, the new one, and nothing else.  Whatever
    the corrupt file held is gone, without a backup.  (The clock of the
    lifecycle must not stand thirty days past the clock of the creation,
    or the new rule would be retired at once.) *)
Theorem process_starts_store_afresh (cfg : LearningConfig) (app_state : AppState)
    (env : Env) (feedback_data : Feedback) (generated : GeneratedRule)
    (w : world Document) :
  passes_gate cfg feedback_data -> passes_validation cfg generated ->
  commits (io env) ->
  (now_lifecycle env - thirty_days <= now_merge env)%Z ->
  (disk w !! GUIDELINES_PATH cfg = None
   \/ exists raw, disk w !! GUIDELINES_PATH cfg = Some (NotJson raw)) ->
  let out := _process cfg app_state env feedback_data (Some generated) w in
  fst out = Ok true
  /\ disk (snd out) !! GUIDELINES_PATH cfg
     = Some (Parsed
               {| d_schema_version := Some "2.0";
                  d_last_updated := Some (Instant (now_write env));
                  d_rules :=
                    Some [_create_rule_entry cfg app_state (uuid4 env) (now_merge env)
                            generated];
                  d_other := [] |}).
Proof.
  intros Hgate Hval Hio Hclock Hbad out. subst out.
  rewrite process_accepted by done.
  unfold bind. rewrite read_guidelines_raw_total.
  assert (match disk w !! GUIDELINES_PATH cfg with
          | Some (Parsed d) => d
          | _ => Reflector.empty_v2
          end = Reflector.empty_v2) as ->.
  { by destruct Hbad as [->|[raw ->]]. }
  assert (update_rules cfg app_state env generated (get (d_rules Reflector.empty_v2) [])
          = [_create_rule_entry cfg app_state (uuid4 env) (now_merge env) generated])
    as ->.
  { simpl. unfold update_rules, merge_or_create, _find_duplicate. simpl.
    unfold _run_lifecycle. simpl map.
    rewrite retirement_check_fresh.
    - apply enforce_cap_under. unfold active_count. simpl. unfold cap.
      destruct (String.eqb _ "4B"); lia.
    - unfold stale. simpl.
      apply andb_false_intro1. apply Z.ltb_ge. lia. }
  destruct (atomic_write_store cfg env Reflector.empty_v2
              [_create_rule_entry cfg app_state (uuid4 env) (now_merge env) generated] w)
    as [[Hres Hstore]|[Hres _]].
  - by split.
  - exfalso.
    destruct Hio as (Hd & Hl & Hw & Hr).
    revert Hres. unfold _atomic_write, try_except, write_and_rename, bind,
      json_dumps, json_loads, write_file, os_replace, change, ret, raise.
    rewrite Hd, Hl, Hw, Hr. simpl. by rewrite lookup_insert_eq.
Qed.

Lemma process_starts_store_afresh_witness :
  let out := _process Samples.cfg_small Samples.without_service
               (Samples.env_with Samples.healthy_disk) Samples.hindi_feedback
               (Some Samples.hindi_rule) Samples.corrupt_world in
  fst out = Ok true
  /\ disk (snd out) !! Samples.store_path
     = Some (Parsed
               {| d_schema_version := Some "2.0";
                  d_last_updated := Some (Instant (31 * Samples.day));
                  d_rules := Some [Samples.hindi_record];
                  d_other := [] |}).
Proof.
  apply (process_starts_store_afresh Samples.cfg_small Samples.without_service
           (Samples.env_with Samples.healthy_disk) Samples.hindi_feedback
           Samples.hindi_rule Samples.corrupt_world).
  - repeat split; vm_compute; auto 10. 
  - repeat split; vm_compute; try discriminate; lia.
  - by repeat split.
  - vm_compute. discriminate.
  - right. eexists. reflexivity.
Defined.

End Pipeline.

(** ** Deduplication at its edges *)

Section DeduplicationEdges.
Import Reflector EmbeddingManager.

Lemma keyword_scan_no_tokens (active_rules : list Rule) :
  keyword_scan ∅ active_rules = None.
Proof.
  induction active_rules as [|r rest IH]; simpl; [done|].
  unfold keyword_match. by rewrite decide_True.
Qed.

(** X10.  On the lexical path a candidate without a single word that counts
    (an empty text, blanks, stop words only) is never a duplicate of
    anything, not even of a stored rule with the very same text: the
    merge-or-create step stores it as a new rule each time. *)
Theorem candidate_without_tokens_is_always_new (cfg : LearningConfig)
    (app_state : AppState) (uuid4 : string) (now : Z) (generated : GeneratedRule)
    (rules : list Rule) :
  encoded app_state (rule generated) = None ->
  tokens (rule generated) = ∅ ->
  _find_duplicate cfg app_state (rule generated) rules = None
  /\ merge_or_create cfg app_state uuid4 now generated rules
     = (rules ++ [_create_rule_entry cfg app_state uuid4 now generated])%list.
Proof.
  intros Henc Htok.
  assert (_find_duplicate cfg app_state (rule generated) rules = None) as Hnone.
  { unfold _find_duplicate, _keyword_dedup, encoded in *. rewrite Htok.
    destruct (List.filter is_active rules) as [|r0 rest]; [done|].
    rewrite keyword_scan_no_tokens.
    destruct (embedding_manager app_state) as [em|]; [|done].
    destruct (is_ready em); [|done].
    by destruct (encode em (rule generated)). }
  split; [done|]. unfold merge_or_create. by rewrite Hnone.
Qed.

Lemma candidate_without_tokens_is_always_new_witness :
  let generated :=
    {| rule := "It is as it is"; query_type := "general"; language_hint := "en";
       source_summary := "sample"; confidence_in_rule := 0.9 |} in
  let stored := Samples.sample_rule "same" "It is as it is" 0.5 1 0 in
  _find_duplicate Samples.cfg_small Samples.without_service (rule generated) [stored]
  = None.
Proof.
  intros generated stored.
  apply (candidate_without_tokens_is_always_new Samples.cfg_small
           Samples.without_service "id" 0%Z generated [stored]).
  - reflexivity.
  - by vm_compute.
Defined.

(** X11.  On the lexical path a candidate with at least one word that counts is
    a duplicate whenever some active rule has the same text, letter case
    apart: [_find_duplicate] then answers with an id, and that id is
    carried by an active rule. *)
Theorem same_text_is_a_duplicate (cfg : LearningConfig) (app_state : AppState)
    (text : string) (rules : list Rule) (r : Rule) :
  encoded app_state text = None ->
  tokens text <> ∅ ->
  r ∈ rules -> is_active r = true ->
  Py.lower (get (r_rule r) "") = Py.lower text ->
  exists id r',
    _find_duplicate cfg app_state text rules = Some id
    /\ r' ∈ rules /\ is_active r' = true /\ r_id r' = id.
Proof.
  intros Henc Htok Hin Ha Hsame.
  assert (keyword_match (tokens text) r = true) as Hmatch.
  { apply keyword_match_spec.
    assert (tokens (get (r_rule r) "") = tokens text) as ->.
    { unfold tokens. by rewrite Hsame. }
    split; [done|]. split; [done|].
    rewrite (idemp_L (∪) (tokens text)), (idemp_L (∩) (tokens text)).
    lia. }
  assert (exists id, _find_duplicate cfg app_state text rules = Some id) as [id Hid].
  { unfold _find_duplicate, _keyword_dedup, encoded in *.
    assert (In r (List.filter is_active rules)) as Hact.
    { apply filter_In. split; [by apply list_elem_of_In | done]. }
    destruct (List.filter is_active rules) as [|r0 rest] eqn:Ef; [done|].
    rewrite <- Ef in *.
    assert (exists id, keyword_scan (tokens text) (List.filter is_active rules) = Some id)
      as [id Hid].
    { rewrite keyword_scan_find.
      destruct (List.find (keyword_match (tokens text)) (List.filter is_active rules))
        as [x|] eqn:Efind; [by exists (r_id x)|].
      apply find_nothing in Efind. rewrite Forall_forall in Efind.
      specialize (Efind r (proj2 (list_elem_of_In _ _) Hact)). congruence. }
    exists id.
    destruct (embedding_manager app_state) as [em|]; [|done].
    destruct (is_ready em); [|done].
    by destruct (encode em text). }
  destruct (find_duplicate_is_active cfg app_state text rules id Hid) as (r' & H1 & H2 & H3).
  by exists id, r'.
Qed.

Lemma same_text_is_a_duplicate_witness :
  exists id r',
    _find_duplicate Samples.cfg_small Samples.without_service
      "ALWAYS ANSWER IN THE LANGUAGE OF THE QUESTION."
      [Samples.old_rule; Samples.fresh_rule 0] = Some id
    /\ r' ∈ [Samples.old_rule; Samples.fresh_rule 0]
    /\ is_active r' = true /\ r_id r' = id.
Proof.
  apply (same_text_is_a_duplicate Samples.cfg_small Samples.without_service
           "ALWAYS ANSWER IN THE LANGUAGE OF THE QUESTION."
           [Samples.old_rule; Samples.fresh_rule 0] (Samples.fresh_rule 0)).
  - reflexivity.
  - by vm_compute.
  - apply list_elem_of_further, list_elem_of_here.
  - reflexivity.
  - by vm_compute.
Defined.

End DeduplicationEdges.

(** ** The answer of the completion service *)

Section GeneratedAnswer.
Import Reflector EmbeddingManager.

(** X12.  [validate_query_type] always answers with one of the six query types:
    a type of the list comes back in lower case, anything else becomes
    "general"; validating a second time changes nothing. *)
Theorem validate_query_type_is_of_the_taxonomy (v : string) :
  In (validate_query_type v) valid_query_types
  /\ (In (Py.lower v) valid_query_types -> validate_query_type v = Py.lower v)
  /\ (~ In (Py.lower v) valid_query_types -> validate_query_type v = "general")
  /\ validate_query_type (validate_query_type v) = validate_query_type v.
Proof.
  assert (forall x, In x valid_query_types -> validate_query_type x = x) as Hfix.
  { intros x Hx. simpl in Hx.
    repeat (destruct Hx as [<-|Hx]; [by vm_compute|]). done. }
  assert (In (validate_query_type v) valid_query_types) as Hin.
  { unfold validate_query_type.
    destruct (existsb (String.eqb (Py.lower v)) valid_query_types) eqn:E.
    - by apply existsb_eqb_In.
    - simpl. auto 10. }
  split; [done|]. split; [|split].
  - intros H. unfold validate_query_type. by rewrite (proj2 (existsb_eqb_In _ _) H).
  - intros H. unfold validate_query_type.
    destruct (existsb (String.eqb (Py.lower v)) valid_query_types) eqn:E; [|done].
    by apply existsb_eqb_In in E.
  - by apply Hfix.
Qed.


Lemma contains_char_cons (c d : ascii) (s : string) :
  Py.contains (String c "") (String d s)
  = Ascii.eqb c d || Py.contains (String c "") s.
Proof. simpl. by destruct (Ascii.eqb c d). Qed.

Lemma contains_char_nil (c : ascii) : Py.contains (String c "") "" = false.
Proof. reflexivity. Qed.

Lemma append_assoc (s t u : string) : (s +:+ t) +:+ u = s +:+ (t +:+ u).
Proof. induction s as [|c s IH]; [done|]. by rewrite !append_cons, IH. Qed.

Lemma from_first_open_some (s t : string) :
  from_first_open s = Some t ->
  exists pre t',
    s = pre +:+ t /\ t = String "{" t' /\ Py.contains "{" pre = false.
Proof.
  induction s as [|c s IH]; simpl; [discriminate|].
  destruct (Ascii.eqb_spec c "{") as [->|Hc].
  - intros [= <-]. by exists "", s.
  - intros (pre & t' & -> & -> & Hpre)%IH.
    exists (String c pre), t'. split; [done|]. split; [done|].
    rewrite contains_char_cons, Hpre, orb_false_r.
    apply Ascii.eqb_neq. congruence.
Qed.

Lemma from_first_open_none (s : string) :
  from_first_open s = None -> Py.contains "{" s = false.
Proof.
  induction s as [|c s IH]; [done|]. simpl from_first_open.
  destruct (Ascii.eqb_spec c "{") as [->|Hc]; [discriminate|].
  intros H%IH. rewrite contains_char_cons, H, orb_false_r.
  apply Ascii.eqb_neq. congruence.
Qed.

Lemma upto_last_close_none (s : string) :
  upto_last_close s = None -> Py.contains "}" s = false.
Proof.
  induction s as [|c s IH]; [done|]. simpl upto_last_close.
  destruct (upto_last_close s) as [p|]; [discriminate|].
  destruct (Ascii.eqb_spec c "}") as [->|Hc]; [discriminate|].
  intros _. rewrite contains_char_cons, IH by done. rewrite orb_false_r.
  apply Ascii.eqb_neq. congruence.
Qed.

Lemma upto_last_close_some (s m : string) :
  upto_last_close s = Some m ->
  exists m' post,
    s = m +:+ post /\ m = m' +:+ "}" /\ Py.contains "}" post = false.
Proof.
  revert m. induction s as [|c s IH]; intros m; [discriminate|].
  simpl upto_last_close.
  destruct (upto_last_close s) as [p|] eqn:Ep.
  - intros [= <-]. destruct (IH p eq_refl) as (m' & post & -> & -> & Hpost).
    by exists (String c m'), post.
  - destruct (Ascii.eqb_spec c "}") as [->|Hc]; [|discriminate].
    intros [= <-]. exists "", s. split; [done|]. split; [done|].
    by apply upto_last_close_none.
Qed.

(** A character that does not occur in [pre] and stands in [pre +:+ t]
    stands in [t]. *)
Lemma occurrence_after_prefix (x : ascii) (pre0 t pre rest : string) :
  pre0 +:+ t = pre +:+ String x rest ->
  Py.contains (String x "") pre0 = false ->
  exists k, t = k +:+ String x rest.
Proof.
  revert pre. induction pre0 as [|a pre0 IH]; intros pre Heq Hno.
  - by exists pre.
  - rewrite contains_char_cons in Hno. apply orb_false_elim in Hno as [Hxa Hno].
    destruct pre as [|b pre].
    + simpl in Heq. injection Heq as -> _. by rewrite Ascii.eqb_refl in Hxa.
    + rewrite !append_cons in Heq. injection Heq as _ Heq. by apply (IH pre).
Qed.

(** X14.  What [re.search(r"\{[\s\S]*\}", raw_text)] finds in the answer of the
    model.  When there is a match, it runs from the first opening brace of
    the text to its last closing brace: the text is [pre], the match,
    [post], with no opening brace in [pre] and no closing brace in [post].
    There is none exactly when no opening brace of the text is followed
    by a closing one, and [json.loads] is then given the whole text. *)
Theorem json_match_is_widest_braces (raw_text : string) :
  match json_match raw_text with
  | Some m =>
      json_text raw_text = m
      /\ exists pre mid post,
           raw_text = pre +:+ m +:+ post /\ m = "{" +:+ mid +:+ "}"
           /\ Py.contains "{" pre = false /\ Py.contains "}" post = false
  | None =>
      json_text raw_text = raw_text
      /\ ~ exists pre mid post, raw_text = pre +:+ "{" +:+ mid +:+ "}" +:+ post
  end.
Proof.
  unfold json_text. unfold json_match.
  destruct (from_first_open raw_text) as [t|] eqn:Et.
  - destruct (from_first_open_some _ _ Et) as (pre & t' & Hraw & Ht & Hpre).
    destruct (upto_last_close t) as [m|] eqn:Em.
    + split; [done|].
      destruct (upto_last_close_some _ _ Em) as (m' & post & Htm & Hm & Hpost).
      assert (exists mid, m' = String "{" mid) as [mid ->].
      { destruct m' as [|a m'].
        - exfalso. rewrite Hm in Em, Htm. rewrite Ht in Em. simpl in Em.
          destruct (upto_last_close t') as [p|]; [by injection Em as Hp|discriminate].
        - rewrite Hm, Ht in Htm. rewrite !append_cons in Htm.
          injection Htm as <- _. by exists m'. }
      exists pre, mid, post. by rewrite Hraw, Htm.
    + split; [done|]. intros (pre1 & mid & post & Heq).
      apply upto_last_close_none in Em.
      rewrite Hraw in Heq.
      change ("{" +:+ mid +:+ "}" +:+ post) with (String "{" (mid +:+ "}" +:+ post)) in Heq.
      destruct (occurrence_after_prefix _ _ _ _ _ Heq Hpre) as [k Hk].
      assert (Py.contains "}" t = true) as Hyes; [|congruence].
      apply contains_spec. exists (k +:+ "{" +:+ mid), post.
      rewrite Hk. change (String "{" (mid +:+ "}" +:+ post))
        with ("{" +:+ mid +:+ "}" +:+ post).
      by rewrite !append_assoc.
  - split; [done|]. intros (pre1 & mid & post & Heq).
    apply from_first_open_none in Et.
    assert (Py.contains "{" raw_text = true) as Hyes; [|congruence].
    apply contains_spec. by exists pre1, (mid +:+ "}" +:+ post).
Qed.

End GeneratedAnswer.

(** ** The similarity of two embeddings *)

Section Cosine.
Import EmbeddingManager.

Lemma np_dot_comm (a b : embedding) : (np_dot a b == np_dot b a)%Q.
Proof.
  unfold np_dot. revert b. induction a as [|x a IH]; intros [|y b]; simpl; try reflexivity.
  rewrite IH. ring.
Qed.

Lemma clamp_range (d : Q) : (-1 <= py_max (-1) (py_min1 1 d) <= 1)%Q.
Proof.
  unfold py_max, py_min1.
  destruct (Qle_bool 1 d) eqn:E1.
  - destruct (Qle_bool 1 (-1)) eqn:E2; [|lra].
    apply Qle_bool_iff in E2. lra.
  - assert (~ (1 <= d)%Q) as Hd by (intros H; apply Qle_bool_iff in H; congruence).
    destruct (Qle_bool d (-1)) eqn:E2; [lra|].
    assert (~ (d <= -1)%Q) as Hd' by (intros H; apply Qle_bool_iff in H; congruence).
    lra.
Qed.

Lemma clamp_proper (d e : Q) :
  (d == e)%Q -> (py_max (-1) (py_min1 1 d) == py_max (-1) (py_min1 1 e))%Q.
Proof.
  intros Hde. unfold py_max, py_min1.
  assert (Qle_bool 1 d = Qle_bool 1 e) as ->.
  { apply eq_true_iff_eq. rewrite !Qle_bool_iff. by rewrite Hde. }
  destruct (Qle_bool 1 e); [reflexivity|].
  assert (Qle_bool d (-1) = Qle_bool e (-1)) as ->.
  { apply eq_true_iff_eq. rewrite !Qle_bool_iff. by rewrite Hde. }
  by destruct (Qle_bool e (-1)).
Qed.

(** X15.  The similarity that [cosine_similarity] answers with always lies
    between -1 and 1, whatever the vectors (normalized or not); it does
    not depend on the order of its two arguments; and for vectors of
    different lengths it is 0, which is below every threshold of
    deduplication. *)
Theorem cosine_similarity_is_clamped_and_symmetric (vec_a vec_b : embedding) :
  (-1 <= cosine_similarity_method vec_a vec_b <= 1)%Q
  /\ (cosine_similarity_method vec_a vec_b == cosine_similarity_method vec_b vec_a)%Q
  /\ (length vec_a <> length vec_b -> cosine_similarity_method vec_a vec_b = 0%Q).
Proof.
  unfold cosine_similarity_method. rewrite (Nat.eqb_sym (length vec_b)).
  destruct (Nat.eqb_spec (length vec_a) (length vec_b)) as [Hlen|Hlen].
  - split; [apply clamp_range|]. split; [|done].
    apply clamp_proper, np_dot_comm.
  - split; [lra|]. split; [reflexivity | done].
Qed.

End Cosine.

(** ** The read cache between two loads *)

Section Cache.
Import Reflector GuidelinesManager.

Lemma refresh_within_ttl (disk : snapshot) (now : Q) (self : GuidelinesManager) :
  (now - _last_check_time self < _cache_ttl self)%Q ->
  refresh disk now self = (Ok tt, self).
Proof.
  intros Httl. unfold refresh.
  destruct (Qle_bool (_cache_ttl self) (now - _last_check_time self)) eqn:E; [|done].
  apply Qle_bool_iff in E. by apply Qle_not_lt in E.
Qed.

Lemma refresh_same_mtime (disk : snapshot) (now : Q) (self : GuidelinesManager)
    (mtime : Q) (f : file Document) :
  (_cache_ttl self <= now - _last_check_time self)%Q ->
  disk !! _path self = Some (mtime, f) ->
  (mtime == _last_mtime self)%Q ->
  refresh disk now self = (Ok tt, set_last_check_time now self).
Proof.
  intros Httl Hdisk Hsame. unfold refresh.
  rewrite (proj2 (Qle_bool_iff _ _) Httl).
  unfold bind, except_file_not_found, try_except, os_path_getmtime, ret.
  rewrite Hdisk. by rewrite (proj2 (Qeq_bool_iff _ _) Hsame).
Qed.

(** X16.  The two fast paths of [get_relevant_rules].  Within the time to live
    of the last check the disk is not looked at: the answer is selected
    from the cache and the manager is left exactly as it was, whatever
    the store holds by then.  After that time, a store whose modification
    time is the one of the last load is not read either: the cache is
    kept, whatever the file holds, and only the time of the last check
    moves. *)
Theorem get_relevant_rules_serves_from_cache (disk : snapshot) (now : Q)
    (query_type : string) (token_budget : Z) (self : GuidelinesManager) :
  let answer :=
    select_rules (_model_size self) query_type token_budget (_active_rules self) in
  ((now - _last_check_time self < _cache_ttl self)%Q ->
   get_relevant_rules disk now query_type token_budget self = (Ok answer, self))
  /\ (forall mtime f,
        (_cache_ttl self <= now - _last_check_time self)%Q ->
        disk !! _path self = Some (mtime, f) ->
        (mtime == _last_mtime self)%Q ->
        get_relevant_rules disk now query_type token_budget self
        = (Ok answer, set_last_check_time now self)).
Proof.
  intros answer. split.
  - intros Httl. unfold get_relevant_rules, bind.
    by rewrite refresh_within_ttl.
  - intros mtime f Httl Hdisk Hsame. unfold get_relevant_rules, bind.
    by rewrite (refresh_same_mtime disk now self mtime f).
Qed.

Lemma get_relevant_rules_serves_from_cache_witness :
  get_relevant_rules Samples.corrupt_disk 10 "general" 90 Samples.long_manager
  = (Ok [Samples.first_long; Samples.second_long], Samples.long_manager).
Proof.
  destruct (get_relevant_rules_serves_from_cache Samples.corrupt_disk 10 "general" 90
              Samples.long_manager) as [Hfast _].
  assert (select_rules (_model_size Samples.long_manager) "general" 90
            (_active_rules Samples.long_manager)
          = [Samples.first_long; Samples.second_long]) as Hsel by (by vm_compute).
  rewrite <- Hsel. apply Hfast. by vm_compute.
Defined.

(** What a load leaves in the cache. *)
Lemma load_run (disk : snapshot) (self : GuidelinesManager) :
  _load disk self
  = (Ok tt,
     match disk !! _path self with
     | None => set_loaded (clear self)
     | Some (mtime, Parsed data) => install data mtime self
     | Some (_, NotJson _) => if _loaded self then self else clear self
     end).
Proof.
  unfold _load, try_except, load_body.
  by destruct (disk !! _path self) as [[mtime [data|raw]]|].
Qed.









Lemma get_stats_partition (rules : list Rule) :
  (length (List.filter (has_status "active") rules)
   + length (List.filter (has_status "retired") rules)
   + length (List.filter (has_status "pending_review") rules)
   <= length rules)%nat.
Proof.
  induction rules as [|r rest IH]; simpl; [lia|].
  destruct (has_status "active" r) eqn:E1, (has_status "retired" r) eqn:E2,
    (has_status "pending_review" r) eqn:E3; simpl; try lia; exfalso;
    unfold has_status in *; destruct (r_status r) as [s|]; try discriminate;
    repeat match goal with
           | H : String.eqb _ _ = true |- _ => apply String.eqb_eq in H
           end; congruence.
Qed.

(** X19.  The counts of [get_stats] never add up to more than the total, the
    three statuses excluding one another (a record with another status,
    or with none, is counted in the total only); and on a coherent cache
    the active count is the number of rules that [get_relevant_rules]
    selects from. *)
Theorem get_stats_counts (self : GuidelinesManager) :
  let stats := get_stats self in
  (active_rules stats + retired_rules stats + pending_review stats
   <= total_rules stats)%nat
  /\ total_rules stats = length (_rules self)
  /\ (coherent self -> active_rules stats = length (_active_rules self)).
Proof.
  simpl. split; [apply get_stats_partition|]. split; [done|].
  intros ->. done.
Qed.

Lemma get_stats_counts_witness :
  active_rules (get_stats Samples.long_manager)
  = length (_active_rules Samples.long_manager).
Proof.
  apply (get_stats_counts Samples.long_manager). reflexivity.
Defined.

End Cache.

(** ** From the writer to the reader *)

Section WriteThenRead.
Import Reflector GuidelinesManager.

Lemma atomic_write_commits_store (cfg : LearningConfig) (env : Env)
    (original_data : Document) (updated_rules : list Rule) (w : world Document) :
  commits (io env) ->
  let out := _atomic_write cfg env original_data updated_rules w in
  fst out = Ok true
  /\ disk (snd out) !! GUIDELINES_PATH cfg
     = Some (Parsed (updated_data env original_data updated_rules)).
Proof.
  intros (Hd & Hl & Hw & Hr) out.
  destruct (atomic_write_store cfg env original_data updated_rules w)
    as [H|[Hres _]]; [exact H|].
  exfalso. revert Hres.
  unfold _atomic_write, try_except, write_and_rename, bind,
    json_dumps, json_loads, write_file, os_replace, change, ret, raise.
  rewrite Hd, Hl, Hw, Hr. simpl. by rewrite lookup_insert_eq.
Qed.

(** X20.  The rules that a successful commit writes are the rules that are
    served next.  After [_atomic_write] has gone through, a manager of
    the same path that runs [force_reload] (as [_process] has it do) holds
    exactly the committed rules, and until the time to live has passed
    every [get_relevant_rules] selects from the active ones among them
    without looking at the disk again. *)
Theorem committed_rules_are_served (cfg : LearningConfig) (env : Env)
    (original_data : Document) (updated_rules : list Rule) (w : world Document)
    (mtime now : Q) (self : GuidelinesManager) :
  commits (io env) ->
  _path self = GUIDELINES_PATH cfg ->
  let written := snd (_atomic_write cfg env original_data updated_rules w) in
  let self' := snd (force_reload (snapshot_of mtime written) now self) in
  _rules self' = updated_rules
  /\ _active_rules self' = List.filter is_active updated_rules
  /\ forall disk' now' query_type token_budget,
       (now' - now < _cache_ttl self)%Q ->
       get_relevant_rules disk' now' query_type token_budget self'
       = (Ok (select_rules (_model_size self) query_type token_budget
                (List.filter is_active updated_rules)), self').
Proof.
  intros Hio Hpath written self'.
  destruct (atomic_write_commits_store cfg env original_data updated_rules w Hio)
    as [_ Hstore].
  fold written in Hstore.
  assert (snapshot_of mtime written !! _path self
          = Some (mtime, Parsed (updated_data env original_data updated_rules)))
    as Hsnap.
  { unfold snapshot_of. by rewrite lookup_fmap, Hpath, Hstore. }
  assert (self' = set_last_check_time now
                    (install (updated_data env original_data updated_rules) mtime self))
    as Hself.
  { unfold self', force_reload, bind. by rewrite load_run, Hsnap. }
  rewrite Hself. split; [done|]. split; [done|].
  intros disk' now' query_type token_budget Httl.
  unfold get_relevant_rules, bind.
  by rewrite refresh_within_ttl.
Qed.

Lemma committed_rules_are_served_witness :
  let written :=
    snd (_atomic_write Samples.cfg_small (Samples.env_with Samples.healthy_disk)
           Samples.one_rule_store [Samples.first_long; Samples.second_long]
           (Samples.world_with Samples.one_rule_store)) in
  _rules (snd (force_reload (snapshot_of 5 written) 100 Samples.long_manager))
  = [Samples.first_long; Samples.second_long].
Proof.
  apply (committed_rules_are_served Samples.cfg_small
           (Samples.env_with Samples.healthy_disk) Samples.one_rule_store
           [Samples.first_long; Samples.second_long]
           (Samples.world_with Samples.one_rule_store) 5 100 Samples.long_manager).
  - by repeat split.
  - reflexivity.
Defined.

End WriteThenRead.

(** ** The schema migrator, case by case *)

Section MigrationCases.
Import Migration.

Lemma append_inj_l (s a b : string) : s +:+ a = s +:+ b -> a = b.
Proof.
  induction s as [|c s IH]; [done|]. rewrite !append_cons. intros [= H]. by apply IH.
Qed.

Lemma append_ne_l (s a : string) : a <> "" -> s +:+ a <> s.
Proof.
  intros Ha H. apply (f_equal String.length) in H. rewrite length_append in H.
  destruct a; [done|]. simpl in H. lia.
Qed.

Lemma backup_path_ne (path ts : string) :
  backup_path_of path ts <> path /\ backup_path_of path ts <> path +:+ ".temp".
Proof.
  unfold backup_path_of. split.
  - by apply append_ne_l.
  - intros H. apply append_inj_l in H. discriminate.
Qed.

Lemma temp_ne (path : string) : path +:+ ".temp" <> path.
Proof. by apply append_ne_l. Qed.

Lemma exists_run {A : Type} (path : string) (w : world A) :
  os_path_exists path w = (Ok (bool_decide (is_Some (disk w !! path))), w).
Proof. reflexivity. Qed.

(** X21.  On a missing store the migrator does one thing: it creates the store
    as an empty document of version 2.0.  No backup and no temporary file
    appear, and nothing else on the disk changes. *)
Theorem migration_creates_missing_store (guidelines_path : string)
    (embedding_manager : option EmbeddingManager.EmbeddingManager)
    (env : Env) (w : world json) :
  disk w !! guidelines_path = None ->
  create_write env = Written ->
  run_schema_migration guidelines_path embedding_manager env w
  = (Ok tt,
     {| disk := <[guidelines_path := Parsed (empty_v2 (now_created env))]> (disk w);
        history := disk w :: history w |}).
Proof.
  intros Hdisk Hw.
  assert (os_path_exists guidelines_path w = (Ok false, w)) as Hex.
  { unfold os_path_exists.
    by rewrite bool_decide_false by (rewrite Hdisk; intros [? ?]; congruence). }
  unfold run_schema_migration, check_and_read.
  unfold bind at 1. unfold try_except at 1. unfold bind at 1.
  rewrite Hex. cbv beta iota.
  unfold bind at 1. unfold ret at 1. cbv beta iota.
  unfold bind at 1. rewrite Hex. cbv beta iota.
  rewrite Hw. reflexivity.
Qed.

Lemma migration_creates_missing_store_witness :
  disk (snd (run_schema_migration Samples.store_path None Samples.calm
               Samples.absent_world))
  = {[ Samples.store_path := Parsed (empty_v2 (now_created Samples.calm)) ]}.
Proof.
  rewrite (migration_creates_missing_store Samples.store_path None Samples.calm
             Samples.absent_world); [|reflexivity|reflexivity].
  reflexivity.
Defined.

(** What the [except] clause does when no backup path is bound. *)
Lemma on_failure_unbound (env : Env) (guidelines_path : string) (w : world json) :
  fallback_write env = Written ->
  exists w',
    on_failure env guidelines_path None w = (Ok tt, w')
    /\ disk w' !! guidelines_path = Some (Parsed (empty_v2 (now_fallback env)))
    /\ forall p, p <> guidelines_path -> p <> guidelines_path +:+ ".temp" ->
                 disk w' !! p = disk w !! p.
Proof.
  intros Hw. unfold on_failure.
  unfold bind at 1. unfold try_pass at 1, try_except at 1, ret at 1. cbv beta iota.
  unfold bind at 1.
  match goal with |- context [try_pass ?m w] =>
    assert (exists w1, try_pass m w = (Ok tt, w1)
                       /\ forall p, p <> guidelines_path +:+ ".temp" ->
                                    disk w1 !! p = disk w !! p) as (w1 & -> & Hkeep)
  end.
  { unfold try_pass, try_except, bind, os_path_exists, os_remove, ret, raise, change.
    destruct (bool_decide (is_Some (disk w !! (guidelines_path +:+ ".temp")))).
    - destruct (remove_raises env); [by exists w|].
      destruct (disk w !! (guidelines_path +:+ ".temp")); [|by exists w].
      eexists. split; [reflexivity|]. intros p Hp. simpl. by rewrite lookup_delete_ne.
    - by exists w. }
  rewrite Hw. unfold try_pass, try_except, write_file, change.
  eexists. split; [reflexivity|]. cbn [disk]. split.
  - by rewrite lookup_insert_eq.
  - intros p Hp1 Hp2. rewrite lookup_insert_ne by done. by apply Hkeep.
Qed.

(** X22.  A store whose top-level JSON value is not an object (a bare list of
    rule texts, a string, a number, null) is lost: the migrator raises
    nothing, writes no backup, and overwrites the store with an empty
    document of version 2.0.  Apart from the store and the temporary
    path, no path changes, the backup path included. *)
Theorem migration_wipes_store_that_is_not_an_object (guidelines_path : string)
    (embedding_manager : option EmbeddingManager.EmbeddingManager)
    (env : Env) (w : world json) (existing : json) :
  disk w !! guidelines_path = Some (Parsed existing) ->
  (forall kv, existing <> JDict kv) ->
  fallback_write env = Written ->
  let out := run_schema_migration guidelines_path embedding_manager env w in
  let backup := backup_path_of guidelines_path (local_ts env) in
  fst out = Ok tt
  /\ disk (snd out) !! guidelines_path = Some (Parsed (empty_v2 (now_fallback env)))
  /\ disk (snd out) !! backup = disk w !! backup
  /\ forall p, p <> guidelines_path -> p <> guidelines_path +:+ ".temp" ->
               disk (snd out) !! p = disk w !! p.
Proof.
  intros Hdisk Hnot Hw out backup.
  assert (os_path_exists guidelines_path w = (Ok true, w)) as Hex.
  { unfold os_path_exists. by rewrite bool_decide_true by (by rewrite Hdisk). }
  assert (read_json guidelines_path w = (Ok existing, w)) as Hrd.
  { unfold read_json. by rewrite Hdisk. }
  assert (py_get existing "schema_version" JNull = Raise AttributeError) as Hget.
  { destruct existing as [| | | | |kv]; try done. by destruct (Hnot kv). }
  destruct (on_failure_unbound env guidelines_path w Hw) as (w' & Hfail & Hstore & Hkeep).
  assert (out = (Ok tt, w')) as ->.
  { unfold out, run_schema_migration, check_and_read.
    unfold bind at 1. unfold try_except at 1. unfold bind at 1.
    rewrite Hex. cbv beta iota.
    unfold bind at 1. unfold except_json_decode_error, try_except at 1.
    unfold bind at 1. rewrite Hrd. cbv beta iota.
    unfold bind at 1. unfold lift at 1. rewrite Hget. cbv beta iota.
    unfold raise at 1. cbv beta iota.
    unfold bind at 1. rewrite Hfail. reflexivity. }
  cbn [fst snd]. split; [done|]. split; [done|]. split; [|done].
  destruct (backup_path_ne guidelines_path (local_ts env)) as [H1 H2].
  by apply Hkeep.
Qed.

Lemma migration_wipes_store_that_is_not_an_object_witness :
  let out := run_schema_migration Samples.store_path None Samples.calm
               Samples.list_world in
  disk (snd out) !! Samples.store_path
  = Some (Parsed (empty_v2 (now_fallback Samples.calm)))
  /\ disk (snd out) !! backup_path_of Samples.store_path (local_ts Samples.calm) = None.
Proof.
  destruct (migration_wipes_store_that_is_not_an_object Samples.store_path None
              Samples.calm Samples.list_world Samples.list_store)
    as (_ & Hstore & Hbackup & _).
  - reflexivity.
  - intros kv. discriminate.
  - reflexivity.
  - split; [exact Hstore|]. rewrite Hbackup. reflexivity.
Defined.

Lemma migrate_one_has_keys (embedding_manager : option EmbeddingManager.EmbeddingManager)
    (env : Env) (n : nat) (raw r : json) :
  migrate_one embedding_manager env n raw = Ok (Some r) -> has_keys r = true.
Proof.
  unfold migrate_one.
  destruct raw as [| | |s| |kv]; try discriminate.
  - destruct (Py.strip s); [discriminate|]. by intros [= <-].
  - destruct (dict_rule_text kv) as [[|c t]|e]; try discriminate. by intros [= <-].
Qed.

Lemma migrate_rules_has_keys (embedding_manager : option EmbeddingManager.EmbeddingManager)
    (env : Env) (n : nat) (entries migrated : list json) :
  migrate_rules embedding_manager env n entries = Ok migrated ->
  forallb has_keys migrated = true /\ (length migrated <= length entries)%nat.
Proof.
  revert n migrated. induction entries as [|raw rest IH]; intros n migrated; simpl.
  - intros [= <-]. split; [done | simpl; lia].
  - destruct (migrate_one embedding_manager env n raw) as [[r|]|e] eqn:E1;
      [| |discriminate];
      destruct (migrate_rules embedding_manager env (S n) rest) as [l|e] eqn:E2;
      try discriminate; intros [= <-]; destruct (IH _ _ E2) as [Hk Hl].
    + simpl. rewrite Hk, (migrate_one_has_keys _ _ _ _ _ E1). split; [done | lia].
    + split; [done | lia].
Qed.

(** The steps 3 to 7 on a store that holds [c], none of them failing. *)
Lemma migrate_run (embedding_manager : option EmbeddingManager.EmbeddingManager)
    (env : Env) (path backup_path : string) (kv : list (string * json))
    (entries migrated : list json) (c : file json) (w : world json) :
  migrates env ->
  disk w !! path = Some c ->
  legacy_entries kv = Ok entries ->
  migrate_rules embedding_manager env 0 entries = Ok migrated ->
  exists w',
    migrate embedding_manager env path (path +:+ ".temp") backup_path (JDict kv) w
    = (Ok tt, w')
    /\ disk w'
       = <[path := Parsed (new_data env migrated)]>
           (delete (path +:+ ".temp")
              (<[path +:+ ".temp" := Parsed (new_data env migrated)]>
                 (<[backup_path := c]> (disk w)))).
Proof.
  intros (Hb & Ht & Hr) Hdisk Hentries Hmig.
  unfold legacy_entries in Hentries.
  unfold migrate.
  unfold bind at 1. unfold try_pass, try_except at 1, shutil_copy2 at 1.
  rewrite Hdisk, Hb. unfold write_file at 1, change at 1. cbv beta iota.
  unfold bind at 1. unfold lift at 1, py_get at 1. cbv beta iota.
  unfold bind at 1. unfold lift at 1, py_get at 1. cbv beta iota.
  unfold bind at 1. unfold lift at 1. rewrite Hentries. cbv beta iota.
  unfold bind at 1. unfold lift at 1. rewrite Hmig. cbv beta iota.
  unfold bind at 1. unfold json_dumps at 1, ret at 1. cbv beta iota.
  unfold bind at 1. rewrite Ht. unfold write_file at 1, change at 1. cbv beta iota.
  unfold bind at 1. unfold read_json at 1. cbn [disk].
  rewrite lookup_insert_eq. cbv beta iota.
  fold (new_data env migrated).
  assert (validate (new_data env migrated) = Ok tt) as Hval.
  { unfold validate, new_data, py_get. simpl.
    by rewrite (proj1 (migrate_rules_has_keys _ _ _ _ _ Hmig)). }
  unfold bind at 1. unfold lift at 1. rewrite Hval. cbv beta iota.
  rewrite Hr. unfold os_replace. cbn [disk]. rewrite lookup_insert_eq.
  unfold change. cbn [disk]. eexists. split; reflexivity.
Qed.

(** What a disk looks like after the steps 3 to 7 have gone through. *)
Lemma migrated_disk (path ts : string) (new : json) (c : file json)
    (d : gmap string (file json)) :
  let d' := <[path := Parsed new]>
              (delete (path +:+ ".temp")
                 (<[path +:+ ".temp" := Parsed new]>
                    (<[backup_path_of path ts := c]> d))) in
  d' !! path = Some (Parsed new)
  /\ d' !! backup_path_of path ts = Some c
  /\ d' !! (path +:+ ".temp") = None
  /\ forall p, ~ migration_paths path ts p -> d' !! p = d !! p.
Proof.
  intros d'. subst d'.
  destruct (backup_path_ne path ts) as [H1 H2]. pose proof (temp_ne path) as H3.
  split; [by rewrite lookup_insert_eq|]. split; [|split].
  - rewrite lookup_insert_ne by done. rewrite lookup_delete_ne by done.
    rewrite lookup_insert_ne by done. by rewrite lookup_insert_eq.
  - rewrite lookup_insert_ne by done. by rewrite lookup_delete_eq.
  - intros p Hp. unfold migration_paths in Hp.
    assert (path <> p) as Hp1 by (intros Heq; apply Hp; by left).
    assert (path +:+ ".temp" <> p) as Hp2 by (intros Heq; apply Hp; right; by left).
    assert (backup_path_of path ts <> p) as Hp3
      by (intros Heq; apply Hp; right; by right).
    rewrite lookup_insert_ne by done. rewrite lookup_delete_ne by done.
    rewrite lookup_insert_ne by done. by rewrite lookup_insert_ne.
Qed.

(** X23.  A legacy store (a JSON object that does not carry version 2.0) whose
    entries can all be read is migrated when none of the steps fails: the
    backup holds the store as it was, the store holds the document of
    version 2.0 with the migrated rules, the temporary file is gone and
    no other path has changed.  Every migrated rule carries the five
    mandatory keys, and there are at most as many of them as there were
    entries (blank ones and those that are neither text nor object being
    dropped). *)
Theorem migration_of_legacy_store (guidelines_path : string)
    (embedding_manager : option EmbeddingManager.EmbeddingManager)
    (env : Env) (w : world json) (kv : list (string * json))
    (entries migrated : list json) :
  disk w !! guidelines_path = Some (Parsed (JDict kv)) ->
  is_v2 (get (lookup_key kv "schema_version") JNull) = false ->
  legacy_entries kv = Ok entries ->
  migrate_rules embedding_manager env 0 entries = Ok migrated ->
  migrates env ->
  let out := run_schema_migration guidelines_path embedding_manager env w in
  let ts := local_ts env in
  fst out = Ok tt
  /\ disk (snd out) !! guidelines_path = Some (Parsed (new_data env migrated))
  /\ disk (snd out) !! backup_path_of guidelines_path ts = Some (Parsed (JDict kv))
  /\ disk (snd out) !! (guidelines_path +:+ ".temp") = None
  /\ (forall p, ~ migration_paths guidelines_path ts p ->
                disk (snd out) !! p = disk w !! p)
  /\ forallb has_keys migrated = true
  /\ (length migrated <= length entries)%nat.
Proof.
  intros Hdisk Hv2 Hentries Hmig Hio out ts.
  assert (os_path_exists guidelines_path w = (Ok true, w)) as Hex.
  { unfold os_path_exists. by rewrite bool_decide_true by (by rewrite Hdisk). }
  assert (read_json guidelines_path w = (Ok (JDict kv), w)) as Hrd.
  { unfold read_json. by rewrite Hdisk. }
  destruct (migrate_run embedding_manager env guidelines_path
              (backup_path_of guidelines_path ts) kv entries migrated _ w
              Hio Hdisk Hentries Hmig) as (w' & Hrun & Hw').
  assert (out = (Ok tt, w')) as ->.
  { unfold out, run_schema_migration, check_and_read.
    unfold bind at 1. unfold try_except at 1. unfold bind at 1.
    rewrite Hex. cbv beta iota.
    unfold bind at 1. unfold except_json_decode_error, try_except at 1.
    unfold bind at 1. rewrite Hrd. cbv beta iota.
    unfold bind at 1. unfold lift at 1, py_get at 1. cbv beta iota. rewrite Hv2.
    unfold ret at 1. cbv beta iota. unfold ret at 1. cbv beta iota.
    unfold try_except. fold ts. by rewrite Hrun. }
  cbn [fst snd]. rewrite Hw'.
  destruct (migrated_disk guidelines_path ts (new_data env migrated)
              (Parsed (JDict kv)) (disk w)) as (H1 & H2 & H3 & H4).
  destruct (migrate_rules_has_keys _ _ _ _ _ Hmig) as [H5 H6].
  by repeat split.
Qed.

Lemma migration_of_legacy_store_witness :
  let out := run_schema_migration Samples.store_path None Samples.calm
               Samples.plain_world in
  exists migrated,
    disk (snd out) !! Samples.store_path = Some (Parsed (new_data Samples.calm migrated))
    /\ length migrated = 2%nat
    /\ disk (snd out) !! backup_path_of Samples.store_path (local_ts Samples.calm)
       = Some (Parsed Samples.plain_store).
Proof.
  destruct (migrate_rules None Samples.calm 0
              [JStr "Always cite the page number."; JStr "  Prefer short answers.  "])
    as [migrated|e] eqn:Hmig; [|by vm_compute in Hmig].
  assert (length migrated = 2%nat) as Hlen.
  { vm_compute in Hmig. by injection Hmig as <-. }
  destruct (migration_of_legacy_store Samples.store_path None Samples.calm
              Samples.plain_world _ _ migrated eq_refl eq_refl eq_refl Hmig)
    as (_ & Hstore & Hbackup & _).
  - by repeat split.
  - exists migrated. split; [exact Hstore|]. split; [exact Hlen | exact Hbackup].
Defined.



(** X25.  Whatever the store holds and whatever fails, the migrator touches
    three paths at most: the store, its temporary file and the backup of
    this run.  Every other file of the disk is left as it was. *)
Theorem migration_is_confined (guidelines_path : string)
    (embedding_manager : option EmbeddingManager.EmbeddingManager) (env : Env) :
  confined (migration_paths guidelines_path (local_ts env))
    (run_schema_migration guidelines_path embedding_manager env).
Proof.
  set (S := migration_paths guidelines_path (local_ts env)).
  assert (S guidelines_path) as Hpath by (by left).
  assert (S (guidelines_path +:+ ".temp")) as Htemp by (right; by left).
  assert (S (backup_path_of guidelines_path (local_ts env))) as Hbackup
    by (right; by right).
  assert (forall backup_path,
             match backup_path with Some b => S b | None => True end ->
             confined S (on_failure env guidelines_path backup_path)) as Hfail.
  { intros backup_path Hb. unfold on_failure.
    apply confined_bind.
    { apply confined_try_pass. destruct backup_path as [b|]; [|apply confined_ret].
      apply confined_bind; [apply confined_exists|].
      intros [|]; [by apply confined_copy2 | apply confined_ret]. }
    intros _. apply confined_bind.
    { apply confined_try_pass, confined_bind; [apply confined_exists|].
      intros [|]; [by apply confined_remove | apply confined_ret]. }
    intros _. by apply confined_try_pass, confined_write_file. }
  unfold run_schema_migration. apply confined_bind.
  - apply confined_try_except.
    + unfold check_and_read. apply confined_bind; [apply confined_exists|].
      intros there. apply confined_bind.
      * destruct there; [|apply confined_ret].
        unfold except_json_decode_error. apply confined_try_except.
        -- apply confined_bind; [apply confined_read_json|]. intros existing.
           apply confined_bind; [apply confined_lift|]. intros version.
           destruct (is_v2 version); apply confined_ret.
        -- intros []; first [apply confined_ret | apply confined_raise].
      * intros [f|]; [apply confined_ret|].
        apply confined_bind; [apply confined_exists|].
        intros [|]; simpl; [apply confined_ret|].
        apply confined_bind; [by apply confined_write_file|].
        intros _. apply confined_ret.
    + intros e. apply confined_bind; [by apply Hfail|]. intros _. apply confined_ret.
  - intros [|existing]; [apply confined_ret|].
    apply confined_try_except; [|intros e; by apply Hfail].
    unfold migrate.
    apply confined_bind; [by apply confined_try_pass, confined_copy2|]. intros _.
    apply confined_bind; [apply confined_lift|]. intros rules_default.
    apply confined_bind; [apply confined_lift|]. intros old_rules_raw.
    apply confined_bind; [apply confined_lift|]. intros entries.
    apply confined_bind; [apply confined_lift|]. intros migrated_rules.
    apply confined_bind; [apply confined_dumps|]. intros json_str.
    apply confined_bind; [by apply confined_write_file|]. intros _.
    apply confined_bind; [apply confined_read_json|]. intros test.
    apply confined_bind; [apply confined_lift|]. intros _.
    by apply confined_replace.
Qed.

End MigrationCases.
